(** * MorphIO SWC reader: a shallow embedding of [src/readers/morphologySWC.cpp]

    The development follows the source file top to bottom: the tokenizer
    ([SWCTokenizer]), the sample reader ([readSamples]), the builder
    ([SWCBuilder]: [build_soma], [buildSWC], [assembleSections]) and the
    entry point [load].  Hash maps ([std::unordered_map]) are finite maps,
    vectors are lists, exceptions are an explicit outcome type, and the
    mutable builder state is threaded explicitly. *)

From Stdlib Require Import ZArith Ascii String Lia.
From Stdlib Require QArith Qabs.
From stdpp Require Import base option list gmap.

Local Open Scope Z_scope.

(** ** Machine integers *)

(** [size_t] is 64 bits wide, [unsigned int] and [int] are 32 bits wide. *)
Definition size_t_wrap (x : Z) : Z := x mod 2 ^ 64.
Definition uint32_wrap (x : Z) : Z := x mod 2 ^ 32.
Definition int32_wrap (x : Z) : Z := (x + 2 ^ 31) mod 2 ^ 32 - 2 ^ 31.

(** [std::string::npos], the largest [size_t]. *)
Definition npos : Z := 2 ^ 64 - 1.

(** [const int SWC_UNDEFINED_PARENT = -1;] *)
Definition SWC_UNDEFINED_PARENT : Z := -1.
(** [const unsigned int SWC_ROOT = 0xFFFFFFFD;] *)
Definition SWC_ROOT : Z := 0xFFFFFFFD.

(** Modelled from the spec: the enumeration [morphio::SectionType] is declared
    in a header outside the sources; section 6.2 fixes [1] as the soma
    kind. *)
Definition SECTION_SOMA : Z := 1.

(** ** Missing declarations taken as parameters *)

(** [morphio::floatType] with the arithmetic and comparisons the reader uses,
    and [morphio::epsilon].  The type is [float] or [double] depending on a
    build flag; nothing is assumed about the operations. *)
Class FloatOps := {
  floatType : Type;
  feq : floatType -> floatType -> bool;        (* operator== *)
  flt : floatType -> floatType -> bool;        (* operator<  *)
  fadd : floatType -> floatType -> floatType;
  fsub : floatType -> floatType -> floatType;
  fmul : floatType -> floatType -> floatType;
  fdiv : floatType -> floatType -> floatType;
  fabs : floatType -> floatType;               (* std::fabs *)
  float_of_int : Z -> floatType;               (* integral promotion *)
  epsilon : floatType
}.

(** [morphio::StringToNumber] ([utils.h]): parse a number of [contents]
    starting at an offset, returning the value and the offset just after it;
    [None] stands for a parse failure, which section 4.1 of the specification
    makes fatal with [ERROR_LINE_NON_PARSABLE]. *)
Class StringToNumber `{FloatOps} := {
  toInt : list ascii -> Z -> option (Z * Z);
  toFloat : list ascii -> Z -> option (floatType * Z)
}.

(** [SECTION_OUT_OF_RANGE_START], the first value past the section kinds of
    [morphio::SectionType] (declared with the enumeration, outside the
    sources). *)
Class SectionTypes := {
  SECTION_OUT_OF_RANGE_START : Z
}.

(** ** Errors and warnings *)

Section Reader.
Context `{Num : StringToNumber} `{Enum : SectionTypes}.

(** [using Point = std::array<floatType, 3>]. *)
Definition Point : Type := floatType * floatType * floatType.

(** [Point::operator!=]: element-wise comparison. *)
Definition point_eq (p q : Point) : bool :=
  let '(px, py, pz) := p in
  let '(qx, qy, qz) := q in
  feq px qx && feq py qy && feq pz qz.
Definition point_ne (p q : Point) : bool := negb (point_eq p q).

(** [morphio::readers::Sample]. *)
Record Sample := mkSample {
  id : Z;             (* unsigned int *)
  type : Z;           (* SectionType *)
  point : Point;
  diameter : floatType;
  parentId : Z;       (* unsigned int *)
  lineNumber : Z      (* unsigned int *)
}.

(** The messages of [ErrorMessages], with their arguments. *)
Inductive Message :=
| EARLY_END_OF_FILE (line : Z)
| ERROR_LINE_NON_PARSABLE (line : Z)
| ERROR_NEGATIVE_ID (line : Z)
| ERROR_SELF_PARENT (s : Sample)
| ERROR_UNSUPPORTED_SECTION_TYPE (line : Z) (ty : Z)
  (* the first argument is [samples[sample.id]], an unchecked vector access:
     [None] records an access outside the vector *)
| ERROR_REPEATED_ID (original : option Sample) (s : Sample)
| ERROR_MISSING_PARENT (s : Sample)
| ERROR_SOMA_WITH_NEURITE_PARENT (s : Sample)
| ERROR_MULTIPLE_SOMATA (somata : list Sample)
| ERROR_SOMA_BIFURCATION (s : Sample) (children : list Sample).

(** The exception classes thrown by the reader; [OutOfRange] is
    [std::out_of_range], thrown by [at()], and [UncheckedAccess] marks an
    unchecked [operator[]] outside its container. *)
Inductive Error :=
| RawDataError (m : Message)
| MissingParentError (m : Message)
| SomaError (m : Message)
| OutOfRange
| UncheckedAccess.

Inductive Warning :=
| ZERO_DIAMETER (s : Sample)
| DISCONNECTED_NEURITE (s : Sample)
| SOMA_NON_CONFORM (center child1 child2 : Sample)
| WRONG_ROOT_POINT (s : Sample).

(** The outcome of a call: a value, an exception, or a loop of the model
    that used up its fuel. *)
Inductive outcome (A : Type) :=
| Ok (a : A)
| Throw (e : Error)
| OutOfFuel.
#[global] Arguments Ok {A} a.
#[global] Arguments Throw {A} e.
#[global] Arguments OutOfFuel {A}.

Definition outcome_bind {A B} (f : A -> outcome B) (m : outcome A) : outcome B :=
  match m with
  | Ok a => f a
  | Throw e => Throw e
  | OutOfFuel => OutOfFuel
  end.

#[global] Instance outcome_mbind : MBind outcome := @outcome_bind.
#[global] Instance outcome_mret : MRet outcome := @Ok.

(** ** SWCTokenizer *)

(** The mutable members of the tokenizer; [contents_] never changes and is
    passed alongside. *)
Record SWCTokenizer := mkTok {
  pos_ : Z;     (* size_t *)
  line_ : Z     (* size_t *)
}.

Section Tokenizer.
Variable contents_ : list ascii.

Definition size : Z := Z.of_nat (length contents_).

Definition done (t : SWCTokenizer) : bool := size <=? pos_ t.

Definition lineNumber_ (t : SWCTokenizer) : Z := line_ t.

(** First index, counted from [i], of an element of [l] satisfying [p]. *)
Fixpoint find_if (p : ascii -> bool) (l : list ascii) (i : Z) : Z :=
  match l with
  | [] => npos
  | c :: l' => if p c then i else find_if p l' (i + 1)
  end.

(** [std::string::find_first_of(char, pos)]. *)
Definition find_first_of (value : ascii) (pos : Z) : Z :=
  if size <=? pos then npos
  else find_if (Ascii.eqb value) (drop (Z.to_nat pos) contents_) pos.

Definition is_blank (c : ascii) : bool :=
  Ascii.eqb c " " || Ascii.eqb c "009" || Ascii.eqb c "013".

(** [std::string::find_first_not_of(" \t\r", pos)]. *)
Definition find_first_not_of_blank (pos : Z) : Z :=
  if size <=? pos then npos
  else find_if (fun c => negb (is_blank c)) (drop (Z.to_nat pos) contents_) pos.

(** [contents_.at(pos)]. *)
Definition at_ (pos : Z) : option ascii :=
  if (0 <=? pos) && (pos <? size) then contents_ !! Z.to_nat pos else None.

Definition is_at (t : SWCTokenizer) (c : ascii) : bool :=
  match at_ (pos_ t) with
  | Some c' => Ascii.eqb c' c
  | None => false
  end.

Definition set_pos (t : SWCTokenizer) (p : Z) : SWCTokenizer :=
  {| pos_ := p; line_ := line_ t |}.

Definition newline : ascii := "010".

Definition skip_to (value : ascii) (t : SWCTokenizer) : SWCTokenizer :=
  let pos := find_first_of value (pos_ t) in
  let t := if pos =? npos then set_pos t size else t in
  set_pos t pos.

Definition advance_to_non_whitespace (t : SWCTokenizer) : SWCTokenizer :=
  if done t then t
  else
    let pos := find_first_not_of_blank (pos_ t) in
    if pos =? npos then set_pos t size else set_pos t pos.

(** The [while] loop of [consume_line_and_trailing_comments]. *)
Fixpoint consume_loop (fuel : nat) (found_newline : bool) (t : SWCTokenizer)
  : outcome (bool * SWCTokenizer) :=
  match fuel with
  | O => OutOfFuel
  | S fuel =>
    if negb (done t) && (is_at t "#" || is_at t newline) then
      if is_at t "#" then
        consume_loop fuel found_newline (advance_to_non_whitespace (skip_to newline t))
      else
        consume_loop fuel true
          (advance_to_non_whitespace
             {| pos_ := size_t_wrap (pos_ t + 1); line_ := size_t_wrap (line_ t + 1) |})
    else Ok (found_newline, t)
  end.

(** Every iteration of the loops of the tokenizer moves the cursor forward, so
    one more than the length of the text is fuel enough (see
    [consume_line_total] and [advance_to_number_total] below). *)
Definition fuel_ : nat := S (length contents_).

Definition consume_line_and_trailing_comments (t : SWCTokenizer)
  : outcome (bool * SWCTokenizer) :=
  '(found_newline, t) ← consume_loop fuel_ false (advance_to_non_whitespace t);
  Ok (found_newline || done t, t).

(** The [while] loop of [advance_to_number]. *)
Fixpoint advance_loop (fuel : nat) (t : SWCTokenizer) : outcome SWCTokenizer :=
  match fuel with
  | O => OutOfFuel
  | S fuel =>
    if done t then Ok t
    else
      '(again, t) ← consume_line_and_trailing_comments t;
      if again : bool then advance_loop fuel t else Ok t
  end.

Definition is_digit (c : ascii) : bool :=
  let n := nat_of_ascii c in (48 <=? n)%nat && (n <=? 57)%nat.

Definition number_start (c : ascii) : bool :=
  is_digit c || Ascii.eqb c "-" || Ascii.eqb c "+" || Ascii.eqb c ".".

Definition advance_to_number (t : SWCTokenizer) : outcome SWCTokenizer :=
  t ← advance_loop fuel_ t;
  if done t then Throw (RawDataError (EARLY_END_OF_FILE (line_ t)))
  else
    match at_ (pos_ t) with
    | None => Throw OutOfRange
    | Some c =>
      if number_start c then Ok t
      else Throw (RawDataError (ERROR_LINE_NON_PARSABLE (line_ t)))
    end.

Definition read_int (t : SWCTokenizer) : outcome (Z * SWCTokenizer) :=
  t ← advance_to_number t;
  match toInt contents_ (pos_ t) with
  | Some (v, p) => Ok (v, set_pos t p)
  | None => Throw (RawDataError (ERROR_LINE_NON_PARSABLE (line_ t)))
  end.

Definition read_float (t : SWCTokenizer) : outcome (floatType * SWCTokenizer) :=
  t ← advance_to_number t;
  match toFloat contents_ (pos_ t) with
  | Some (v, p) => Ok (v, set_pos t p)
  | None => Throw (RawDataError (ERROR_LINE_NON_PARSABLE (line_ t)))
  end.

(** ** readSamples *)

(** The body of the [while (!tokenizer.done())] loop: one record. *)
Definition readSample (t : SWCTokenizer) : outcome (Sample * SWCTokenizer) :=
  let lineNumber := uint32_wrap (lineNumber_ t) in
  '(id, t) ← read_int t;
  if id <? 0 then Throw (RawDataError (ERROR_NEGATIVE_ID lineNumber))
  else
    '(ty, t) ← read_int t;
    '(x, t) ← read_float t;
    '(y, t) ← read_float t;
    '(z, t) ← read_float t;
    '(radius, t) ← read_float t;
    '(parentId, t) ← read_int t;
    if parentId <? -1 then Throw (RawDataError (ERROR_NEGATIVE_ID lineNumber))
    else
      let parent :=
        if parentId =? SWC_UNDEFINED_PARENT then SWC_ROOT else uint32_wrap parentId in
      '(ended, t) ← consume_line_and_trailing_comments t;
      if negb ended then Throw (RawDataError (ERROR_LINE_NON_PARSABLE lineNumber))
      else
        Ok ({| id := uint32_wrap id;
               type := int32_wrap ty;
               point := (x, y, z);
               diameter := fmul (float_of_int 2) radius;
               parentId := parent;
               lineNumber := lineNumber |}, t).

Fixpoint readSamples_loop (fuel : nat) (samples : list Sample) (t : SWCTokenizer)
  : outcome (list Sample) :=
  match fuel with
  | O => OutOfFuel
  | S fuel =>
    if done t then Ok samples
    else
      '(sample, t) ← readSample t;
      readSamples_loop fuel (samples ++ [sample]) t
  end.

End Tokenizer.

Definition readSamples (contents : list ascii) : outcome (list Sample) :=
  '(_, t) ← consume_line_and_trailing_comments contents {| pos_ := 0; line_ := 1 |};
  readSamples_loop contents (fuel_ contents) [] t.

(** ** The mutable morphology

    Modelled from the spec: [morphio::mut::Morphology], [mut::Soma] and
    [mut::Section] are declared outside the sources.  Following section 6.3,
    the morphology holds a soma and the sections appended so far; a section
    handle is the position of the section in creation order, a root section
    has no parent handle, and appending stores the points, diameters and type
    it is given. *)

Inductive SomaType :=
| SOMA_UNDEFINED
| SOMA_SINGLE_POINT
| SOMA_NEUROMORPHO_THREE_POINT_CYLINDERS
| SOMA_CYLINDERS.

Definition SomaType_eqb (a b : SomaType) : bool :=
  match a, b with
  | SOMA_UNDEFINED, SOMA_UNDEFINED
  | SOMA_SINGLE_POINT, SOMA_SINGLE_POINT
  | SOMA_NEUROMORPHO_THREE_POINT_CYLINDERS, SOMA_NEUROMORPHO_THREE_POINT_CYLINDERS
  | SOMA_CYLINDERS, SOMA_CYLINDERS => true
  | _, _ => false
  end.

Record Soma := mkSoma {
  soma_type : SomaType;
  soma_points : list Point;
  soma_diameters : list floatType
}.

Record PointLevel := mkPointLevel {
  _points : list Point;
  _diameters : list floatType
}.

Record MutSection := mkSection {
  section_parent : option nat;
  section_type : Z;
  section_properties : PointLevel
}.

Record Morphology := mkMorphology {
  soma : Soma;
  sections : list MutSection
}.

Definition appendRootSection (properties : PointLevel) (ty : Z) (m : Morphology)
  : nat * Morphology :=
  (length (sections m),
   {| soma := soma m;
      sections := sections m ++ [mkSection None ty properties] |}).

Definition appendSection (parent : nat) (properties : PointLevel) (ty : Z) (m : Morphology)
  : nat * Morphology :=
  (length (sections m),
   {| soma := soma m;
      sections := sections m ++ [mkSection (Some parent) ty properties] |}).

(** ** SWCBuilder *)

(** The members of [SWCBuilder], together with [declared_to_swc], the local
    map of [buildSWC] that [assembleSections] receives by reference. *)
Record SWCBuilder := mkBuilder {
  children_ : gmap Z (list Z);
  samples_ : gmap Z Sample;
  morph_ : Morphology;
  declared_to_swc : gmap Z nat
}.

Definition new_builder : SWCBuilder :=
  {| children_ := ∅;
     samples_ := ∅;
     morph_ := {| soma := mkSoma SOMA_UNDEFINED [] []; sections := [] |};
     declared_to_swc := ∅ |}.

(** What a call leaves behind: the builder it reached, the warnings it handed
    to [printError], in order, and how it ended.  The builder and the warnings
    are kept when the call throws. *)
Record Run (A : Type) := mkRun {
  final : SWCBuilder;
  warned : list Warning;
  result : outcome A
}.
#[global] Arguments mkRun {A} final warned result.
#[global] Arguments final {A} r.
#[global] Arguments warned {A} r.
#[global] Arguments result {A} r.

(** A member function of the builder. *)
Definition M (A : Type) : Type := SWCBuilder -> Run A.

Definition ret {A} (a : A) : M A := fun b => mkRun b [] (Ok a).
Definition throw {A} (e : Error) : M A := fun b => mkRun b [] (Throw e).
Definition out_of_fuel {A} : M A := fun b => mkRun b [] OutOfFuel.
Definition bind {A B} (m : M A) (f : A -> M B) : M B :=
  fun b =>
    let r := m b in
    match result r with
    | Ok a =>
      let r' := f a (final r) in
      mkRun (final r') (warned r ++ warned r') (result r')
    | Throw e => mkRun (final r) (warned r) (Throw e)
    | OutOfFuel => mkRun (final r) (warned r) OutOfFuel
    end.
Definition gets {A} (f : SWCBuilder -> A) : M A := fun b => mkRun b [] (Ok (f b)).
Definition modify (f : SWCBuilder -> SWCBuilder) : M unit := fun b => mkRun (f b) [] (Ok tt).

#[global] Instance M_mbind : MBind M := fun A B f m => bind m f.
#[global] Instance M_mret : MRet M := @ret.

(** A range-based [for] loop whose body may throw. *)
Fixpoint for_each {A} (body : A -> M unit) (l : list A) : M unit :=
  match l with
  | [] => ret tt
  | x :: l' => _ ← body x; for_each body l'
  end.

Definition printError (w : Warning) : M unit := fun b => mkRun b [w] (Ok tt).

Definition set_morph (f : Morphology -> Morphology) : M unit :=
  modify (fun b =>
    {| children_ := children_ b; samples_ := samples_ b; morph_ := f (morph_ b);
       declared_to_swc := declared_to_swc b |}).

Definition set_soma (s : Soma) : M unit :=
  set_morph (fun m => {| soma := s; sections := sections m |}).

(** [soma->type() = ty]. *)
Definition set_soma_type (ty : SomaType) : M unit :=
  set_morph (fun m =>
    {| soma := mkSoma ty (soma_points (soma m)) (soma_diameters (soma m));
       sections := sections m |}).

(** [soma->points().push_back(p); soma->diameters().push_back(d)]. *)
Definition push_soma_point (p : Point) (d : floatType) : M unit :=
  set_morph (fun m =>
    {| soma := mkSoma (soma_type (soma m))
                      (soma_points (soma m) ++ [p]) (soma_diameters (soma m) ++ [d]);
       sections := sections m |}).

(** [samples_.at(id)] and [children_.at(id)]. *)
Definition samples_at (i : Z) : M Sample :=
  samples ← gets samples_;
  match samples !! i with
  | Some s => ret s
  | None => throw OutOfRange
  end.
Definition children_at (i : Z) : M (list Z) :=
  children ← gets children_;
  match children !! i with
  | Some l => ret l
  | None => throw OutOfRange
  end.

(** [v[0]] on a vector. *)
Definition front {A} (l : list A) : M A :=
  match l with
  | x :: _ => ret x
  | [] => throw UncheckedAccess
  end.

Definition fne (a b : floatType) : bool := negb (feq a b).

Definition _checkNeuromorph3PointSoma (soma_samples : list Sample) : M unit :=
  match soma_samples with
  | center :: child1 :: child2 :: _ =>
    let '(x, y, z) := point center in
    let d := diameter center in
    let r := fdiv (diameter center) (float_of_int 2) in
    let '(x1, y1, z1) := point child1 in
    let '(x2, y2, z2) := point child2 in
    if (fne x1 x || fne x2 x || fne y1 (fsub y r) || fne y2 (fadd y r) ||
        fne z1 z || fne z2 z || fne (diameter child1) d || fne (diameter child2) d)
       && flt (fabs (fsub (diameter child1) d)) epsilon
       && flt (fabs (fsub (diameter child2) d)) epsilon
       && flt (fabs (fsub x1 x)) epsilon
       && flt (fabs (fsub x2 x)) epsilon
       && flt (fabs (fsub z1 z)) epsilon
       && flt (fabs (fsub z2 z)) epsilon
    then printError (SOMA_NON_CONFORM center child1 child2)
    else ret tt
  | _ => throw UncheckedAccess
  end.

(** The soma children of [s] among [ids]; [samples_[id]] is read through the
    map (every id stored in [children_] is a key of [samples_]). *)
Definition soma_children (samples : gmap Z Sample) (ids : list Z) : list Sample :=
  omap (fun i => match samples !! i with
                 | Some c => if type c =? SECTION_SOMA then Some c else None
                 | None => None
                 end) ids.

(** The body of the loop over the samples of a [SOMA_CYLINDERS] soma;
    [parent_count] is passed along. *)
Definition cylinder_step (s : Sample) (parent_count : Z) : M Z :=
  samples ← gets samples_;
  children ← gets children_;
  parent_count ←
    (if parentId s =? SWC_ROOT then ret (parent_count + 1)
     else match samples !! parentId s with
          | None => throw (MissingParentError (ERROR_MISSING_PARENT s))
          | Some p =>
            if negb (type p =? SECTION_SOMA)
            then throw (SomaError (ERROR_SOMA_WITH_NEURITE_PARENT s))
            else ret parent_count
          end);
  _ ← (match children !! id s with
       | Some ids =>
         if 1 <? Z.of_nat (length ids) then
           let soma_bifurcations := soma_children samples ids in
           if 1 <? Z.of_nat (length soma_bifurcations)
           then throw (SomaError (ERROR_SOMA_BIFURCATION s soma_bifurcations))
           else ret tt
         else ret tt
       | None => ret tt
       end);
  _ ← push_soma_point (point s) (diameter s);
  ret parent_count.

Fixpoint cylinder_loop (l : list Sample) (parent_count : Z) : M Z :=
  match l with
  | [] => ret parent_count
  | s :: l' => parent_count ← cylinder_step s parent_count; cylinder_loop l' parent_count
  end.

Definition build_soma_cylinders (soma_samples : list Sample) : M unit :=
  _ ← set_soma_type SOMA_CYLINDERS;
  parent_count ← cylinder_loop soma_samples 0;
  if 1 <? parent_count
  then throw (SomaError (ERROR_MULTIPLE_SOMATA soma_samples))
  else ret tt.

Definition build_soma (soma_samples : list Sample) : M unit :=
  match soma_samples with
  | [] => set_soma_type SOMA_UNDEFINED
  | [sample] =>
    neurite_parent ←
      (if negb (parentId sample =? SWC_ROOT) then
         p ← samples_at (parentId sample);
         ret (negb (type p =? SECTION_SOMA))
       else ret false);
    if neurite_parent : bool
    then throw (SomaError (ERROR_SOMA_WITH_NEURITE_PARENT sample))
    else set_soma (mkSoma SOMA_SINGLE_POINT [point sample] [diameter sample])
  | [center; child1; child2] =>
    if (id center =? parentId child1) && (id center =? parentId child2) then
      _ ← set_soma (mkSoma SOMA_NEUROMORPHO_THREE_POINT_CYLINDERS
                    [point center; point child1; point child2]
                    [diameter center; diameter child1; diameter child2]);
      _checkNeuromorph3PointSoma soma_samples
    else build_soma_cylinders soma_samples
  | _ => build_soma_cylinders soma_samples
  end.

(** *** assembleSections *)

(** The lambda [get_child_count]. *)
Definition get_child_count (child_id : Z) : M Z :=
  children ← gets children_;
  match children !! child_id with
  | None => ret 0
  | Some ids => ret (Z.of_nat (length ids))
  end.

Definition push_back (properties : PointLevel) (sample : Sample) : PointLevel :=
  {| _points := _points properties ++ [point sample];
     _diameters := _diameters properties ++ [diameter sample] |}.

(** [v[v.size() - 1]]. *)
Definition back {A} (l : list A) : M A :=
  match last l with
  | Some x => ret x
  | None => throw UncheckedAccess
  end.

(** The lambda [appendSection]. *)
Definition append_section (section_id parent_id : Z) (starting_section_type : Z)
    (properties : PointLevel) (is_root : bool) : M unit :=
  new_section ←
    (if is_root then
       m ← gets morph_;
       let '(h, m') := appendRootSection properties starting_section_type m in
       _ ← set_morph (fun _ => m');
       ret h
     else
       declared ← gets declared_to_swc;
       match declared !! parent_id with
       | None => throw OutOfRange
       | Some parent =>
         m ← gets morph_;
         let '(h, m') := appendSection parent properties starting_section_type m in
         _ ← set_morph (fun _ => m');
         ret h
       end);
  modify (fun b =>
    {| children_ := children_ b; samples_ := samples_ b; morph_ := morph_ b;
       declared_to_swc := <[section_id := new_section]> (declared_to_swc b) |}).

(** The loop [while (children_count == 1)]: it returns the last [id], the
    points gathered and the last [children_count]. *)
Fixpoint collapse (steps : nat) (id : Z) (properties : PointLevel) (children_count : Z)
  : M (Z * PointLevel * Z) :=
  match steps with
  | O => out_of_fuel
  | S steps =>
    if children_count =? 1 then
      sample ← samples_at id;
      ids ← children_at id;
      first ← front ids;
      next ← samples_at first;
      if negb (type sample =? type next) then ret (id, properties, children_count)
      else
        children_count ← get_child_count first;
        collapse steps first (push_back properties sample) children_count
    else ret (id, properties, children_count)
  end.

(** [steps] bounds the iterations of each [while] loop and [fuel] the depth of
    the recursion. *)
Fixpoint assembleSections (steps fuel : nat) (id parent_id : Z)
    (start_point : Point) (start_diameter : floatType) (is_root : bool) : M unit :=
  match fuel with
  | O => out_of_fuel
  | S fuel =>
    sample ← samples_at id;
    let properties :=
      if negb is_root && point_ne (point sample) start_point
      then mkPointLevel [start_point] [start_diameter]
      else mkPointLevel [] [] in
    children_count ← get_child_count id;
    '(id, properties, children_count) ← collapse steps id properties children_count;
    sample ← samples_at id;
    let properties := push_back properties sample in
    _ ← append_section id parent_id (type sample) properties is_root;
    if children_count =? 0 then ret tt
    else
      new_start_point ← back (_points properties);
      new_start_diameter ← back (_diameters properties);
      ids ← children_at id;
      if children_count =? 1 then
        first ← front ids;
        assembleSections steps fuel first id new_start_point new_start_diameter false
      else
        for_each (fun child_id =>
                    assembleSections steps fuel child_id id
                      new_start_point new_start_diameter false) ids
  end.

(** *** buildSWC *)

(** [samples_.insert({sample.id, sample}).second]: an id already present is
    left as it is. *)
Definition insert_sample (sample : Sample) : M bool :=
  samples ← gets samples_;
  match samples !! id sample with
  | Some _ => ret false
  | None =>
    _ ← modify (fun b =>
      {| children_ := children_ b; samples_ := <[id sample := sample]> (samples_ b);
         morph_ := morph_ b; declared_to_swc := declared_to_swc b |});
    ret true
  end.

(** [children_[parent].push_back(child)]. *)
Definition push_child (parent child : Z) : M unit :=
  modify (fun b =>
    {| children_ := <[parent := default [] (children_ b !! parent) ++ [child]]> (children_ b);
       samples_ := samples_ b; morph_ := morph_ b;
       declared_to_swc := declared_to_swc b |}).

(** The body of the first loop of [buildSWC]; [soma_samples] and
    [root_samples] are passed along. *)
Definition index_sample (samples : list Sample) (sample : Sample)
    (acc : list Sample * list Sample) : M (list Sample * list Sample) :=
  let '(soma_samples, root_samples) := acc in
  _ ← (if flt (diameter sample) epsilon
       then printError (ZERO_DIAMETER sample) else ret tt);
  if parentId sample =? id sample
  then throw (RawDataError (ERROR_SELF_PARENT sample))
  else if (SECTION_OUT_OF_RANGE_START <=? type sample) || (type sample <=? 0)
  then throw (RawDataError
                (ERROR_UNSUPPORTED_SECTION_TYPE (lineNumber sample) (type sample)))
  else
    _ ← (if (parentId sample =? SWC_ROOT) && negb (type sample =? SECTION_SOMA)
         then printError (DISCONNECTED_NEURITE sample) else ret tt);
    let soma_samples :=
      if type sample =? SECTION_SOMA then soma_samples ++ [sample] else soma_samples in
    let root_samples :=
      if (parentId sample =? SWC_ROOT) || (type sample =? SECTION_SOMA)
      then root_samples ++ [sample] else root_samples in
    inserted ← insert_sample sample;
    if negb inserted
    then throw (RawDataError
                  (ERROR_REPEATED_ID (samples !! Z.to_nat (id sample)) sample))
    else
      _ ← push_child (parentId sample) (id sample);
      ret (soma_samples, root_samples).

Fixpoint index_samples (samples : list Sample) (l : list Sample)
    (acc : list Sample * list Sample) : M (list Sample * list Sample) :=
  match l with
  | [] => ret acc
  | sample :: l' => acc ← index_sample samples sample acc; index_samples samples l' acc
  end.

(** The body of the second loop of [buildSWC]. *)
Definition check_parent (sample : Sample) : M unit :=
  samples ← gets samples_;
  if negb (parentId sample =? SWC_ROOT) && negb (bool_decide (is_Some (samples !! parentId sample)))
  then throw (MissingParentError (ERROR_MISSING_PARENT sample))
  else ret tt.

(** The loop over [children_.at(root_sample.id)], with its [continue] and
    [break]. *)
Fixpoint assemble_root (steps fuel : nat) (root_sample : Sample) (ids : list Z) : M unit :=
  match ids with
  | [] => ret tt
  | child_id :: ids' =>
    child ← samples_at child_id;
    if type child =? SECTION_SOMA then assemble_root steps fuel root_sample ids'
    else if type root_sample =? SECTION_SOMA then
      m ← gets morph_;
      start_point ← front (soma_points (soma m));
      start_diameter ← front (soma_diameters (soma m));
      _ ← assembleSections steps fuel child_id (id root_sample)
            start_point start_diameter true;
      assemble_root steps fuel root_sample ids'
    else
      assembleSections steps fuel (id root_sample) SWC_ROOT
        (point root_sample) (diameter root_sample) true
  end.

(** The body of the loop over [root_samples]. *)
Definition assemble_from (steps fuel : nat) (root_sample : Sample) : M unit :=
  children ← gets children_;
  match children !! id root_sample with
  | None => ret tt
  | Some ids =>
    m ← gets morph_;
    _ ← (if SomaType_eqb (soma_type (soma m)) SOMA_NEUROMORPHO_THREE_POINT_CYLINDERS
            && (type root_sample =? SECTION_SOMA) && negb (id root_sample =? 1)
         then printError (WRONG_ROOT_POINT root_sample) else ret tt);
    assemble_root steps fuel root_sample ids
  end.

Definition buildSWC_fuel (steps fuel : nat) (samples : list Sample) : M unit :=
  '(soma_samples, root_samples) ← index_samples samples samples ([], []);
  _ ← for_each check_parent samples;
  _ ← build_soma soma_samples;
  for_each (assemble_from steps fuel) root_samples.

(** A chain of samples and a nesting of sections are at most as long as the
    sample list, unless the children relation has a cycle, where the source
    does not return either. *)
Definition buildSWC (samples : list Sample) : M unit :=
  buildSWC_fuel (S (length samples)) (S (length samples)) samples.

(** ** The entry point

    [load] is [buildProperties] up to the call of the builder's
    post-processing and the two constant fields set afterwards; it returns the
    builder reached, the warnings and how the call ended. *)
Definition load (contents : list ascii) : Run unit :=
  match readSamples contents with
  | Ok samples => buildSWC samples new_builder
  | Throw e => mkRun new_builder [] (Throw e)
  | OutOfFuel => mkRun new_builder [] OutOfFuel
  end.

End Reader.

(** ** Vocabulary of the statements *)

Section Vocabulary.
Context `{Float : FloatOps} `{Enum : SectionTypes}.

(** Modelled from the spec: the axon kind of [morphio::SectionType] (section
    3.1), declared outside the sources; [2] is its code in the SWC format. *)
Definition SECTION_AXON : Z := 2.

(** The tests of the first loop of [buildSWC] on one sample. *)
Definition is_soma (s : Sample) : bool := type s =? SECTION_SOMA.
Definition is_root (s : Sample) : bool :=
  (parentId s =? SWC_ROOT) || (type s =? SECTION_SOMA).
Definition well_formed (s : Sample) : Prop :=
  parentId s <> id s /\ 0 < type s < SECTION_OUT_OF_RANGE_START.

(** The warnings about one sample, and the builder after the sample has been
    indexed. *)
Definition index_warnings (s : Sample) : list Warning :=
  (if flt (diameter s) epsilon then [ZERO_DIAMETER s] else []) ++
  (if (parentId s =? SWC_ROOT) && negb (type s =? SECTION_SOMA)
   then [DISCONNECTED_NEURITE s] else []).

Definition indexed (b : SWCBuilder) (s : Sample) : SWCBuilder :=
  {| children_ :=
       <[parentId s := default [] (children_ b !! parentId s) ++ [id s]]> (children_ b);
     samples_ := <[id s := s]> (samples_ b);
     morph_ := morph_ b;
     declared_to_swc := declared_to_swc b |}.

(** The samples of [l] whose parent is [p], in source order. *)
Definition siblings (p : Z) (l : list Sample) : list Sample :=
  List.filter (fun s => parentId s =? p) l.

(** The test of the second loop of [buildSWC]. *)
Definition parent_resolves (samples : gmap Z Sample) (s : Sample) : Prop :=
  parentId s = SWC_ROOT \/ is_Some (samples !! parentId s).

(** A byte that separates fields: a blank or a newline. *)
Definition gap_char (c : ascii) : bool := is_blank c || Ascii.eqb c newline.
Definition has_newline (gap : list ascii) : bool := existsb (Ascii.eqb newline) gap.
Definition count_newlines (gap : list ascii) : Z :=
  Z.of_nat (length (List.filter (Ascii.eqb newline) gap)).

(** The number of bytes from the cursor to the end of the text. *)
Definition bytes_left (contents : list ascii) (t : SWCTokenizer) : Z :=
  if done contents t then 0 else size contents - pos_ t.

(** The byte after a gap is the start of something else than a blank, a
    newline or a comment. *)
Definition token_start (c : ascii) : Prop :=
  is_blank c = false /\ c <> newline /\ c <> "#"%char.



(** The soma shape as section 3.3 words it. *)
Definition soma_variant (soma_samples : list Sample) : SomaType :=
  match soma_samples with
  | [] => SOMA_UNDEFINED
  | [_] => SOMA_SINGLE_POINT
  | [first; second; third] =>
    if (parentId second =? id first) && (parentId third =? id first)
    then SOMA_NEUROMORPHO_THREE_POINT_CYLINDERS
    else SOMA_CYLINDERS
  | _ => SOMA_CYLINDERS
  end.

(** The canonical three-point arrangement of section 4.4: the children are
    exactly at [(x, y - r, z, d)] and [(x, y + r, z, d)]. *)
Definition canonical_arrangement (center child1 child2 : Sample) : bool :=
  let '(x, y, z) := point center in
  let d := diameter center in
  let r := fdiv d (float_of_int 2) in
  let '(x1, y1, z1) := point child1 in
  let '(x2, y2, z2) := point child2 in
  (feq x1 x && feq y1 (fsub y r) && feq z1 z && feq (diameter child1) d) &&
  (feq x2 x && feq y2 (fadd y r) && feq z2 z && feq (diameter child2) d).

(** [a] differs from [b] by less than [epsilon]. *)
Definition within_epsilon (a b : floatType) : bool := flt (fabs (fsub a b)) epsilon.

(** Each child's x, z and diameter are within [epsilon] of the center's. *)
Definition close_to_center (center child1 child2 : Sample) : bool :=
  let '(x, y, z) := point center in
  let '(x1, y1, z1) := point child1 in
  let '(x2, y2, z2) := point child2 in
  (within_epsilon x1 x && within_epsilon z1 z &&
   within_epsilon (diameter child1) (diameter center)) &&
  (within_epsilon x2 x && within_epsilon z2 z &&
   within_epsilon (diameter child2) (diameter center)).

(** Two points that the test [sample->point != start_point] of
    [assembleSections] does not tell apart, or that are the same value. *)
Definition same_point (p q : Point) : Prop := p = q \/ point_ne p q = false.

(** Fork duplication: every section appended to a parent section starts at
    the last point of that parent. *)
Definition fork_duplication (secs : list MutSection) : Prop :=
  forall k sec h,
    secs !! k = Some sec -> section_parent sec = Some h ->
    exists parent first_point last_point,
      secs !! h = Some parent /\
      head (_points (section_properties sec)) = Some first_point /\
      last (_points (section_properties parent)) = Some last_point /\
      same_point first_point last_point.

(** The section recorded for a declared id ends at the point of the sample
    with that id. *)
Definition declared_sections_end_at_samples (b : SWCBuilder) : Prop :=
  forall d h,
    declared_to_swc b !! d = Some h ->
    exists sec s,
      sections (morph_ b) !! h = Some sec /\ samples_ b !! d = Some s /\
      last (_points (section_properties sec)) = Some (point s).

(** What the assembly keeps true of the builder: the two indices are those
    left by the first loop, and the two properties above hold. *)
Definition assembly_invariant (samples : gmap Z Sample) (children : gmap Z (list Z))
    (b : SWCBuilder) : Prop :=
  samples_ b = samples /\ children_ b = children /\
  declared_sections_end_at_samples b /\
  fork_duplication (sections (morph_ b)).

(** A call keeps [I] true of the builder, whether it returns or not, and a
    value it returns satisfies [Q]. *)
Definition hoare {A} (I : SWCBuilder -> Prop) (m : M A) (Q : A -> Prop) : Prop :=
  forall b, I b -> I (final (m b)) /\ forall a, result (m b) = Ok a -> Q a.

(** A record without its line number, a list of records and a builder
    without their line numbers. *)
Definition content (s : Sample) : Sample :=
  mkSample (id s) (type s) (point s) (diameter s) (parentId s) 0.
Definition records (l : list Sample) : list Sample := map content l.
Definition without_lines (b : SWCBuilder) : SWCBuilder :=
  {| children_ := children_ b;
     samples_ := content <$> samples_ b;
     morph_ := morph_ b;
     declared_to_swc := declared_to_swc b |}.

(** Two calls end the same way: both return, with related values, both throw,
    or both are cut short. *)
Definition same_outcome {A} (R : A -> A -> Prop) (o o' : outcome A) : Prop :=
  match o, o' with
  | Ok a, Ok a' => R a a'
  | Throw _, Throw _ => True
  | OutOfFuel, OutOfFuel => True
  | _, _ => False
  end.

(** [m'] does on a builder without line numbers what [m] does on the
    builder. *)
Definition sim {A} (R : A -> A -> Prop) (m m' : M A) : Prop :=
  forall b,
    final (m' (without_lines b)) = without_lines (final (m b)) /\
    same_outcome R (result (m b)) (result (m' (without_lines b))).

(** The soma is untouched, as it is when [buildSWC] calls [build_soma]. *)
Definition soma_is_new (b : SWCBuilder) : Prop :=
  soma (morph_ b) = mkSoma SOMA_UNDEFINED [] [].

(** The tokenizer has nothing left to skip: it is past the end of the text,
    or its cursor is on the first byte of a token. *)
Definition at_token (contents : list ascii) (t : SWCTokenizer) : Prop :=
  done contents t = true \/
  exists c, at_ contents (pos_ t) = Some c /\ token_start c.

(** The exception of the first loop of [buildSWC] on a sample it refuses, by
    the order of its tests; [samples] is the vector being read. *)
Definition refusal (samples : list Sample) (s : Sample) : Message :=
  if parentId s =? id s then ERROR_SELF_PARENT s
  else if (SECTION_OUT_OF_RANGE_START <=? type s) || (type s <=? 0)
  then ERROR_UNSUPPORTED_SECTION_TYPE (lineNumber s) (type s)
  else ERROR_REPEATED_ID (samples !! Z.to_nat (id s)) s.

(** The parent field of [s] is [SWC_ROOT] or the id of a sample of [l]. *)
Definition has_parent_in (l : list Sample) (s : Sample) : Prop :=
  parentId s = SWC_ROOT \/ parentId s ∈ map id l.

(** What the first two loops of [buildSWC] ask of the samples. *)
Definition valid_samples (l : list Sample) : Prop :=
  Forall well_formed l /\ NoDup (map id l) /\ Forall (has_parent_in l) l.

(** The warnings of [build_soma] and of the loop over the root samples. *)
Definition late_warning (w : Warning) : Prop :=
  match w with
  | SOMA_NON_CONFORM _ _ _ | WRONG_ROOT_POINT _ => True
  | ZERO_DIAMETER _ | DISCONNECTED_NEURITE _ => False
  end.

(** Every warning of a call satisfies [P]. *)
Definition warns_only {A} (P : Warning -> Prop) (m : M A) : Prop :=
  forall b, Forall P (warned (m b)).

(** A sample held in the sample index. *)
Definition held_in (samples : gmap Z Sample) (s : Sample) : Prop :=
  exists i, samples !! i = Some s.

(** The points and diameters gathered for a section are those of a run of
    samples that satisfy [known], in order. *)
Definition gathered_from (known : Sample -> Prop) (properties : PointLevel) : Prop :=
  exists ss,
    Forall known ss /\
    _points properties = map point ss /\ _diameters properties = map diameter ss.

(** The same for a section as it is appended: the run is not empty and the
    type is that of its last sample. *)
Definition built_from (known : Sample -> Prop) (ty : Z) (properties : PointLevel) : Prop :=
  exists ss s,
    Forall known (ss ++ [s]) /\
    _points properties = map point (ss ++ [s]) /\
    _diameters properties = map diameter (ss ++ [s]) /\
    ty = type s.

(** The parent of a section is a section created before it. *)
Definition parents_first (secs : list MutSection) : Prop :=
  forall k sec h,
    secs !! k = Some sec -> section_parent sec = Some h -> (h < k)%nat.

(** What the assembly keeps true of the shape of the output: the indices and
    the soma are left alone, the handles recorded are those of sections that
    exist, parents come first and every section is built from samples of the
    index. *)
Definition shape_invariant (samples : gmap Z Sample) (children : gmap Z (list Z))
    (soma0 : Soma) (b : SWCBuilder) : Prop :=
  samples_ b = samples /\ children_ b = children /\ soma (morph_ b) = soma0 /\
  (forall d h, declared_to_swc b !! d = Some h ->
               (h < length (sections (morph_ b)))%nat) /\
  parents_first (sections (morph_ b)) /\
  Forall (fun sec => built_from (held_in samples) (section_type sec) (section_properties sec))
    (sections (morph_ b)).

(** The number of children of [i], as the lambda [get_child_count] of
    [assembleSections] computes it. *)
Definition child_count (b : SWCBuilder) (i : Z) : Z :=
  match children_ b !! i with
  | None => 0
  | Some ids => Z.of_nat (length ids)
  end.

(** [ss] followed by [last_sample] is a chain of the index: each sample of
    [ss] has exactly one child, the next sample of the chain, and that child
    has the same type. *)
Fixpoint chain_of (b : SWCBuilder) (ss : list Sample) (last_sample : Sample) : Prop :=
  match ss with
  | [] => True
  | s :: ss' =>
    let next := hd last_sample ss' in
    samples_ b !! id s = Some s /\ children_ b !! id s = Some [id next] /\
    samples_ b !! id next = Some next /\ type s = type next /\
    chain_of b ss' last_sample
  end.

(** The chain stops at [s]: [s] has no child, several children, or one child
    of another type. *)
Definition chain_stops (b : SWCBuilder) (s : Sample) : Prop :=
  samples_ b !! id s = Some s /\
  forall c, children_ b !! id s = Some [c] ->
            exists next, samples_ b !! c = Some next /\ type s <> type next.

(** The tests of the loop over the samples of a [SOMA_CYLINDERS] soma on one
    sample: its parent is absent or is a soma sample of the index, and at
    most one of its children is a soma sample. *)
Definition cylinder_ok (samples : gmap Z Sample) (children : gmap Z (list Z))
    (s : Sample) : Prop :=
  (parentId s = SWC_ROOT \/
   exists p, samples !! parentId s = Some p /\ type p = SECTION_SOMA) /\
  (forall ids, children !! id s = Some ids ->
               (length (soma_children samples ids) <= 1)%nat).

(** The root section made of one sample. *)
Definition root_leaf (s : Sample) : MutSection :=
  mkSection None (type s) (mkPointLevel [point s] [diameter s]).

(** The errors of the tokenizer and of [readSamples]. *)
Definition reading_error (e : Error) : Prop :=
  match e with
  | RawDataError (EARLY_END_OF_FILE _)
  | RawDataError (ERROR_LINE_NON_PARSABLE _)
  | RawDataError (ERROR_NEGATIVE_ID _) => True
  | _ => False
  end.

(** A call of the reader ends: it returns or throws one of these errors. *)
Definition ends_reading {A} (o : outcome A) : Prop :=
  match o with
  | Ok _ => True
  | Throw e => reading_error e
  | OutOfFuel => False
  end.

(** A number that is parsed takes at least one byte: the offset returned
    is past the offset given. *)
Definition parsers_advance `{Num : StringToNumber} : Prop :=
  (forall contents pos v p, toInt contents pos = Some (v, p) -> pos < p) /\
  (forall contents pos v p, toFloat contents pos = Some (v, p) -> pos < p).

End Vocabulary.

(** ** The names of the HDF5 layout: [H5Constants.h] and [H5Constants.cpp] *)

Module H5.

(** The columns of a row of the structure dataset. *)
Definition SECTION_START_OFFSET : Z := 0.
Definition SECTION_TYPE : Z := 1.
Definition SECTION_PARENT_OFFSET : Z := 2.

(** The accessors: each returns a reference to a function-local static
    string, which is never written to. *)
Definition d_structure : string := "structure".
Definition d_points : string := "points".
Definition a_version : string := "version".
Definition g_metadata : string := "metadata".
Definition a_family : string := "cell_family".
Definition d_perimeters : string := "perimeters".
Definition g_mitochondria : string := "organelles/mitochondria".
Definition g_endoplasmic_reticulum : string := "organelles/endoplasmic_reticulum".
Definition d_section_index : string := "section_index".
Definition d_volume : string := "volume".
Definition d_surface_area : string := "surface_area".
Definition d_filament_count : string := "filament_count".
Definition g_v2root : string := "neuron1".

(** The names by kind: datasets, groups and attributes. *)
Definition datasets : list string :=
  [d_structure; d_points; d_perimeters; d_section_index; d_volume; d_surface_area;
   d_filament_count].
Definition groups : list string :=
  [g_metadata; g_mitochondria; g_endoplasmic_reticulum; g_v2root].
Definition attributes : list string := [a_version; a_family].

End H5.

(** ** An instance to run the reader on concrete files

    Exact rational arithmetic stands for [floatType]: on the small decimal
    values of the scenarios below it agrees with binary floating point. *)

Module Rational.

Import QArith_base Qabs.

#[export] Instance Q_float : FloatOps := {|
  floatType := Q;
  feq := Qeq_bool;
  flt := fun a b => negb (Qle_bool b a);
  fadd := Qplus;
  fsub := Qminus;
  fmul := Qmult;
  fdiv := Qdiv;
  fabs := Qabs;
  float_of_int := inject_Z;
  epsilon := Qmake 1 1000000
|}.

#[export] Instance section_types : SectionTypes := {|
  SECTION_OUT_OF_RANGE_START := 20
|}.

Definition digit_value (c : ascii) : option Z :=
  if is_digit c then Some (Z.of_nat (nat_of_ascii c) - 48)%Z else None.

(** The longest run of digits at the head of [l]: its value after [acc], the
    number of digits, and the rest of [l]. *)
Fixpoint digits (l : list ascii) (acc : Z) (n : Z) : Z * Z * list ascii :=
  match l with
  | c :: l' =>
    match digit_value c with
    | Some d => digits l' (10 * acc + d)%Z (n + 1)%Z
    | None => (acc, n, l)
    end
  | [] => (acc, n, l)
  end.

(** An optional sign: the factor, the bytes taken, and the rest. *)
Definition sign (l : list ascii) : Z * Z * list ascii :=
  match l with
  | c :: l' =>
    if Ascii.eqb c "-" then (-1, 1, l')%Z
    else if Ascii.eqb c "+" then (1, 1, l')%Z
    else (1, 0, l)%Z
  | [] => (1, 0, l)%Z
  end.

(** Modelled from the spec: [StringToNumber::toInt] is defined outside the
    sources; section 4.1 has it parse a signed integer literal starting at the
    cursor and advance past it, a parse failure being fatal. *)
Definition parse_int (contents : list ascii) (pos : Z) : option (Z * Z) :=
  let '(sg, n0, l) := sign (drop (Z.to_nat pos) contents) in
  let '(v, n, _) := digits l 0 0 in
  if (n =? 0)%Z then None else Some (sg * v, pos + n0 + n)%Z.

Definition pow10 (e : Z) : Q :=
  if (0 <=? e)%Z then inject_Z (10 ^ e) else Qinv (inject_Z (10 ^ (- e))).

(** Modelled from the spec: [StringToNumber::toFloat] is defined outside the
    sources; sections 4.1 and 6.2 have it parse a signed decimal with an
    optional fractional part and an optional exponent. *)
Definition parse_float (contents : list ascii) (pos : Z) : option (Q * Z) :=
  let '(sg, n0, l) := sign (drop (Z.to_nat pos) contents) in
  let '(ip, n1, l) := digits l 0 0 in
  let '(fp, n2, nd, l) :=
    match l with
    | c :: l' =>
      if Ascii.eqb c "." then
        let '(m, k, l'') := digits l' ip 0 in (m, k, (k + 1)%Z, l'')
      else (ip, 0, 0, l)%Z
    | [] => (ip, 0, 0, l)%Z
    end in
  if (n1 + n2 =? 0)%Z then None
  else
    let mantissa := (inject_Z (sg * fp) * pow10 (- n2))%Q in
    let '(ex, ne) :=
      match l with
      | c :: l' =>
        if Ascii.eqb c "e" || Ascii.eqb c "E" then
          let '(esg, en0, l'') := sign l' in
          let '(ev, en, _) := digits l'' 0 0 in
          if (en =? 0)%Z then (0, 0)%Z else ((esg * ev)%Z, (1 + en0 + en)%Z)
        else (0, 0)%Z
      | [] => (0, 0)%Z
      end in
    Some (Qred (mantissa * pow10 ex), pos + n0 + n1 + nd + ne)%Z.

#[export] Instance string_to_number : StringToNumber := {|
  toInt := parse_int;
  toFloat := parse_float
|}.

(** The text of a file from its lines, each ended by a newline. *)
Definition text (lines : list string) : list ascii :=
  concat (map (fun s => list_ascii_of_string s ++ [newline]) lines).

End Rational.

(** ** Scenarios *)

Module Scenario.
Import Rational.
#[local] Open Scope string_scope.

(** S1: a soma of one sample. *)
Definition single_point : list ascii := text ["1 1 0 0 0 1 -1"].

(** S7: the parent 99 is the id of no record. *)
Definition missing_parent : list ascii := text ["1 1 0 0 0 1 -1"; "2 2 0 0 1 1 99"].

(** S8: a record that names itself as parent. *)
Definition self_parent : list ascii := text ["1 1 0 0 0 1 -1"; "2 2 0 0 1 1 2"].

(** S10: two soma samples without parent. *)
Definition multiple_somata : list ascii := text ["1 1 0 0 0 1 -1"; "2 1 0 0 1 1 -1"].

(** A comment that is not ended by a newline. *)
Definition unterminated_comment : list ascii := list_ascii_of_string "#abc".

(** S4: a soma and a chain of three axon samples. *)
Definition chain : list ascii :=
  text ["1 1 0 0 0 1 -1"; "2 2 0 0 1 1 1"; "3 2 0 0 2 1 2"; "4 2 0 0 3 1 3"].

(** S5: a soma and an axon that forks at sample 3. *)
Definition bifurcation : list ascii :=
  text ["1 1 0 0 0 1 -1"; "2 2 0 0 1 1 1"; "3 2 0 0 2 1 2";
        "4 2 0 1 3 1 3"; "5 2 1 0 3 1 3"].

(** S6: a soma of two samples, the child first, and the same lines with the
    parent first. *)
Definition child_first : list ascii :=
  text ["2 1 0 0 1 1 1"; "1 1 0 0 0 1 -1"].
Definition parent_first : list ascii :=
  text ["1 1 0 0 0 1 -1"; "2 1 0 0 1 1 1"].



(** A record whose id is 2^32 + 1 and whose parent is 2^32 - 3. *)
Definition wrapped_record : list ascii := text ["4294967297 1 0 0 0 1 4294967293"].


(** A root record whose id is the value of [SWC_ROOT]. *)
Definition root_with_sentinel_id : list ascii := text ["4294967293 1 0 0 0 1 -1"].

(** A record whose parent field is the value of [SWC_ROOT]; no record has this
    id. *)
Definition parent_is_sentinel_value : list ascii := text ["1 1 0 0 0 1 4294967293"].

(** S9: two records with id 5. *)
Definition repeated_id : list ascii := text ["5 1 0 0 0 1 -1"; "5 1 0 0 0 1 -1"].

(** S2 and S3: three-point somata. *)
Definition canonical_three_point : list ascii :=
  text ["1 1 0 0 0 1 -1"; "2 1 0 -1 0 1 1"; "3 1 0 1 0 1 1"].
Definition non_conform_three_point : list ascii :=
  text ["1 1 0 0 0 1 -1"; "2 1 0 -1 0 1 1"; "3 1 0 2 0 1 1"].

Definition pt (x y z : Z) : Point := (float_of_int x, float_of_int y, float_of_int z).
Definition soma_sample (i : Z) (p : Point) (parent line : Z) : Sample :=
  mkSample i 1 p (float_of_int 2) parent line.

Definition axon_sample (i : Z) (p : Point) (parent line : Z) : Sample :=
  mkSample i 2 p (float_of_int 2) parent line.

(** The samples of a file of two lines, an axon sample and the soma sample
    that is its parent, with the child first and with the parent first. *)
Definition child_line_first : list Sample :=
  [axon_sample 2 (pt 0 0 1) 1 1; soma_sample 1 (pt 0 0 0) SWC_ROOT 2].
Definition parent_line_first : list Sample :=
  [soma_sample 1 (pt 0 0 0) SWC_ROOT 1; axon_sample 2 (pt 0 0 1) 1 2].

(** A section of the axon kind whose samples all have radius 1. *)
Definition axon_section (parent : option nat) (points : list Point) : MutSection :=
  mkSection parent 2 (mkPointLevel points (map (fun _ => float_of_int 2) points)).

(** The samples of S4 and of S5. *)
Definition chain_samples : list Sample :=
  [soma_sample 1 (pt 0 0 0) SWC_ROOT 1; axon_sample 2 (pt 0 0 1) 1 2;
   axon_sample 3 (pt 0 0 2) 2 3; axon_sample 4 (pt 0 0 3) 3 4].
Definition fork_samples : list Sample :=
  [soma_sample 1 (pt 0 0 0) SWC_ROOT 1; axon_sample 2 (pt 0 0 1) 1 2;
   axon_sample 3 (pt 0 0 2) 2 3; axon_sample 4 (pt 0 1 3) 3 4;
   axon_sample 5 (pt 1 0 3) 3 5].

(** A soma sample, two axon samples in a row and a sample of type 3 at the
    end of the row. *)
Definition typed_chain_samples : list Sample :=
  [soma_sample 1 (pt 0 0 0) SWC_ROOT 1; axon_sample 2 (pt 0 0 1) 1 2;
   axon_sample 3 (pt 0 0 2) 2 3; mkSample 4 3 (pt 0 0 3) (float_of_int 2) 3 4].

(** A soma sample and two axon samples attached to it. *)
Definition star_samples : list Sample :=
  [soma_sample 1 (pt 0 0 0) SWC_ROOT 1; axon_sample 2 (pt 0 0 1) 1 2;
   axon_sample 3 (pt 0 1 0) 1 3].

(** Two samples without parent, a soma sample and an axon sample. *)
Definition unlinked_samples : list Sample :=
  [soma_sample 1 (pt 0 0 0) SWC_ROOT 1; axon_sample 2 (pt 0 0 1) SWC_ROOT 2].

(** A comment line in front of a record. *)
Definition commented_file : list ascii := text ["# soma"; "1 1 0 0 0 1 -1"].

(** Two blank lines. *)
Definition blank_file : list ascii := text ["  "; ""].

(** [load] on the rational instance. *)
Definition load_file (contents : list ascii) : Run unit := load contents.

End Scenario.

(** * Properties *)

(** ** Laws of the builder monad *)

Section MonadLaws.
Context `{Float : FloatOps}.

Lemma run_eta {A} (r : Run A) : mkRun (final r) (warned r) (result r) = r.
Proof. destruct r; reflexivity. Qed.

Lemma bind_ret {A B} (a : A) (f : A -> M B) b : (ret a ≫= f) b = f a b.
Proof. unfold mbind, M_mbind, bind, ret; cbn. apply run_eta. Qed.

Lemma bind_gets {A B} (g : SWCBuilder -> A) (f : A -> M B) b :
  (gets g ≫= f) b = f (g b) b.
Proof. unfold mbind, M_mbind, bind, gets; cbn. apply run_eta. Qed.

Lemma bind_modify {B} (g : SWCBuilder -> SWCBuilder) (f : unit -> M B) b :
  (modify g ≫= f) b = f tt (g b).
Proof. unfold mbind, M_mbind, bind, modify; cbn. apply run_eta. Qed.

Lemma bind_throw {A B} (e : Error) (f : A -> M B) b :
  (throw e ≫= f) b = mkRun b [] (Throw e).
Proof. reflexivity. Qed.

Lemma bind_out_of_fuel {A B} (f : A -> M B) b :
  (out_of_fuel ≫= f) b = mkRun b [] OutOfFuel.
Proof. reflexivity. Qed.

Lemma bind_printError {B} (w : Warning) (f : unit -> M B) b :
  (printError w ≫= f) b = mkRun (final (f tt b)) (w :: warned (f tt b)) (result (f tt b)).
Proof. reflexivity. Qed.

Lemma bind_assoc {A B C} (m : M A) (f : A -> M B) (g : B -> M C) b :
  ((m ≫= f) ≫= g) b = (m ≫= (fun a => f a ≫= g)) b.
Proof.
  unfold mbind, M_mbind, bind. destruct (m b) as [b1 w1 [a| |]]; cbn; try reflexivity.
  destruct (f a b1) as [b2 w2 [a2| |]]; cbn; try reflexivity.
  now rewrite app_assoc.
Qed.

(** A call that returns, followed by the rest. *)
Lemma bind_ok {A B} (m : M A) (f : A -> M B) b b1 w1 a :
  m b = mkRun b1 w1 (Ok a) ->
  (m ≫= f) b = mkRun (final (f a b1)) (w1 ++ warned (f a b1)) (result (f a b1)).
Proof. intros E. unfold mbind, M_mbind, bind. rewrite E. reflexivity. Qed.

(** A call that does not return ends the sequence. *)
Lemma bind_stop {A B} (m : M A) (f : A -> M B) b :
  (forall a, result (m b) <> Ok a) ->
  final ((m ≫= f) b) = final (m b) /\ warned ((m ≫= f) b) = warned (m b) /\
  (forall x, result ((m ≫= f) b) <> Ok x).
Proof.
  intros E. unfold mbind, M_mbind, bind.
  destruct (m b) as [b1 w1 [a| |]]; cbn in *; [destruct (E a eq_refl)| |]; repeat split; congruence.
Qed.

(** An exception in the first call is the exception of the sequence. *)
Lemma bind_throws {A B} (m : M A) (f : A -> M B) b e :
  result (m b) = Throw e -> result ((m ≫= f) b) = Throw e.
Proof. intros E. unfold mbind, M_mbind, bind. rewrite E. reflexivity. Qed.

Lemma for_each_app {A} (body : A -> M unit) (l1 l2 : list A) b :
  for_each body (l1 ++ l2) b = (for_each body l1 ≫= fun _ => for_each body l2) b.
Proof.
  revert b. induction l1 as [|x l1 IH]; intros b; cbn [app for_each].
  - rewrite bind_ret. reflexivity.
  - rewrite bind_assoc. unfold mbind, M_mbind, bind.
    destruct (body x b) as [b1 w1 [[]| |]]; cbn; try reflexivity.
    rewrite IH. reflexivity.
Qed.

End MonadLaws.

Ltac mstep :=
  rewrite ?bind_assoc;
  first [ rewrite bind_ret | rewrite bind_gets | rewrite bind_modify
        | rewrite bind_throw | rewrite bind_out_of_fuel | rewrite bind_printError ].

(** ** The tokenizer *)

Section TokenizerFacts.
Context `{Num : StringToNumber}.

(** C9 (the code departs from the claim): on a buffer that holds no newline
    at or after the cursor, [skip_to] leaves the cursor at [npos], the largest
    [size_t], and not at the end of the buffer: the assignment of
    [contents_.size()] is overwritten by the unconditional [pos_ = pos]. *)
Theorem skip_to_absent_byte_leaves_npos :
  let t := skip_to Scenario.unterminated_comment newline (mkTok 0 1) in
  pos_ t = npos /\ size Scenario.unterminated_comment = 4 /\
  pos_ t <> size Scenario.unterminated_comment.
Proof. vm_compute. repeat split; congruence. Qed.

Lemma find_if_skip p (l1 l2 : list ascii) : forall i,
  Forall (fun c => p c = false) l1 ->
  find_if p (l1 ++ l2) i = find_if p l2 (i + Z.of_nat (length l1)).
Proof.
  induction l1 as [|c l1 IH]; intros i Hall; cbn [app find_if length].
  - f_equal. lia.
  - inversion Hall as [|? ? Hc Hl1]; subst. rewrite Hc, IH by assumption. f_equal. lia.
Qed.

Lemma is_blank_not_newline c : is_blank c = true -> Ascii.eqb c newline = false.
Proof.
  unfold is_blank. intros Hb.
  apply orb_prop in Hb as [Hb|Hb]; [apply orb_prop in Hb as [Hb|Hb]|];
    apply Ascii.eqb_eq in Hb; subst; reflexivity.
Qed.

Lemma find_if_absent p (l : list ascii) : forall i,
  Forall (fun c => p c = false) l -> find_if p l i = npos.
Proof.
  induction l as [|c l IH]; intros i Hall; cbn [find_if]; [reflexivity|].
  apply Forall_cons in Hall as [-> Hall]. apply IH, Hall.
Qed.

(** [skip_to] moves the cursor to the next occurrence of the byte, when there
    is one at or after the cursor. *)
Lemma skip_to_found pre skipped value rest t :
  Forall (fun c => Ascii.eqb value c = false) skipped ->
  pos_ t = Z.of_nat (length pre) ->
  pos_ (skip_to (pre ++ skipped ++ value :: rest) value t) =
    Z.of_nat (length pre) + Z.of_nat (length skipped).
Proof.
  intros Hskipped Hpos. unfold skip_to, find_first_of, size. cbn [pos_ set_pos].
  rewrite Hpos, !length_app. cbn [length].
  replace (_ <=? Z.of_nat (length pre)) with false by (symmetry; apply Z.leb_gt; lia).
  rewrite Nat2Z.id, drop_app_length, (find_if_skip _ _ _ _ Hskipped). cbn [find_if].
  rewrite Ascii.eqb_refl. reflexivity.
Qed.

(** When there is none, the cursor is left at [npos], whatever the size of
    the buffer. *)
Lemma skip_to_absent pre remaining value t :
  Forall (fun c => Ascii.eqb value c = false) remaining ->
  pos_ t = Z.of_nat (length pre) ->
  pos_ (skip_to (pre ++ remaining) value t) = npos.
Proof.
  intros Hrem Hpos. unfold skip_to, find_first_of. cbn [pos_ set_pos].
  rewrite Hpos. destruct (_ <=? _); [reflexivity|].
  rewrite Nat2Z.id, drop_app_length. apply find_if_absent, Hrem.
Qed.

(** *** The loops of the tokenizer end within their fuel *)

Section Totality.
Variable contents : list ascii.
Hypothesis Hsize : size contents < 2 ^ 64.

Lemma find_if_range p (l : list ascii) : forall i,
  find_if p l i = npos \/ i <= find_if p l i < i + Z.of_nat (length l).
Proof.
  induction l as [|c l IH]; intros i; cbn [find_if length]; [left; reflexivity|].
  destruct (p c); [right; lia|]. destruct (IH (i + 1)) as [E|E]; [left; exact E|right; lia].
Qed.

Lemma length_drop_pos (pos : Z) :
  0 <= pos < size contents ->
  pos + Z.of_nat (length (drop (Z.to_nat pos) contents)) = size contents.
Proof. intros Hpos. unfold size in *. rewrite length_drop. lia. Qed.

Lemma bytes_left_range t :
  0 <= pos_ t -> 0 <= bytes_left contents t <= size contents.
Proof.
  intros Hpos. unfold bytes_left, done, size. destruct (Z.leb_spec (Z.of_nat (length contents)) (pos_ t)); lia.
Qed.

Lemma advance_progress t :
  0 <= pos_ t ->
  0 <= pos_ (advance_to_non_whitespace contents t) /\
  bytes_left contents (advance_to_non_whitespace contents t) <= bytes_left contents t.
Proof.
  intros Hpos. unfold advance_to_non_whitespace, bytes_left, find_first_not_of_blank.
  destruct (done contents t) eqn:Hdone; [rewrite Hdone; lia|].
  unfold done in *. apply Z.leb_gt in Hdone as Hlt. rewrite Hdone.
  pose proof (find_if_range (fun c => negb (is_blank c))
                (drop (Z.to_nat (pos_ t)) contents) (pos_ t)) as [E|E].
  - rewrite E, Z.eqb_refl. cbn [set_pos pos_]. rewrite Z.leb_refl. lia.
  - rewrite length_drop_pos in E by lia. set (r := find_if _ _ _) in *.
    replace (r =? npos) with false by (symmetry; apply Z.eqb_neq; unfold npos; lia).
    cbn [set_pos pos_]. destruct (Z.leb_spec (size contents) r); lia.
Qed.

Lemma drop_at pos c :
  at_ contents pos = Some c ->
  0 <= pos < size contents /\
  drop (Z.to_nat pos) contents = c :: drop (S (Z.to_nat pos)) contents.
Proof.
  unfold at_. destruct (Z.leb_spec 0 pos), (Z.ltb_spec pos (size contents));
    cbn [andb]; try discriminate.
  intros Hlook. split; [lia|]. apply drop_S. exact Hlook.
Qed.

(** After a comment is skipped the cursor is further on, or past the end. *)
Lemma skip_progress t c :
  at_ contents (pos_ t) = Some c -> Ascii.eqb newline c = false ->
  0 <= pos_ (skip_to contents newline t) /\
  bytes_left contents (skip_to contents newline t) < bytes_left contents t.
Proof.
  intros Hat Hc. destruct (drop_at _ _ Hat) as [Hpos Hdrop].
  unfold skip_to, find_first_of, bytes_left, done. cbn [pos_ set_pos].
  replace (size contents <=? pos_ t) with false by (symmetry; apply Z.leb_gt; lia).
  rewrite Hdrop. cbn [find_if]. rewrite Hc.
  pose proof (find_if_range (Ascii.eqb newline) (drop (S (Z.to_nat (pos_ t))) contents)
                (pos_ t + 1)) as [E|E].
  - rewrite E. replace (size contents <=? npos) with true
      by (symmetry; apply Z.leb_le; unfold npos; lia).
    unfold npos. lia.
  - assert (Hlen : pos_ t + 1 + Z.of_nat (length (drop (S (Z.to_nat (pos_ t))) contents))
                   = size contents) by (unfold size in *; rewrite length_drop; lia).
    rewrite Hlen in E. set (r := find_if _ _ _) in *.
    replace (size contents <=? r) with false by (symmetry; apply Z.leb_gt; lia).
    lia.
Qed.

(** The loop of [consume_line_and_trailing_comments] returns; it never goes
    backwards, and it goes forwards when it finds a newline. *)
Lemma consume_loop_total fuel : forall found t,
  0 <= pos_ t -> bytes_left contents t < Z.of_nat fuel ->
  exists found' t',
    consume_loop contents fuel found t = Ok (found', t') /\
    0 <= pos_ t' /\ bytes_left contents t' <= bytes_left contents t /\
    (found' = true -> found = true \/ bytes_left contents t' < bytes_left contents t).
Proof.
  induction fuel as [|fuel IH]; intros found t Hpos Hfuel.
  - pose proof (bytes_left_range t Hpos). lia.
  - cbn [consume_loop].
    destruct (done contents t) eqn:Hdone; cbn [negb andb].
    { exists found, t. repeat split; try lia. intros ->. left. reflexivity. }
    unfold is_at. destruct (at_ contents (pos_ t)) as [c|] eqn:Hat; cbn [orb];
      [|exists found, t; repeat split; try lia; intros ->; left; reflexivity].
    destruct (Ascii.eqb c "#") eqn:Hhash; cbn [orb].
    + apply Ascii.eqb_eq in Hhash. subst c.
      destruct (skip_progress t "#" Hat eq_refl) as [Hp1 Hl1].
      destruct (advance_progress (skip_to contents newline t) Hp1) as [Hp2 Hl2].
      destruct (IH found _ Hp2 ltac:(lia)) as (found' & t' & E & Hp3 & Hl3 & Hf).
      exists found', t'. repeat split; try assumption; lia.
    + destruct (Ascii.eqb c newline) eqn:Hnl.
      * destruct (drop_at _ _ Hat) as [Hrange _].
        set (t1 := {| pos_ := size_t_wrap (pos_ t + 1); line_ := size_t_wrap (line_ t + 1) |}).
        assert (Hp1 : pos_ t1 = pos_ t + 1)
          by (unfold t1, size_t_wrap; cbn [pos_]; apply Z.mod_small; lia).
        assert (Hl1 : bytes_left contents t1 < bytes_left contents t).
        { unfold bytes_left. rewrite Hdone. unfold done. rewrite Hp1.
          destruct (Z.leb_spec (size contents) (pos_ t + 1)); lia. }
        destruct (advance_progress t1 ltac:(lia)) as [Hp2 Hl2].
        destruct (IH true _ Hp2 ltac:(lia)) as (found' & t' & E & Hp3 & Hl3 & Hf).
        exists found', t'. repeat split; try assumption; lia.
      * exists found, t. repeat split; try lia. intros ->. left. reflexivity.
Qed.

(** [consume_line_and_trailing_comments] returns; when it returns [true] the
    cursor is past the end or further on. *)
Lemma consume_line_total t :
  0 <= pos_ t ->
  exists again t',
    consume_line_and_trailing_comments contents t = Ok (again, t') /\
    0 <= pos_ t' /\ bytes_left contents t' <= bytes_left contents t /\
    (again = true -> done contents t' = true \/
                     bytes_left contents t' < bytes_left contents t).
Proof.
  intros Hpos. unfold consume_line_and_trailing_comments.
  destruct (advance_progress t Hpos) as [Hp1 Hl1].
  destruct (consume_loop_total (fuel_ contents) false _ Hp1) as (found & t' & E & Hp2 & Hl2 & Hf).
  { pose proof (bytes_left_range (advance_to_non_whitespace contents t) Hp1).
    unfold fuel_, size in *. lia. }
  rewrite E. cbn [mbind outcome_mbind outcome_bind].
  exists (found || done contents t'), t'. repeat split; try assumption; try lia.
  intros Hagain. destruct (done contents t'); [left; reflexivity|].
  rewrite orb_false_r in Hagain. destruct (Hf Hagain) as [?|?]; [discriminate|right; lia].
Qed.

(** The loop of [advance_to_number] returns. *)
Lemma advance_loop_total fuel : forall t,
  0 <= pos_ t -> bytes_left contents t < Z.of_nat fuel ->
  exists t', advance_loop contents fuel t = Ok t' /\ 0 <= pos_ t'.
Proof.
  induction fuel as [|fuel IH]; intros t Hpos Hfuel.
  - pose proof (bytes_left_range t Hpos). lia.
  - cbn [advance_loop]. destruct (done contents t) eqn:Hdone; [eauto|].
    destruct (consume_line_total t Hpos) as (again & t' & E & Hp & Hl & Hagain).
    rewrite E. cbn [mbind outcome_mbind outcome_bind].
    destruct again; [|eauto].
    apply IH; [exact Hp|].
    assert (Hpositive : 0 < bytes_left contents t).
    { unfold bytes_left. rewrite Hdone. unfold done in Hdone. apply Z.leb_gt in Hdone. lia. }
    destruct (Hagain eq_refl) as [Hd|Hlt]; [|lia].
    unfold bytes_left. rewrite Hd. lia.
Qed.

(** [advance_to_number] returns with the cursor on the start of a number, or
    throws one of the two errors of the tokenizer: it does not run out of
    fuel and does not read outside the text. *)
Lemma advance_to_number_total t :
  0 <= pos_ t ->
  (exists t' c, advance_to_number contents t = Ok t' /\
                at_ contents (pos_ t') = Some c /\ number_start c = true) \/
  (exists line, advance_to_number contents t = Throw (RawDataError (EARLY_END_OF_FILE line))) \/
  (exists line, advance_to_number contents t =
                  Throw (RawDataError (ERROR_LINE_NON_PARSABLE line))).
Proof.
  intros Hpos. unfold advance_to_number.
  destruct (advance_loop_total (fuel_ contents) t Hpos) as (t' & E & Hp).
  { pose proof (bytes_left_range t Hpos). unfold fuel_, size in *. lia. }
  rewrite E. cbn [mbind outcome_mbind outcome_bind].
  destruct (done contents t') eqn:Hdone; [right; left; eauto|].
  unfold done in Hdone. apply Z.leb_gt in Hdone.
  unfold at_. replace (0 <=? pos_ t') with true by (symmetry; apply Z.leb_le; lia).
  replace (pos_ t' <? size contents) with true by (symmetry; apply Z.ltb_lt; lia).
  cbn [andb].
  destruct (contents !! Z.to_nat (pos_ t')) as [c|] eqn:Hlook.
  - destruct (number_start c) eqn:Hc; [left|right; right; eauto].
    exists t', c. unfold at_.
    replace (0 <=? pos_ t') with true by (symmetry; apply Z.leb_le; lia).
    replace (pos_ t' <? size contents) with true by (symmetry; apply Z.ltb_lt; lia).
    cbn [andb]. auto.
  - exfalso. apply lookup_ge_None in Hlook. unfold size in Hdone. lia.
Qed.

End Totality.

Section Gap.
Variables (contents : list ascii).
Hypothesis Hsize : size contents < 2 ^ 64.

(** The tokenizer in front of [x], with [pre] behind it. *)
Lemma at_middle pre x rest :
  contents = pre ++ x :: rest ->
  at_ contents (Z.of_nat (length pre)) = Some x /\
  done contents (mkTok (Z.of_nat (length pre)) 0) = false.
Proof.
  intros ->. unfold at_, done, size in *. cbn [pos_].
  rewrite length_app in *. cbn [length] in *.
  replace (0 <=? Z.of_nat (length pre)) with true by (symmetry; apply Z.leb_le; lia).
  replace (Z.of_nat (length pre) <? Z.of_nat (length pre + S (length rest))) with true
    by (symmetry; apply Z.ltb_lt; lia).
  replace (Z.of_nat (length pre + S (length rest)) <=? Z.of_nat (length pre)) with false
    by (symmetry; apply Z.leb_gt; lia).
  cbn [andb]. rewrite Nat2Z.id. split; [apply list_lookup_middle|]; reflexivity.
Qed.

(** Blanks are skipped up to the next byte that is not a blank. *)
Lemma advance_over_blanks pre blanks x rest t :
  contents = pre ++ blanks ++ x :: rest ->
  Forall (fun c => is_blank c = true) blanks -> is_blank x = false ->
  pos_ t = Z.of_nat (length pre) ->
  advance_to_non_whitespace contents t =
    mkTok (Z.of_nat (length pre) + Z.of_nat (length blanks)) (line_ t).
Proof.
  intros Hc Hblanks Hx Hpos.
  assert (Hlen : size contents =
                 Z.of_nat (length pre) + Z.of_nat (length blanks) + 1 + Z.of_nat (length rest)).
  { unfold size. rewrite Hc, !length_app. cbn [length]. lia. }
  assert (Hfind : find_if (fun c => negb (is_blank c)) (drop (length pre) contents)
                    (Z.of_nat (length pre)) =
                  Z.of_nat (length pre) + Z.of_nat (length blanks)).
  { rewrite Hc, drop_app_length.
    rewrite find_if_skip
      by (eapply Forall_impl; [exact Hblanks|]; cbn; intros c ->; reflexivity).
    cbn [find_if]. rewrite Hx. reflexivity. }
  unfold advance_to_non_whitespace, done, find_first_not_of_blank. rewrite Hpos.
  replace (size contents <=? Z.of_nat (length pre)) with false
    by (symmetry; apply Z.leb_gt; lia).
  rewrite Nat2Z.id, Hfind.
  replace (_ =? npos) with false by (symmetry; apply Z.eqb_neq; unfold npos; lia).
  reflexivity.
Qed.

(** A text that holds a byte that is not a blank starts with a run of blanks
    followed by such a byte. *)
Lemma split_blanks (l : list ascii) x rest :
  is_blank x = false ->
  exists blanks y rest',
    l ++ x :: rest = blanks ++ y :: rest' /\
    Forall (fun c => is_blank c = true) blanks /\ is_blank y = false.
Proof.
  intros Hx. induction l as [|c l (blanks & y & rest' & E & Hb & Hy)].
  - exists [], x, rest. repeat split; [constructor|exact Hx].
  - destruct (is_blank c) eqn:Hc.
    + exists (c :: blanks), y, rest'. cbn. rewrite E. repeat split; [|exact Hy].
      constructor; assumption.
    + exists [], c, (l ++ x :: rest). repeat split; [constructor|exact Hc].
Qed.

(** One blank more or less in front of the cursor does not change where
    [advance_to_non_whitespace] stops. *)
Lemma advance_skip_blank pre g more x rest t :
  contents = pre ++ g :: more ++ x :: rest ->
  is_blank g = true -> is_blank x = false ->
  pos_ t = Z.of_nat (length pre) ->
  advance_to_non_whitespace contents t =
  advance_to_non_whitespace contents (mkTok (Z.of_nat (length (pre ++ [g]))) (line_ t)).
Proof.
  intros Hc Hg Hx Hpos.
  destruct (split_blanks more x rest Hx) as (blanks & y & rest' & E & Hb & Hy).
  rewrite (advance_over_blanks pre (g :: blanks) y rest' t);
    [|rewrite Hc, E; reflexivity|constructor; assumption|exact Hy|exact Hpos].
  rewrite (advance_over_blanks (pre ++ [g]) blanks y rest' (mkTok _ (line_ t)));
    [|rewrite Hc, E, <- app_assoc; reflexivity|exact Hb|exact Hy|reflexivity].
  cbn [line_ length]. rewrite length_app. cbn [length]. f_equal. lia.
Qed.

(** One turn of the loop of [consume_line_and_trailing_comments] with the
    cursor on [y]. *)
Lemma consume_loop_at pre y more t fuel found :
  contents = pre ++ y :: more ->
  pos_ t = Z.of_nat (length pre) ->
  consume_loop contents (S fuel) found t =
    if Ascii.eqb y "#" then
      consume_loop contents fuel found
        (advance_to_non_whitespace contents (skip_to contents newline t))
    else if Ascii.eqb y newline then
      consume_loop contents fuel true
        (advance_to_non_whitespace contents
           {| pos_ := size_t_wrap (pos_ t + 1); line_ := size_t_wrap (line_ t + 1) |})
    else Ok (found, t).
Proof.
  intros Hc Hpos. destruct (at_middle pre y more Hc) as [Hat Hdone].
  cbn [consume_loop]. unfold is_at, done in *. cbn [pos_] in Hdone.
  rewrite Hpos, Hat, Hdone. cbn [negb andb].
  destruct (Ascii.eqb y "#"); [reflexivity|].
  destruct (Ascii.eqb y newline); reflexivity.
Qed.

Section AfterGap.
Variables (x : ascii) (rest : list ascii).
Hypothesis Hx : token_start x.

(** The loop of [consume_line_and_trailing_comments] crosses a whole gap of
    blanks and newlines and stops at the byte that follows. *)
Lemma consume_gap gap : forall pre t found fuel,
  contents = pre ++ gap ++ x :: rest ->
  Forall (fun c => gap_char c = true) gap ->
  pos_ t = Z.of_nat (length pre) ->
  0 <= line_ t -> line_ t + Z.of_nat (length gap) < 2 ^ 64 ->
  (length gap < fuel)%nat ->
  consume_loop contents fuel found (advance_to_non_whitespace contents t) =
    Ok (found || has_newline gap,
        mkTok (Z.of_nat (length (pre ++ gap))) (line_ t + count_newlines gap)).
Proof.
  destruct Hx as (Hblank & Hnl & Hhash).
  induction gap as [|g gap IH]; intros pre t found fuel Hc Hgap Hpos Hline Hbound Hfuel.
  - rewrite (advance_over_blanks pre [] x rest t Hc (Forall_nil_2 _) Hblank Hpos).
    destruct fuel as [|fuel]; [cbn in Hfuel; lia|].
    rewrite (consume_loop_at pre x rest _ fuel found Hc)
      by (cbn; lia).
    replace (Ascii.eqb x "#") with false by (symmetry; apply Ascii.eqb_neq; exact Hhash).
    replace (Ascii.eqb x newline) with false by (symmetry; apply Ascii.eqb_neq; exact Hnl).
    rewrite app_nil_r, orb_false_r. cbn [length line_]. unfold count_newlines. cbn.
    do 2 f_equal. f_equal; lia.
  - apply Forall_cons in Hgap as [Hg Hgap'].
    assert (Hc' : contents = (pre ++ [g]) ++ gap ++ x :: rest)
      by (rewrite Hc, <- app_assoc; reflexivity).
    cbn [length] in Hbound, Hfuel.
    destruct (is_blank g) eqn:Hbg.
    + rewrite (advance_skip_blank pre g gap x rest t Hc Hbg Hblank Hpos).
      rewrite (IH (pre ++ [g]) (mkTok _ (line_ t)) found fuel Hc' Hgap' eq_refl)
        by (cbn [line_]; lia).
      cbn [has_newline existsb line_]. unfold count_newlines. cbn [List.filter].
      rewrite (Ascii.eqb_sym newline g), (is_blank_not_newline g Hbg).
      rewrite <- app_assoc. reflexivity.
    + unfold gap_char in Hg. rewrite Hbg in Hg. cbn [orb] in Hg.
      apply Ascii.eqb_eq in Hg. subst g.
      rewrite (advance_over_blanks pre [] newline (gap ++ x :: rest) t Hc
                 (Forall_nil_2 _) Hbg Hpos).
      destruct fuel as [|fuel]; [lia|].
      rewrite (consume_loop_at pre newline (gap ++ x :: rest) _ fuel found Hc)
        by (cbn; lia).
      cbn [Ascii.eqb newline pos_ line_ length]. cbn.
      unfold size_t_wrap.
      assert (Hpre : Z.of_nat (length pre) + 1 < 2 ^ 64).
      { unfold size in Hsize. rewrite Hc, !length_app in Hsize. cbn [length] in Hsize. lia. }
      rewrite !Z.mod_small by lia.
      replace (Z.of_nat (length pre) + Z.of_nat 0 + 1)
        with (Z.of_nat (length (pre ++ [newline])))
        by (rewrite length_app; cbn [length]; lia).
      rewrite (IH (pre ++ [newline]) (mkTok _ (line_ t + 1)) true fuel Hc' Hgap' eq_refl)
        by (cbn [line_]; lia).
      cbn [has_newline existsb line_ orb]. unfold count_newlines. cbn [List.filter].
      cbn [Ascii.eqb newline]. cbn.
      rewrite orb_true_r, <- app_assoc. do 2 f_equal. f_equal. lia.
Qed.



End AfterGap.

End Gap.


End TokenizerFacts.

(** ** The entry point on concrete files *)

Section Files.
Import Rational Scenario.

(** The scenarios of section 8 of the specification that the code follows. *)

Example scenario_single_point :
  result (load single_point) = Ok tt /\
  morph_ (final (load single_point)) =
    mkMorphology (mkSoma SOMA_SINGLE_POINT [pt 0 0 0] [float_of_int 2]) [].
Proof. split; vm_compute; reflexivity. Qed.

Example scenario_canonical_three_point :
  result (load canonical_three_point) = Ok tt /\
  warned (load canonical_three_point) = [] /\
  soma (morph_ (final (load canonical_three_point))) =
    mkSoma SOMA_NEUROMORPHO_THREE_POINT_CYLINDERS
      [pt 0 0 0; pt 0 (-1) 0; pt 0 1 0] [float_of_int 2; float_of_int 2; float_of_int 2].
Proof. repeat split; vm_compute; reflexivity. Qed.

Example scenario_non_conform_three_point :
  result (load non_conform_three_point) = Ok tt /\
  warned (load non_conform_three_point) =
    [SOMA_NON_CONFORM (soma_sample 1 (pt 0 0 0) SWC_ROOT 1) (soma_sample 2 (pt 0 (-1) 0) 1 2)
       (soma_sample 3 (pt 0 2 0) 1 3)].
Proof. split; vm_compute; reflexivity. Qed.

Example scenario_missing_parent :
  result (load missing_parent) =
    Throw (MissingParentError (ERROR_MISSING_PARENT (axon_sample 2 (pt 0 0 1) 99 2))).
Proof. vm_compute. reflexivity. Qed.

Example scenario_self_parent :
  result (load self_parent) =
    Throw (RawDataError (ERROR_SELF_PARENT (axon_sample 2 (pt 0 0 1) 2 2))).
Proof. vm_compute. reflexivity. Qed.

Example scenario_multiple_somata :
  result (load multiple_somata) =
    Throw (SomaError (ERROR_MULTIPLE_SOMATA
             [soma_sample 1 (pt 0 0 0) SWC_ROOT 1; soma_sample 2 (pt 0 0 1) SWC_ROOT 2])).
Proof. vm_compute. reflexivity. Qed.

(** C10 (the code departs from the claim): on two records with id 5 the
    duplicate-id branch reads [samples[5]] in a vector of two samples, outside
    its bounds. *)
Theorem repeated_id_reads_outside_samples :
  readSamples repeated_id =
    Ok [soma_sample 5 (pt 0 0 0) SWC_ROOT 1; soma_sample 5 (pt 0 0 0) SWC_ROOT 2] /\
  result (load repeated_id) =
    Throw (RawDataError (ERROR_REPEATED_ID None (soma_sample 5 (pt 0 0 0) SWC_ROOT 2))).
Proof. split; vm_compute; reflexivity. Qed.

(** C6 (the code departs from the claim): a record with parent field [-1] and
    id field [4294967293] is reported as its own parent, because the
    no-parent marker [SWC_ROOT] is that very id. *)
Theorem root_with_sentinel_id_is_self_parent :
  result (load root_with_sentinel_id) =
    Throw (RawDataError
             (ERROR_SELF_PARENT (soma_sample 4294967293 (pt 0 0 0) SWC_ROOT 1))).
Proof. vm_compute. reflexivity. Qed.

(** C7 (the code departs from the claim): a record whose parent field is
    [4294967293], the id of no record, is taken for a root and the file
    loads. *)
Theorem dangling_sentinel_parent_is_accepted :
  result (load parent_is_sentinel_value) = Ok tt /\
  soma (morph_ (final (load parent_is_sentinel_value))) =
    mkSoma SOMA_SINGLE_POINT [pt 0 0 0] [float_of_int 2].
Proof. split; vm_compute; reflexivity. Qed.

End Files.

(** ** The first loop of [buildSWC] *)

Section Indexing.
Context `{Float : FloatOps} `{Enum : SectionTypes}.

(** A well-formed sample with a fresh id is indexed, with its warnings. *)
Lemma index_sample_ok samples s sa ra b :
  well_formed s -> samples_ b !! id s = None ->
  index_sample samples s (sa, ra) b =
    mkRun (indexed b s) (index_warnings s)
      (Ok (sa ++ (if is_soma s then [s] else []), ra ++ (if is_root s then [s] else []))).
Proof.
  intros [Hp [Ht1 Ht2]] Hnone.
  unfold index_sample, index_warnings, is_soma, is_root.
  destruct (Z.eqb_spec (parentId s) (id s)) as [|_]; [contradiction|].
  destruct (Z.leb_spec SECTION_OUT_OF_RANGE_START (type s)); [lia|].
  destruct (Z.leb_spec (type s) 0); [lia|].
  unfold insert_sample, push_child.
  destruct (flt (diameter s) epsilon); cbn [negb andb orb app];
  destruct (parentId s =? SWC_ROOT); destruct (type s =? SECTION_SOMA);
  cbn [negb andb orb app];
  repeat mstep; rewrite ?Hnone; repeat mstep; cbn [negb]; repeat mstep;
  rewrite ?app_nil_r; reflexivity.
Qed.

(** Any other sample stops the loop with an exception. *)
Lemma index_sample_cases samples s acc b :
  (well_formed s /\ samples_ b !! id s = None) \/
  (exists e, result (index_sample samples s acc b) = Throw e).
Proof.
  destruct acc as [sa ra].
  unfold index_sample, insert_sample, push_child.
  destruct (flt (diameter s) epsilon);
  (destruct (Z.eqb_spec (parentId s) (id s)); [right; repeat mstep; eexists; reflexivity|]);
  (destruct (Z.leb_spec SECTION_OUT_OF_RANGE_START (type s));
     [right; repeat mstep; eexists; reflexivity|]);
  (destruct (Z.leb_spec (type s) 0); [right; repeat mstep; eexists; reflexivity|]);
  cbn [orb];
  (destruct (samples_ b !! id s) eqn:E;
     [|left; unfold well_formed; repeat split; (assumption || lia)]);
  right;
  destruct ((parentId s =? SWC_ROOT) && negb (type s =? SECTION_SOMA));
  repeat mstep; rewrite ?E; repeat mstep; cbn [negb]; repeat mstep; eexists; reflexivity.
Qed.

(** The whole loop on well-formed samples with distinct fresh ids. *)
Lemma index_samples_ok samples l : forall sa ra b,
  Forall well_formed l -> NoDup (map id l) ->
  (forall s, s ∈ l -> samples_ b !! id s = None) ->
  index_samples samples l (sa, ra) b =
    mkRun (foldl indexed b l) (flat_map index_warnings l)
      (Ok (sa ++ List.filter is_soma l, ra ++ List.filter is_root l)).
Proof.
  induction l as [|s l IH]; intros sa ra b Hwf Hnd Hfresh.
  - cbn. rewrite !app_nil_r. reflexivity.
  - inversion Hwf as [|? ? Hs Hl]; subst.
    cbn [map] in Hnd. apply NoDup_cons in Hnd as [Hnotin Hnd].
    cbn [index_samples].
    rewrite (bind_ok _ _ _ _ _ _
               (index_sample_ok samples s sa ra b Hs (Hfresh s ltac:(left)))).
    rewrite IH; [|assumption|assumption|].
    + cbn [final warned result foldl flat_map List.filter].
      f_equal. f_equal.
      destruct (is_soma s), (is_root s); rewrite <- ?app_assoc, ?app_nil_r; reflexivity.
    + intros s' Hin. cbn [indexed samples_].
      rewrite lookup_insert_ne; [apply Hfresh; now right|].
      intros Heq. apply Hnotin. rewrite Heq. apply list_elem_of_fmap. eauto.
Qed.

(** Conversely, the loop returns only on such samples. *)
Lemma index_samples_inv samples l : forall acc b x,
  result (index_samples samples l acc b) = Ok x ->
  Forall well_formed l /\ NoDup (map id l) /\
  (forall s, s ∈ l -> samples_ b !! id s = None).
Proof.
  induction l as [|s l IH]; intros [sa ra] b x Hres.
  - repeat split; [constructor|constructor|]. intros s Hin. inversion Hin.
  - cbn [index_samples] in Hres.
    destruct (index_sample_cases samples s (sa, ra) b) as [[Hs Hnone]|[e He]].
    + rewrite (bind_ok _ _ _ _ _ _ (index_sample_ok samples s sa ra b Hs Hnone)) in Hres.
      cbn [result] in Hres. apply IH in Hres as (Hwf & Hnd & Hfresh).
      assert (Hnotin : id s ∉ map id l).
      { intros Hin. apply list_elem_of_fmap in Hin as (s' & Heq & Hin').
        specialize (Hfresh s' Hin'). cbn [indexed samples_] in Hfresh.
        rewrite <- Heq, lookup_insert_eq in Hfresh. discriminate. }
      repeat split.
      * constructor; assumption.
      * cbn [map]. apply NoDup_cons. split; assumption.
      * intros s' Hin. apply elem_of_cons in Hin as [->|Hin]; [assumption|].
        specialize (Hfresh s' Hin). cbn [indexed samples_] in Hfresh.
        rewrite lookup_insert_ne in Hfresh; [assumption|].
        intros Heq. apply Hnotin. rewrite Heq. apply list_elem_of_fmap. eauto.
    + exfalso. unfold mbind, M_mbind, bind in Hres. rewrite He in Hres.
      cbn in Hres. discriminate.
Qed.

End Indexing.

(** ** Chain collapse (scenario S4) *)

Section ChainCollapse.
Import Rational Scenario.

(** C1, as stated, fails on the code: the only section of the chain file has
    three points, not four; no copy of the soma point is put in front. *)
Lemma chain_section_lacks_soma_point :
  result (load chain) = Ok tt /\
  ~ (exists sec,
       sections (morph_ (final (load chain))) = [sec] /\
       _points (section_properties sec) = [pt 0 0 0; pt 0 0 1; pt 0 0 2; pt 0 0 3]).
Proof.
  split; [vm_compute; reflexivity|].
  intros (sec & Hsec & Hpts).
  assert (E : sections (morph_ (final (load chain))) =
              [mkSection None 2 (mkPointLevel [pt 0 0 1; pt 0 0 2; pt 0 0 3]
                                              [fmul (float_of_int 2) (float_of_int 1);
                                               fmul (float_of_int 2) (float_of_int 1);
                                               fmul (float_of_int 2) (float_of_int 1)])])
    by (vm_compute; reflexivity).
  rewrite E in Hsec. injection Hsec as <-.
  apply (f_equal length) in Hpts. cbn in Hpts. lia.
Qed.

End ChainCollapse.

(** C1, amended: a soma sample followed by a chain of three axon samples
    yields exactly one section, a root section of the axon kind, holding the
    points and diameters of the three axon samples in order.  The section is
    created with [is_root] set, so the soma point is not put in front. *)
Theorem chain_collapse_root_section `{Float : FloatOps} `{Enum : SectionTypes}
    (p1 p2 p3 p4 : Point) (d1 d2 d3 d4 : floatType) (n1 n2 n3 n4 : Z) :
  SECTION_AXON < SECTION_OUT_OF_RANGE_START ->
  let samples := [mkSample 1 SECTION_SOMA p1 d1 SWC_ROOT n1;
                  mkSample 2 SECTION_AXON p2 d2 1 n2;
                  mkSample 3 SECTION_AXON p3 d3 2 n3;
                  mkSample 4 SECTION_AXON p4 d4 3 n4] in
  result (buildSWC samples new_builder) = Ok tt /\
  sections (morph_ (final (buildSWC samples new_builder))) =
    [mkSection None SECTION_AXON (mkPointLevel [p2; p3; p4] [d2; d3; d4])].
Proof.
  intros Hlt samples.
  assert (Hwf : Forall well_formed samples).
  { unfold SECTION_AXON in Hlt.
    repeat constructor; cbn; unfold SECTION_SOMA, SECTION_AXON, SWC_ROOT; lia. }
  assert (Hnd : NoDup (map id samples)).
  { cbn. repeat (apply NoDup_cons; split; [rewrite ?elem_of_cons, elem_of_nil; lia|]).
    apply NoDup_nil_2. }
  assert (Hfresh : forall s, s ∈ samples -> samples_ new_builder !! id s = None).
  { intros s _. apply lookup_empty. }
  unfold buildSWC, buildSWC_fuel.
  rewrite (bind_ok _ _ _ _ _ _
             (index_samples_ok samples samples [] [] new_builder Hwf Hnd Hfresh)).
  cbn [result final]. split; vm_compute; reflexivity.
Qed.

Section ChainCollapseWitness.
Import Rational Scenario.

(** The amended C1 at a concrete file. *)
Lemma chain_collapse_root_section_witness :
  SECTION_AXON < SECTION_OUT_OF_RANGE_START /\
  sections (morph_ (final (buildSWC
    [soma_sample 1 (pt 0 0 0) SWC_ROOT 1;
     mkSample 2 SECTION_AXON (pt 0 0 1) (float_of_int 2) 1 2;
     mkSample 3 SECTION_AXON (pt 0 0 2) (float_of_int 2) 2 3;
     mkSample 4 SECTION_AXON (pt 0 0 3) (float_of_int 2) 3 4] new_builder))) =
    [mkSection None SECTION_AXON
       (mkPointLevel [pt 0 0 1; pt 0 0 2; pt 0 0 3]
                     [float_of_int 2; float_of_int 2; float_of_int 2])].
Proof.
  assert (Hlt : SECTION_AXON < SECTION_OUT_OF_RANGE_START) by (vm_compute; reflexivity).
  split; [exact Hlt|].
  exact (proj2 (chain_collapse_root_section
                  (pt 0 0 0) (pt 0 0 1) (pt 0 0 2) (pt 0 0 3)
                  (float_of_int 2) (float_of_int 2) (float_of_int 2) (float_of_int 2)
                  1 2 3 4 Hlt)).
Defined.

End ChainCollapseWitness.

(** ** Order of the records (scenario S6) *)

Section RecordOrder.
Context `{Float : FloatOps} `{Enum : SectionTypes}.

Lemma builder_eq (b b' : SWCBuilder) :
  children_ b = children_ b' -> samples_ b = samples_ b' ->
  morph_ b = morph_ b' -> declared_to_swc b = declared_to_swc b' -> b = b'.
Proof. destruct b, b'; cbn; intros -> -> -> ->; reflexivity. Qed.

Lemma indexed_morph l : forall b,
  morph_ (foldl indexed b l) = morph_ b /\
  declared_to_swc (foldl indexed b l) = declared_to_swc b.
Proof.
  induction l as [|s l IH]; intros b; cbn [foldl]; [tauto|].
  destruct (IH (indexed b s)) as [-> ->]. split; reflexivity.
Qed.

(** The sample index after the loop. *)
Lemma indexed_samples l : forall b i s,
  NoDup (map id l) ->
  samples_ (foldl indexed b l) !! i = Some s <->
  (s ∈ l /\ id s = i) \/ (samples_ b !! i = Some s /\ i ∉ map id l).
Proof.
  induction l as [|a l IH]; intros b i s Hnd.
  - cbn. split; [intros E; right; split; [exact E|apply not_elem_of_nil]|].
    intros [[Hin _]|[E _]]; [inversion Hin|exact E].
  - cbn [map] in Hnd. apply NoDup_cons in Hnd as [Hnotin Hnd].
    cbn [foldl map]. rewrite (IH _ i s Hnd). cbn [indexed samples_].
    rewrite elem_of_cons, not_elem_of_cons.
    destruct (decide (i = id a)) as [->|Hne].
    + rewrite lookup_insert_eq. split.
      * intros [[Hin Heq]|[E _]].
        -- exfalso. apply Hnotin. rewrite <- Heq. apply list_elem_of_fmap. eauto.
        -- injection E as <-. left. tauto.
      * intros [[[->|Hin] Heq]|[_ [Hc _]]]; [|exfalso|congruence].
        -- right. split; [reflexivity|exact Hnotin].
        -- apply Hnotin. rewrite <- Heq. apply list_elem_of_fmap. eauto.
    + rewrite lookup_insert_ne by congruence. split.
      * intros [[Hin Heq]|[E Hn]]; [left|right]; tauto.
      * intros [[[->|Hin] Heq]|[E [_ Hn]]]; [congruence|left|right]; tauto.
Qed.

(** The children index after the loop. *)
Lemma indexed_children l : forall b p,
  children_ (foldl indexed b l) !! p =
    match map id (siblings p l) with
    | [] => children_ b !! p
    | c => Some (default [] (children_ b !! p) ++ c)
    end.
Proof.
  induction l as [|a l IH]; intros b p; [reflexivity|].
  cbn [foldl]. rewrite IH. unfold siblings. cbn [List.filter indexed children_].
  destruct (Z.eqb_spec (parentId a) p) as [E|Hne].
  - subst p. rewrite lookup_insert_eq. cbn [map].
    destruct (map id (List.filter _ l)) as [|c cs]; cbn [default].
    + reflexivity.
    + cbv [Datatypes.id]. rewrite <- app_assoc. reflexivity.
  - rewrite lookup_insert_ne by congruence. reflexivity.
Qed.

(** Indexing does not depend on the order of the records beyond the order of
    the children of each parent. *)
Lemma indexed_permutation (l l' : list Sample) b :
  l ≡ₚ l' -> NoDup (map id l) ->
  (forall p, siblings p l = siblings p l') ->
  foldl indexed b l = foldl indexed b l'.
Proof.
  intros Hperm Hnd Hsib.
  assert (Hnd' : NoDup (map id l')) by (rewrite <- Hperm; exact Hnd).
  apply builder_eq.
  - apply map_eq. intros p. rewrite !indexed_children, Hsib. reflexivity.
  - apply map_eq. intros i. apply option_eq. intros s.
    rewrite !indexed_samples by assumption.
    rewrite Hperm. reflexivity.
  - rewrite (proj1 (indexed_morph l b)), (proj1 (indexed_morph l' b)). reflexivity.
  - rewrite (proj2 (indexed_morph l b)), (proj2 (indexed_morph l' b)). reflexivity.
Qed.

(** The second loop of [buildSWC] returns exactly when every parent
    resolves. *)
Lemma check_parent_cases s b :
  (parent_resolves (samples_ b) s /\ check_parent s b = mkRun b [] (Ok tt)) \/
  (~ parent_resolves (samples_ b) s /\
   check_parent s b = mkRun b [] (Throw (MissingParentError (ERROR_MISSING_PARENT s)))).
Proof.
  unfold check_parent, parent_resolves. mstep.
  destruct (Z.eqb_spec (parentId s) SWC_ROOT) as [E|E]; cbn [negb andb].
  - left. split; [left; exact E|reflexivity].
  - destruct (samples_ b !! parentId s) as [x|] eqn:L.
    + left. split; [right; eauto|].
      rewrite bool_decide_eq_true_2 by eauto. reflexivity.
    + right. split; [intros [?|[? ?]]; congruence|].
      rewrite bool_decide_eq_false_2 by (intros [? ?]; congruence). reflexivity.
Qed.

Lemma check_parents_ok l b :
  Forall (parent_resolves (samples_ b)) l ->
  for_each check_parent l b = mkRun b [] (Ok tt).
Proof.
  induction 1 as [|s l Hs Hl IH]; [reflexivity|].
  cbn [for_each].
  destruct (check_parent_cases s b) as [[_ E]|[Hn _]]; [|contradiction].
  rewrite (bind_ok _ _ _ _ _ _ E), IH. reflexivity.
Qed.

Lemma check_parents_inv l b x :
  result (for_each check_parent l b) = Ok x ->
  Forall (parent_resolves (samples_ b)) l.
Proof.
  induction l as [|s l IH]; intros Hres; [constructor|].
  cbn [for_each] in Hres.
  destruct (check_parent_cases s b) as [[Hs E]|[_ E]].
  - rewrite (bind_ok _ _ _ _ _ _ E) in Hres. cbn [result] in Hres.
    constructor; [exact Hs|apply IH; exact Hres].
  - unfold mbind, M_mbind, bind in Hres. rewrite E in Hres. discriminate.
Qed.

(** A sequence returns only if its first call returns. *)
Lemma bind_ok_inv {A B} (m : M A) (f : A -> M B) b x :
  result ((m ≫= f) b) = Ok x ->
  exists b1 w1 a, m b = mkRun b1 w1 (Ok a) /\ result (f a b1) = Ok x.
Proof.
  unfold mbind, M_mbind, bind. destruct (m b) as [b1 w1 [a| |]]; cbn; try discriminate.
  intros E. exists b1, w1, a. split; [reflexivity|exact E].
Qed.

(** [buildSWC] once the first two loops have returned. *)
Lemma buildSWC_indexed steps fuel (l : list Sample) :
  Forall well_formed l -> NoDup (map id l) ->
  Forall (parent_resolves (samples_ (foldl indexed new_builder l))) l ->
  let rest :=
    (build_soma (List.filter is_soma l) ≫=
       fun _ => for_each (assemble_from steps fuel) (List.filter is_root l))
      (foldl indexed new_builder l) in
  buildSWC_fuel steps fuel l new_builder =
    mkRun (final rest) (flat_map index_warnings l ++ warned rest) (result rest).
Proof.
  intros Hwf Hnd Hres rest. unfold buildSWC_fuel.
  rewrite (bind_ok _ _ _ _ _ _
             (index_samples_ok l l [] [] new_builder Hwf Hnd
                (fun s _ => lookup_empty (id s)))).
  cbn [app].
  rewrite (bind_ok _ _ _ _ _ _ (check_parents_ok l _ Hres)).
  cbn [final warned result app]. reflexivity.
Qed.

(** Conversely [buildSWC] returns only if they have. *)
Lemma buildSWC_ok_inv steps fuel (l : list Sample) x :
  result (buildSWC_fuel steps fuel l new_builder) = Ok x ->
  Forall well_formed l /\ NoDup (map id l) /\
  Forall (parent_resolves (samples_ (foldl indexed new_builder l))) l.
Proof.
  intros Hres. unfold buildSWC_fuel in Hres.
  apply bind_ok_inv in Hres as (b1 & w1 & [sa ra] & Hidx & Hres).
  assert (Hinv : result (index_samples l l ([], []) new_builder) = Ok (sa, ra))
    by (rewrite Hidx; reflexivity).
  apply index_samples_inv in Hinv as (Hwf & Hnd & Hfresh).
  rewrite (index_samples_ok l l [] [] new_builder Hwf Hnd Hfresh) in Hidx.
  injection Hidx as <- _ _.
  apply bind_ok_inv in Hres as (b2 & w2 & [] & Hchk & _).
  repeat split; try assumption.
  apply (check_parents_inv l _ tt). rewrite Hchk. reflexivity.
Qed.

Lemma index_samples_app samples l1 l2 acc b :
  index_samples samples (l1 ++ l2) acc b =
  (index_samples samples l1 acc ≫= fun acc' => index_samples samples l2 acc') b.
Proof.
  revert acc b. induction l1 as [|s l1 IH]; intros acc b; cbn [app index_samples].
  - rewrite bind_ret. reflexivity.
  - rewrite bind_assoc. unfold mbind, M_mbind, bind.
    destruct (index_sample samples s acc b) as [b1 w1 [acc1| |]]; cbn; try reflexivity.
    rewrite IH. reflexivity.
Qed.

(** The first record that names itself as parent, after well-formed records
    with distinct ids, ends [buildSWC] with [ERROR_SELF_PARENT]. *)
Lemma first_self_parent_is_fatal steps fuel l1 s l2 :
  Forall well_formed l1 -> NoDup (map id l1) -> parentId s = id s ->
  result (buildSWC_fuel steps fuel (l1 ++ s :: l2) new_builder) =
    Throw (RawDataError (ERROR_SELF_PARENT s)).
Proof.
  intros Hwf Hnd Hself. unfold buildSWC_fuel.
  apply bind_throws. rewrite index_samples_app.
  rewrite (bind_ok _ _ _ _ _ _
             (index_samples_ok _ l1 [] [] new_builder Hwf Hnd
                (fun s _ => lookup_empty (id s)))).
  cbn [result index_samples]. apply bind_throws.
  unfold index_sample. cbn [app]. rewrite Hself, Z.eqb_refl.
  destruct (flt (diameter s) epsilon); repeat mstep; reflexivity.
Qed.

(** A record whose parent does not resolve, in a file whose records are
    well-formed with distinct ids and whose earlier records resolve, ends
    [buildSWC] with [ERROR_MISSING_PARENT]. *)
Lemma first_missing_parent_is_fatal steps fuel l1 s l2 :
  let l := l1 ++ s :: l2 in
  let samples := samples_ (foldl indexed new_builder l) in
  Forall well_formed l -> NoDup (map id l) ->
  Forall (parent_resolves samples) l1 -> ~ parent_resolves samples s ->
  result (buildSWC_fuel steps fuel l new_builder) =
    Throw (MissingParentError (ERROR_MISSING_PARENT s)).
Proof.
  intros l samples Hwf Hnd Hl1 Hs. unfold buildSWC_fuel.
  rewrite (bind_ok _ _ _ _ _ _
             (index_samples_ok l l [] [] new_builder Hwf Hnd
                (fun s _ => lookup_empty (id s)))).
  cbn [result app]. apply bind_throws. subst l. rewrite for_each_app.
  rewrite (bind_ok _ _ _ _ _ _ (check_parents_ok l1 _ Hl1)).
  cbn [result for_each]. apply bind_throws.
  destruct (check_parent_cases s (foldl indexed new_builder (l1 ++ s :: l2)))
    as [[Hres _]|[_ E]]; [contradiction|].
  rewrite E. reflexivity.
Qed.

End RecordOrder.

Section RecordOrderFiles.
Import Rational Scenario.

(** C4, as stated, fails on the code: with the child record first both files
    load, but the soma points come out in the order of the lines, so the
    output differs from that of the reordered file. *)
Lemma child_first_changes_soma_points :
  result (load child_first) = Ok tt /\ result (load parent_first) = Ok tt /\
  soma_points (soma (morph_ (final (load child_first)))) = [pt 0 0 1; pt 0 0 0] /\
  soma_points (soma (morph_ (final (load parent_first)))) = [pt 0 0 0; pt 0 0 1] /\
  morph_ (final (load child_first)) <> morph_ (final (load parent_first)).
Proof.
  assert (E1 : soma_points (soma (morph_ (final (load child_first)))) =
               [pt 0 0 1; pt 0 0 0]) by (vm_compute; reflexivity).
  assert (E2 : soma_points (soma (morph_ (final (load parent_first)))) =
               [pt 0 0 0; pt 0 0 1]) by (vm_compute; reflexivity).
  repeat split; try (vm_compute; reflexivity); try assumption.
  intros E. rewrite E, E2 in E1. vm_compute in E1. congruence.
Qed.

End RecordOrderFiles.

(** Two sample vectors of which one is a permutation of the other, with the
    soma samples, the root samples and the children of each parent in the
    same relative order: [buildSWC] returns on one if it does on the other,
    in the same builder and with the same warnings up to their order. *)
Lemma reordered_records_same_output `{Float : FloatOps} `{Enum : SectionTypes}
    (l l' : list Sample) :
  l ≡ₚ l' ->
  List.filter is_soma l = List.filter is_soma l' ->
  List.filter is_root l = List.filter is_root l' ->
  (forall p, siblings p l = siblings p l') ->
  result (buildSWC l' new_builder) = Ok tt ->
  result (buildSWC l new_builder) = Ok tt /\
  final (buildSWC l new_builder) = final (buildSWC l' new_builder) /\
  warned (buildSWC l new_builder) ≡ₚ warned (buildSWC l' new_builder).
Proof.
  intros Hperm Hsoma Hroot Hsib Hres. unfold buildSWC in *.
  rewrite (Permutation_length Hperm).
  destruct (buildSWC_ok_inv _ _ _ _ Hres) as (Hwf' & Hnd' & Hpar').
  assert (Hwf : Forall well_formed l) by (rewrite Hperm; exact Hwf').
  assert (Hnd : NoDup (map id l)) by (rewrite Hperm; exact Hnd').
  assert (Hidx : foldl indexed new_builder l = foldl indexed new_builder l')
    by (apply indexed_permutation; assumption).
  assert (Hpar : Forall (parent_resolves (samples_ (foldl indexed new_builder l))) l)
    by (rewrite Hidx, Hperm; exact Hpar').
  rewrite (buildSWC_indexed _ _ l' Hwf' Hnd' Hpar') in Hres |- *.
  rewrite (buildSWC_indexed _ _ l Hwf Hnd Hpar).
  rewrite Hidx, Hsoma, Hroot. cbn [result final warned] in *.
  repeat split; [exact Hres|].
  apply Permutation_app_tail. apply Permutation_flat_map. exact Hperm.
Qed.

(** ** The soma classifier *)

Section SomaClassifier.
Context `{Float : FloatOps}.

Lemma some_differs (a b c d e f g h : bool) :
  negb a || negb b || negb c || negb d || negb e || negb f || negb g || negb h =
  negb ((a && c && e && g) && (b && d && f && h)).
Proof. destruct a, b, c, d, e, f, g, h; reflexivity. Qed.

Lemma all_close (n p q r s t u : bool) :
  n && p && q && r && s && t && u = n && ((r && t && p) && (s && u && q)).
Proof. destruct n, p, q, r, s, t, u; reflexivity. Qed.

(** The guard of [_checkNeuromorph3PointSoma], read as in the statement. *)
Lemma three_point_check center child1 child2 b :
  _checkNeuromorph3PointSoma [center; child1; child2] b =
    mkRun b (if negb (canonical_arrangement center child1 child2)
                && close_to_center center child1 child2
             then [SOMA_NON_CONFORM center child1 child2] else [])
          (Ok tt).
Proof.
  unfold _checkNeuromorph3PointSoma, canonical_arrangement, close_to_center,
    within_epsilon, fne.
  destruct (point center) as [[x y] z], (point child1) as [[x1 y1] z1],
    (point child2) as [[x2 y2] z2].
  rewrite some_differs, all_close.
  match goal with |- context [if ?c then _ else _] => destruct c end; reflexivity.
Qed.

(** One soma sample of a [SOMA_CYLINDERS] soma: the step throws or pushes the
    point and the diameter of the sample. *)
Lemma cylinder_step_cases s parent_count b :
  (exists e, result (cylinder_step s parent_count b) = Throw e) \/
  (exists n, cylinder_step s parent_count b =
     mkRun {| children_ := children_ b; samples_ := samples_ b;
              morph_ := {| soma := mkSoma (soma_type (soma (morph_ b)))
                                     (soma_points (soma (morph_ b)) ++ [point s])
                                     (soma_diameters (soma (morph_ b)) ++ [diameter s]);
                           sections := sections (morph_ b) |};
              declared_to_swc := declared_to_swc b |} [] (Ok n)).
Proof.
  unfold cylinder_step, push_soma_point, set_morph. do 2 mstep.
  destruct (parentId s =? SWC_ROOT).
  - mstep. destruct (children_ b !! id s) as [ids|].
    + destruct (1 <? Z.of_nat (length ids)).
      * destruct (1 <? Z.of_nat (length (soma_children (samples_ b) ids))).
        -- left. mstep. eexists. reflexivity.
        -- right. repeat mstep. eexists. reflexivity.
      * right. repeat mstep. eexists. reflexivity.
    + right. repeat mstep. eexists. reflexivity.
  - destruct (samples_ b !! parentId s) as [p|].
    + destruct (type p =? SECTION_SOMA); cbn [negb].
      * mstep. destruct (children_ b !! id s) as [ids|].
        -- destruct (1 <? Z.of_nat (length ids)).
           ++ destruct (1 <? Z.of_nat (length (soma_children (samples_ b) ids))).
              ** left. mstep. eexists. reflexivity.
              ** right. repeat mstep. eexists. reflexivity.
           ++ right. repeat mstep. eexists. reflexivity.
        -- right. repeat mstep. eexists. reflexivity.
      * left. mstep. eexists. reflexivity.
    + left. mstep. eexists. reflexivity.
Qed.

(** The loop over the soma samples, when it returns, has pushed the points
    and diameters of all of them, in order. *)
Lemma cylinder_loop_ok l : forall parent_count b n,
  result (cylinder_loop l parent_count b) = Ok n ->
  soma (morph_ (final (cylinder_loop l parent_count b))) =
    mkSoma (soma_type (soma (morph_ b)))
      (soma_points (soma (morph_ b)) ++ map point l)
      (soma_diameters (soma (morph_ b)) ++ map diameter l).
Proof.
  induction l as [|s l IH]; intros parent_count b n Hres.
  - cbn. rewrite !app_nil_r. destruct (soma (morph_ b)); reflexivity.
  - cbn [cylinder_loop] in Hres |- *.
    destruct (cylinder_step_cases s parent_count b) as [[e He]|[n' He]].
    + unfold mbind, M_mbind, bind in Hres. rewrite He in Hres. discriminate.
    + rewrite (bind_ok _ _ _ _ _ _ He) in Hres |- *. cbn [result final] in Hres |- *.
      rewrite (IH _ _ _ Hres). cbn [morph_ soma soma_type soma_points soma_diameters map].
      rewrite <- !app_assoc. reflexivity.
Qed.

(** A sequence that returns: its first call returned, and the rest ran from
    the builder the first call reached. *)
Lemma bind_final_ok {A B} (m : M A) (f : A -> M B) b x :
  result ((m ≫= f) b) = Ok x ->
  exists a, result (m b) = Ok a /\
            final ((m ≫= f) b) = final (f a (final (m b))) /\
            result (f a (final (m b))) = Ok x.
Proof.
  unfold mbind, M_mbind, bind. destruct (m b) as [b1 w1 [a| |]]; cbn; try discriminate.
  intros E. exists a. repeat split; assumption.
Qed.

Lemma build_soma_cylinders_ok l b :
  soma_is_new b ->
  result (build_soma_cylinders l b) = Ok tt ->
  soma (morph_ (final (build_soma_cylinders l b))) =
    mkSoma SOMA_CYLINDERS (map point l) (map diameter l).
Proof.
  unfold soma_is_new, build_soma_cylinders, set_soma_type, set_morph.
  intros Hnew Hres. rewrite bind_modify in Hres |- *.
  apply bind_final_ok in Hres as (n & Hloop & -> & Hres).
  destruct (1 <? n); [discriminate|]. unfold ret at 1. cbn [final].
  rewrite (cylinder_loop_ok _ _ _ _ Hloop).
  cbn [morph_ soma soma_type soma_points soma_diameters].
  rewrite Hnew. reflexivity.
Qed.

End SomaClassifier.

(** C3: for a soma classified as [SOMA_NEUROMORPHO_THREE_POINT_CYLINDERS],
    the warning [SOMA_NON_CONFORM] is emitted if and only if the children are
    not exactly at [(x, y - r, z, d)] and [(x, y + r, z, d)] while the x, the z
    and the diameter of each child are within [epsilon] of the center's; a
    canonical arrangement emits no warning, and no other warning is emitted. *)
Theorem three_point_soma_warning `{Float : FloatOps} (center child1 child2 : Sample)
    (b : SWCBuilder) :
  soma_variant [center; child1; child2] = SOMA_NEUROMORPHO_THREE_POINT_CYLINDERS ->
  let run := build_soma [center; child1; child2] b in
  result run = Ok tt /\
  soma_type (soma (morph_ (final run))) = SOMA_NEUROMORPHO_THREE_POINT_CYLINDERS /\
  (SOMA_NON_CONFORM center child1 child2 ∈ warned run <->
     canonical_arrangement center child1 child2 = false /\
     close_to_center center child1 child2 = true) /\
  (canonical_arrangement center child1 child2 = true -> warned run = []) /\
  (forall w, w ∈ warned run -> w = SOMA_NON_CONFORM center child1 child2).
Proof.
  intros Hvar run. subst run. unfold soma_variant in Hvar. unfold build_soma.
  rewrite (Z.eqb_sym (id center)), (Z.eqb_sym (id center) (parentId child2)).
  destruct ((parentId child1 =? id center) && (parentId child2 =? id center));
    [clear Hvar|discriminate].
  unfold set_soma, set_morph. mstep. rewrite three_point_check.
  cbn [result final warned morph_ soma soma_type].
  destruct (canonical_arrangement center child1 child2),
    (close_to_center center child1 child2); cbn [negb andb];
    repeat split; try reflexivity; try discriminate;
    rewrite ?list_elem_of_singleton, ?elem_of_nil; try tauto; try congruence.
  all: try (intros [? ?]; discriminate).
  all: try (intros w Hw; first [apply list_elem_of_singleton in Hw; exact Hw
                               | apply elem_of_nil in Hw; destruct Hw]).
  all: match goal with Hin : _ ∈ [] |- _ => apply elem_of_nil in Hin; destruct Hin end.
Qed.


Section SomaWitnesses.
Import Rational Scenario.


(** C3 at scenario S3: the second child is at [y = 2] instead of [y = 1], and
    the warning is emitted. *)
Lemma three_point_soma_warning_witness :
  soma_variant [soma_sample 1 (pt 0 0 0) SWC_ROOT 1; soma_sample 2 (pt 0 (-1) 0) 1 2;
                soma_sample 3 (pt 0 2 0) 1 3] = SOMA_NEUROMORPHO_THREE_POINT_CYLINDERS /\
  canonical_arrangement (soma_sample 1 (pt 0 0 0) SWC_ROOT 1) (soma_sample 2 (pt 0 (-1) 0) 1 2)
    (soma_sample 3 (pt 0 2 0) 1 3) = false /\
  close_to_center (soma_sample 1 (pt 0 0 0) SWC_ROOT 1) (soma_sample 2 (pt 0 (-1) 0) 1 2)
    (soma_sample 3 (pt 0 2 0) 1 3) = true /\
  SOMA_NON_CONFORM (soma_sample 1 (pt 0 0 0) SWC_ROOT 1) (soma_sample 2 (pt 0 (-1) 0) 1 2)
    (soma_sample 3 (pt 0 2 0) 1 3)
  ∈ warned (build_soma [soma_sample 1 (pt 0 0 0) SWC_ROOT 1; soma_sample 2 (pt 0 (-1) 0) 1 2;
                        soma_sample 3 (pt 0 2 0) 1 3] new_builder).
Proof.
  split; [reflexivity|]. split; [reflexivity|]. split; [reflexivity|].
  exact (proj2 (proj1 (proj2 (proj2 (three_point_soma_warning
                  (soma_sample 1 (pt 0 0 0) SWC_ROOT 1) (soma_sample 2 (pt 0 (-1) 0) 1 2)
                  (soma_sample 3 (pt 0 2 0) 1 3) new_builder eq_refl))))
               (conj eq_refl eq_refl)).
Defined.

End SomaWitnesses.

(** ** Invariants of the builder *)

Section HoareRules.
Context `{Float : FloatOps}.
Variable I : SWCBuilder -> Prop.

Lemma hoare_ret {A} (a : A) (Q : A -> Prop) : Q a -> hoare I (ret a) Q.
Proof. intros HQ b HI. split; [exact HI|]. intros a' [= <-]. exact HQ. Qed.

Lemma hoare_throw {A} e (Q : A -> Prop) : hoare I (throw e) Q.
Proof. intros b HI. split; [exact HI|]. discriminate. Qed.

Lemma hoare_out_of_fuel {A} (Q : A -> Prop) : hoare I out_of_fuel Q.
Proof. intros b HI. split; [exact HI|]. discriminate. Qed.

Lemma hoare_printError w : hoare I (printError w) (fun _ => True).
Proof. intros b HI. split; [exact HI|]. trivial. Qed.

Lemma hoare_gets {A} (g : SWCBuilder -> A) (Q : A -> Prop) :
  (forall b, I b -> Q (g b)) -> hoare I (gets g) Q.
Proof. intros HQ b HI. split; [exact HI|]. intros a [= <-]. apply HQ, HI. Qed.

Lemma hoare_modify (g : SWCBuilder -> SWCBuilder) :
  (forall b, I b -> I (g b)) -> hoare I (modify g) (fun _ => True).
Proof. intros Hg b HI. split; [apply Hg, HI|]. trivial. Qed.

Lemma hoare_bind {A B} (m : M A) (f : A -> M B) (Q : A -> Prop) (R : B -> Prop) :
  hoare I m Q -> (forall a, Q a -> hoare I (f a) R) -> hoare I (m ≫= f) R.
Proof.
  intros Hm Hf b HI. destruct (Hm b HI) as [HI1 HQ].
  unfold mbind, M_mbind, bind.
  destruct (m b) as [b1 w1 [a| |]]; cbn in *; try (split; [exact HI1|discriminate]).
  destruct (Hf a (HQ a eq_refl) b1 HI1) as [HI2 HR]. split; assumption.
Qed.

Lemma hoare_weaken {A} (m : M A) (Q Q' : A -> Prop) :
  hoare I m Q -> (forall a, Q a -> Q' a) -> hoare I m Q'.
Proof. intros Hm HQ b HI. destruct (Hm b HI) as [HI1 H1]. split; auto. Qed.

Lemma hoare_for_each {A} (body : A -> M unit) (l : list A) :
  (forall x, x ∈ l -> hoare I (body x) (fun _ => True)) ->
  hoare I (for_each body l) (fun _ => True).
Proof.
  induction l as [|x l IH]; intros Hbody; cbn [for_each].
  - apply hoare_ret. exact Logic.I.
  - eapply hoare_bind; [apply Hbody; left|].
    intros _ _. apply IH. intros y Hy. apply Hbody. now right.
Qed.

Lemma hoare_front {A} (l : list A) : hoare I (front l) (fun x => head l = Some x).
Proof. destruct l; [apply hoare_throw|apply hoare_ret; reflexivity]. Qed.

Lemma hoare_back {A} (l : list A) : hoare I (back l) (fun x => last l = Some x).
Proof.
  unfold back. destruct (last l); [apply hoare_ret; reflexivity|apply hoare_throw].
Qed.

End HoareRules.

(** ** Fork duplication *)

Section ForkDuplication.
Context `{Float : FloatOps} `{Enum : SectionTypes}.

Lemma fork_duplication_snoc secs sec :
  fork_duplication secs ->
  (forall h, section_parent sec = Some h ->
     exists parent first_point last_point,
       secs !! h = Some parent /\
       head (_points (section_properties sec)) = Some first_point /\
       last (_points (section_properties parent)) = Some last_point /\
       same_point first_point last_point) ->
  fork_duplication (secs ++ [sec]).
Proof.
  intros Hold Hnew k sec' h Hk Hparent.
  assert (Hlift : forall h' parent, secs !! h' = Some parent ->
                                    (secs ++ [sec]) !! h' = Some parent)
    by (intros; now apply lookup_app_l_Some).
  destruct (decide (k < length secs)%nat) as [Hlt|Hge].
  - rewrite lookup_app_l in Hk by exact Hlt.
    destruct (Hold k sec' h Hk Hparent) as (parent & fp & lp & Hp & Hf & Hl & Hs).
    exists parent, fp, lp. auto.
  - rewrite lookup_app_r in Hk by lia.
    destruct (k - length secs)%nat as [|n] eqn:E; cbn in Hk; [|discriminate].
    injection Hk as <-.
    destruct (Hnew h Hparent) as (parent & fp & lp & Hp & Hf & Hl & Hs).
    exists parent, fp, lp. auto.
Qed.

Lemma last_push_back properties sample :
  last (_points (push_back properties sample)) = Some (point sample).
Proof. unfold push_back. cbn. apply last_snoc. Qed.

Lemma head_push_back_nonempty properties sample sample' :
  _points properties <> [] ->
  head (_points (push_back (push_back properties sample) sample')) =
  head (_points (push_back properties sample)).
Proof.
  unfold push_back. cbn. destruct (_points properties); [congruence|reflexivity].
Qed.

Section Assembly.
Variable samples : gmap Z Sample.
Variable children : gmap Z (list Z).

Local Abbreviation Inv := (assembly_invariant samples children).

Lemma hoare_samples_at i :
  hoare Inv (samples_at i) (fun s => samples !! i = Some s).
Proof.
  unfold samples_at.
  eapply hoare_bind; [apply (hoare_gets _ samples_ (fun m => m = samples))|].
  - intros b [E _]. exact E.
  - intros m ->. destruct (samples !! i); [apply hoare_ret; reflexivity|apply hoare_throw].
Qed.

Lemma hoare_children_at i :
  hoare Inv (children_at i) (fun l => children !! i = Some l).
Proof.
  unfold children_at.
  eapply hoare_bind; [apply (hoare_gets _ children_ (fun m => m = children))|].
  - intros b (_ & E & _). exact E.
  - intros m ->. destruct (children !! i); [apply hoare_ret; reflexivity|apply hoare_throw].
Qed.

Lemma hoare_get_child_count i :
  hoare Inv (get_child_count i) (fun _ => True).
Proof.
  unfold get_child_count.
  eapply hoare_bind; [apply (hoare_gets _ children_ (fun _ => True)); trivial|].
  intros m _. destruct (m !! i); apply hoare_ret; exact I.
Qed.

(** The loop keeps the first point gathered: the section ends up starting
    with what was in front when the loop was entered. *)
Lemma hoare_collapse steps : forall i properties children_count,
  hoare Inv (collapse steps i properties children_count)
    (fun '(i', properties', _) =>
       forall s', samples !! i' = Some s' ->
       exists s, samples !! i = Some s /\
                 head (_points (push_back properties' s')) =
                 head (_points (push_back properties s))).
Proof.
  induction steps as [|steps IH]; intros i properties children_count; cbn [collapse].
  - apply hoare_out_of_fuel.
  - destruct (children_count =? 1).
    + eapply hoare_bind; [apply hoare_samples_at|]. intros sample Hsample.
      eapply hoare_bind; [apply hoare_children_at|]. intros ids _.
      eapply hoare_bind; [apply hoare_front|]. intros first _.
      eapply hoare_bind; [apply hoare_samples_at|]. intros next Hnext.
      destruct (negb (type sample =? type next)).
      * apply hoare_ret. intros s' Hs'. exists s'. split; [exact Hs'|reflexivity].
      * eapply hoare_bind; [apply hoare_get_child_count|]. intros count _.
        eapply hoare_weaken; [apply IH|].
        intros [[i' properties'] count'] Hpost s' Hs'.
        destruct (Hpost s' Hs') as (s1 & Hs1 & Hhead).
        exists sample. split; [exact Hsample|]. rewrite Hhead.
        unfold push_back. cbn. destruct (_points properties); reflexivity.
    + apply hoare_ret. intros s' Hs'. exists s'. split; [exact Hs'|reflexivity].
Qed.

(** Appending a section that ends at the sample of its declared id and, if it
    is not a root section, starts at the point of the sample its parent is
    declared under. *)
Lemma hoare_append_section section_id parent_id ty properties is_root :
  (exists s, samples !! section_id = Some s /\
             last (_points properties) = Some (point s)) ->
  (is_root = false ->
   exists sp first_point,
     samples !! parent_id = Some sp /\
     head (_points properties) = Some first_point /\
     same_point first_point (point sp)) ->
  hoare Inv (append_section section_id parent_id ty properties is_root) (fun _ => True).
Proof.
  intros (s & Hs & Hlast) Hparent b (Hsam & Hch & Hdecl & Hfork).
  split; [|trivial].
  assert (Hkeep : forall h sec sec', sections (morph_ b) !! h = Some sec ->
                    (sections (morph_ b) ++ [sec']) !! h = Some sec)
    by (intros; now apply lookup_app_l_Some).
  assert (Hdecl' : forall sec' d h,
            section_properties sec' = properties ->
            <[section_id := length (sections (morph_ b))]> (declared_to_swc b) !! d = Some h ->
            exists sec s0, (sections (morph_ b) ++ [sec']) !! h = Some sec /\
                           samples_ b !! d = Some s0 /\
                           last (_points (section_properties sec)) = Some (point s0)).
  { intros sec' d h Hprop Hlook. destruct (decide (section_id = d)) as [<-|Hne].
    - rewrite lookup_insert_eq in Hlook. injection Hlook as <-.
      exists sec', s. rewrite Hsam, Hprop. repeat split; try assumption.
      rewrite lookup_app_r by lia. now rewrite Nat.sub_diag.
    - rewrite lookup_insert_ne in Hlook by exact Hne.
      destruct (Hdecl d h Hlook) as (sec & s0 & H1 & H2 & H3).
      exists sec, s0. auto. }
  unfold append_section, appendRootSection, appendSection, set_morph.
  destruct is_root.
  - repeat mstep. cbn [modify final].
    repeat split; cbn [samples_ children_ morph_ declared_to_swc sections];
      try assumption.
    + intros d h. apply Hdecl'. reflexivity.
    + apply fork_duplication_snoc; [exact Hfork|]. cbn. discriminate.
  - destruct (Hparent eq_refl) as (sp & fp & Hsp & Hhead & Hsame).
    repeat mstep. destruct (declared_to_swc b !! parent_id) as [parent|] eqn:Hp.
    + repeat mstep. cbn [modify final].
      repeat split; cbn [samples_ children_ morph_ declared_to_swc sections];
        try assumption.
      * intros d h. apply Hdecl'. reflexivity.
      * apply fork_duplication_snoc; [exact Hfork|]. cbn. intros h [= <-].
        destruct (Hdecl parent_id parent Hp) as (psec & s0 & H1 & H2 & H3).
        rewrite Hsam, Hsp in H2. injection H2 as <-.
        exists psec, fp, (point sp). auto.
    + repeat mstep. cbn [final]. repeat split; assumption.
Qed.

(** [assembleSections] keeps the invariant, for every bound on its loops and
    on its recursion, whether it returns, throws or is cut short. *)
Lemma hoare_assembleSections steps fuel : forall i parent_id start_point start_diameter is_root,
  (is_root = false ->
   exists sp, samples !! parent_id = Some sp /\ point sp = start_point) ->
  hoare Inv (assembleSections steps fuel i parent_id start_point start_diameter is_root)
    (fun _ => True).
Proof.
  induction fuel as [|fuel IH];
    intros i parent_id start_point start_diameter is_root Hstart; cbn [assembleSections].
  - apply hoare_out_of_fuel.
  - eapply hoare_bind; [apply hoare_samples_at|]. intros sample Hsample.
    eapply hoare_bind; [apply hoare_get_child_count|]. intros count0 _.
    eapply hoare_bind; [apply hoare_collapse|].
    intros [[i' properties'] children_count] Hcollapse.
    eapply hoare_bind; [apply hoare_samples_at|]. intros sample' Hsample'.
    destruct (Hcollapse sample' Hsample') as (s0 & Hs0 & Hhead).
    rewrite Hsample in Hs0. injection Hs0 as <-.
    eapply hoare_bind.
    { apply hoare_append_section.
      - exists sample'. split; [exact Hsample'|apply last_push_back].
      - intros ->. destruct (Hstart eq_refl) as (sp & Hsp & Hpoint).
        cbn [negb andb] in Hhead.
        destruct (point_ne (point sample) start_point) eqn:Hne.
        + exists sp, start_point. rewrite Hhead. cbn.
          repeat split; [exact Hsp|]. left. symmetry. exact Hpoint.
        + exists sp, (point sample). rewrite Hhead. cbn.
          repeat split; [exact Hsp|]. right. rewrite Hpoint. exact Hne. }
    intros _ _. destruct (children_count =? 0); [apply hoare_ret; exact I|].
    eapply hoare_bind; [apply hoare_back|]. intros new_start_point Hback.
    rewrite last_push_back in Hback. injection Hback as <-.
    eapply hoare_bind; [apply hoare_back|]. intros new_start_diameter _.
    eapply hoare_bind; [apply hoare_children_at|]. intros ids _.
    assert (Hnext : false = false ->
                    exists sp, samples !! i' = Some sp /\ point sp = point sample')
      by (intros _; exists sample'; auto).
    destruct (children_count =? 1).
    + eapply hoare_bind; [apply hoare_front|]. intros first _.
      apply IH. exact Hnext.
    + apply hoare_for_each. intros child_id _. apply IH. exact Hnext.
Qed.

Lemma hoare_set_morph (f : Morphology -> Morphology) :
  (forall m, sections (f m) = sections m) ->
  hoare Inv (set_morph f) (fun _ => True).
Proof.
  intros Hf. apply hoare_modify. intros b (Hsam & Hch & Hdecl & Hfork).
  repeat split; unfold declared_sections_end_at_samples;
    cbn [samples_ children_ morph_ declared_to_swc]; try assumption.
  - intros d h Hd. destruct (Hdecl d h Hd) as (sec & s0 & H1 & H2 & H3).
    exists sec, s0. rewrite Hf. auto.
  - rewrite Hf. exact Hfork.
Qed.

Lemma hoare_check_parent s : hoare Inv (check_parent s) (fun _ => True).
Proof.
  unfold check_parent.
  eapply hoare_bind; [apply (hoare_gets _ samples_ (fun _ => True)); trivial|].
  intros m _. destruct (_ && _); [apply hoare_throw|apply hoare_ret; exact I].
Qed.

Lemma hoare_cylinder_loop l : forall parent_count,
  hoare Inv (cylinder_loop l parent_count) (fun _ => True).
Proof.
  induction l as [|s l IH]; intros parent_count; cbn [cylinder_loop].
  - apply hoare_ret. exact I.
  - eapply (hoare_bind _ _ _ (fun _ => True)); [|intros n _; apply IH].
    unfold cylinder_step.
    eapply hoare_bind; [apply (hoare_gets _ samples_ (fun _ => True)); trivial|].
    intros m _.
    eapply hoare_bind; [apply (hoare_gets _ children_ (fun _ => True)); trivial|].
    intros c _.
    eapply (hoare_bind _ _ _ (fun _ => True)).
    { destruct (parentId s =? SWC_ROOT); [apply hoare_ret; exact I|].
      destruct (m !! parentId s) as [p|]; [|apply hoare_throw].
      destruct (negb (type p =? SECTION_SOMA)); [apply hoare_throw|apply hoare_ret; exact I]. }
    intros n _.
    eapply (hoare_bind _ _ _ (fun _ => True)).
    { destruct (c !! id s) as [ids|]; [|apply hoare_ret; exact I].
      destruct (1 <? Z.of_nat (length ids)); [|apply hoare_ret; exact I].
      destruct (1 <? _); [apply hoare_throw|apply hoare_ret; exact I]. }
    intros _ _.
    eapply hoare_bind; [apply hoare_set_morph; reflexivity|].
    intros _ _. apply hoare_ret. exact I.
Qed.

Lemma hoare_build_soma soma_samples :
  hoare Inv (build_soma soma_samples) (fun _ => True).
Proof.
  assert (Hcyl : forall l, hoare Inv (build_soma_cylinders l) (fun _ => True)).
  { intros l. unfold build_soma_cylinders.
    eapply hoare_bind; [apply hoare_set_morph; reflexivity|]. intros _ _.
    eapply hoare_bind; [apply hoare_cylinder_loop|]. intros n _.
    destruct (1 <? n); [apply hoare_throw|apply hoare_ret; exact I]. }
  destruct soma_samples as [|s1 [|s2 [|s3 [|s4 l]]]]; cbn [build_soma]; try apply Hcyl.
  - apply hoare_set_morph. reflexivity.
  - eapply (hoare_bind _ _ _ (fun _ => True)).
    { destruct (negb (parentId s1 =? SWC_ROOT)); [|apply hoare_ret; exact I].
      eapply hoare_bind; [apply hoare_samples_at|]. intros p _. apply hoare_ret. exact I. }
    intros [] _; [apply hoare_throw|apply hoare_set_morph; reflexivity].
  - destruct (_ && _); [|apply Hcyl].
    eapply hoare_bind; [apply hoare_set_morph; reflexivity|]. intros _ _.
    intros b HI. rewrite three_point_check. split; [exact HI|trivial].
Qed.

Lemma hoare_assemble_from steps fuel root_sample :
  hoare Inv (assemble_from steps fuel root_sample) (fun _ => True).
Proof.
  unfold assemble_from.
  eapply hoare_bind; [apply (hoare_gets _ children_ (fun _ => True)); trivial|].
  intros c _. destruct (c !! id root_sample) as [ids|]; [|apply hoare_ret; exact I].
  eapply hoare_bind; [apply (hoare_gets _ morph_ (fun _ => True)); trivial|].
  intros m _.
  eapply (hoare_bind _ _ _ (fun _ => True)).
  { destruct (_ && _); [apply hoare_printError|apply hoare_ret; exact I]. }
  intros _ _. induction ids as [|child_id ids IH]; cbn [assemble_root].
  - apply hoare_ret. exact I.
  - eapply hoare_bind; [apply hoare_samples_at|]. intros child _.
    destruct (type child =? SECTION_SOMA); [exact IH|].
    destruct (type root_sample =? SECTION_SOMA).
    + eapply hoare_bind; [apply (hoare_gets _ morph_ (fun _ => True)); trivial|].
      intros m' _.
      eapply hoare_bind; [apply hoare_front|]. intros start_point _.
      eapply hoare_bind; [apply hoare_front|]. intros start_diameter _.
      eapply hoare_bind; [apply hoare_assembleSections; discriminate|].
      intros _ _. exact IH.
    + apply hoare_assembleSections. discriminate.
Qed.

End Assembly.

(** The first loop of [buildSWC] appends no section and declares none. *)
Lemma hoare_index_samples samples l : forall acc,
  hoare (fun b : SWCBuilder => sections (morph_ b) = [] /\ declared_to_swc b = ∅)
    (index_samples samples l acc) (fun _ => True).
Proof.
  induction l as [|s l IH]; intros [sa ra]; cbn [index_samples].
  - apply hoare_ret. exact I.
  - eapply (hoare_bind _ _ _ (fun _ => True)); [|intros acc _; apply IH].
    unfold index_sample.
    eapply (hoare_bind _ _ _ (fun _ => True)).
    { destruct (flt _ _); [apply hoare_printError|apply hoare_ret; exact I]. }
    intros _ _. destruct (_ =? _); [apply hoare_throw|].
    destruct (_ || _); [apply hoare_throw|].
    eapply (hoare_bind _ _ _ (fun _ => True)).
    { destruct (_ && _); [apply hoare_printError|apply hoare_ret; exact I]. }
    intros _ _.
    eapply (hoare_bind _ _ _ (fun _ => True)).
    { unfold insert_sample.
      eapply hoare_bind; [apply (hoare_gets _ samples_ (fun _ => True)); trivial|].
      intros m _. destruct (m !! id s); [apply hoare_ret; exact I|].
      eapply hoare_bind; [apply hoare_modify; intros b Hb; exact Hb|].
      intros _ _. apply hoare_ret. exact I. }
    intros inserted _. destruct (negb inserted); [apply hoare_throw|].
    eapply hoare_bind; [apply hoare_modify; intros b Hb; exact Hb|].
    intros _ _. apply hoare_ret. exact I.
Qed.

End ForkDuplication.

(** In every builder that [buildSWC] reaches, whether it returns, throws or
    is cut short, the sections satisfy fork duplication. *)
Lemma buildSWC_fork_duplication `{Float : FloatOps} `{Enum : SectionTypes}
    (steps fuel : nat) (l : list Sample) :
  fork_duplication (sections (morph_ (final (buildSWC_fuel steps fuel l new_builder)))).
Proof.
  unfold buildSWC_fuel.
  pose proof (hoare_index_samples l l ([], []) new_builder (conj eq_refl eq_refl))
    as [[Hsec Hdecl] _].
  unfold mbind at 1, M_mbind at 1, bind at 1.
  destruct (index_samples l l ([], []) new_builder) as [b1 w1 [[sa ra]| |]];
    cbn [final result] in *; try (rewrite Hsec; intros k sec h Hk; discriminate).
  assert (Hinv : assembly_invariant (samples_ b1) (children_ b1) b1).
  { repeat split.
    - intros d h Hd. rewrite Hdecl in Hd. discriminate.
    - rewrite Hsec. intros k sec h Hk. discriminate. }
  eapply (hoare_bind (assembly_invariant (samples_ b1) (children_ b1)) _ _
            (fun _ => True) (fun _ => True)); [| |exact Hinv].
  - apply hoare_for_each. intros s _. apply hoare_check_parent.
  - intros _ _. eapply hoare_bind; [apply hoare_build_soma|].
    intros _ _. apply hoare_for_each. intros s _. apply hoare_assemble_from.
Qed.

(** C8: in the builder that [load] reaches on any file, every section
    appended to a parent section starts with a point equal to the last point
    of that parent: either the very same point, put in front as a duplicate,
    or the first sample's own point when the test [!=] does not tell it from
    the parent's last point.  In scenario S5 the two sections appended at the
    fork start with the point [(0, 0, 2)] of sample 3. *)
Theorem sections_fork_duplication :
  (forall `{Num : StringToNumber} `{Enum : SectionTypes} (contents : list ascii),
     fork_duplication (sections (morph_ (final (load contents))))) /\
  sections (morph_ (final (Scenario.load_file Scenario.bifurcation))) =
    [Scenario.axon_section None [Scenario.pt 0 0 1; Scenario.pt 0 0 2];
     Scenario.axon_section (Some 0%nat) [Scenario.pt 0 0 2; Scenario.pt 0 1 3];
     Scenario.axon_section (Some 0%nat) [Scenario.pt 0 0 2; Scenario.pt 1 0 3]].
Proof.
  split; [|vm_compute; reflexivity].
  intros Float Num Enum contents. unfold load.
  destruct (readSamples contents) as [samples| |];
    try (intros k sec h Hk; discriminate).
  apply buildSWC_fork_duplication.
Qed.

(** ** Shape of a record *)

Section RecordShapeFiles.
Import Rational Scenario.


End RecordShapeFiles.

(** *** A gap that runs to the end of the text *)

Section GapAtEnd.
Context `{Num : StringToNumber}.
Variable contents : list ascii.
Hypothesis Hsize : size contents < 2 ^ 64.




End GapAtEnd.



Section RecordShapeWitness.
Import Rational Scenario.


End RecordShapeWitness.

(** ** Line numbers do not reach the output *)

Section LineNumbers.
Context `{Float : FloatOps} `{Enum : SectionTypes}.

Lemma sim_ret {A} (R : A -> A -> Prop) a a' : R a a' -> sim R (ret a) (ret a').
Proof. intros HR b. split; [reflexivity|exact HR]. Qed.

Lemma sim_throw {A} (R : A -> A -> Prop) e e' : sim R (throw e) (throw e').
Proof. intros b. split; [reflexivity|exact I]. Qed.

Lemma sim_out_of_fuel {A} (R : A -> A -> Prop) : sim R out_of_fuel out_of_fuel.
Proof. intros b. split; [reflexivity|exact I]. Qed.

Lemma sim_printError w w' : sim eq (printError w) (printError w').
Proof. intros b. split; reflexivity. Qed.

Lemma sim_gets {A} (R : A -> A -> Prop) (g : SWCBuilder -> A) :
  (forall b, R (g b) (g (without_lines b))) -> sim R (gets g) (gets g).
Proof. intros Hg b. split; [reflexivity|apply Hg]. Qed.

Lemma sim_modify (g g' : SWCBuilder -> SWCBuilder) :
  (forall b, g' (without_lines b) = without_lines (g b)) ->
  sim eq (modify g) (modify g').
Proof. intros Hg b. split; [apply Hg|reflexivity]. Qed.

Lemma sim_bind {A B} (R : A -> A -> Prop) (R' : B -> B -> Prop)
    (m m' : M A) (f f' : A -> M B) :
  sim R m m' -> (forall a a', R a a' -> sim R' (f a) (f' a')) ->
  sim R' (m ≫= f) (m' ≫= f').
Proof.
  intros Hm Hf b. destruct (Hm b) as [Hfin Hres].
  unfold mbind, M_mbind, bind.
  destruct (m b) as [b1 w1 [a| |]], (m' (without_lines b)) as [b1' w1' [a'| |]];
    cbn in *; try contradiction; try (split; [exact Hfin|exact I]).
  subst b1'. destruct (Hf a a' Hres b1) as [Hfin' Hres']. split; assumption.
Qed.

Lemma sim_for_each {A} (body body' : A -> M unit) (l l' : list A) (R : A -> A -> Prop) :
  Forall2 R l l' -> (forall x x', R x x' -> sim eq (body x) (body' x')) ->
  sim eq (for_each body l) (for_each body' l').
Proof.
  intros Hl Hbody. induction Hl as [|x x' l l' Hx Hl IH]; cbn [for_each].
  - apply sim_ret. reflexivity.
  - eapply sim_bind; [apply Hbody, Hx|]. intros _ _ _. exact IH.
Qed.

Lemma sim_front {A} (l : list A) : sim eq (front l) (front l).
Proof. destruct l; [apply sim_throw|apply sim_ret; reflexivity]. Qed.

Lemma sim_back {A} (l : list A) : sim eq (back l) (back l).
Proof. unfold back. destruct (last l); [apply sim_ret; reflexivity|apply sim_throw]. Qed.

Lemma sim_samples_at i :
  sim (fun s s' => s' = content s) (samples_at i) (samples_at i).
Proof.
  unfold samples_at.
  eapply (sim_bind (fun m m' => m' = content <$> m)); [apply sim_gets; reflexivity|].
  intros m m' ->. rewrite lookup_fmap.
  destruct (m !! i); cbn; [apply sim_ret; reflexivity|apply sim_throw].
Qed.

Lemma sim_children_at i : sim eq (children_at i) (children_at i).
Proof.
  unfold children_at. eapply (sim_bind eq); [apply sim_gets; reflexivity|].
  intros m m' <-. destruct (m !! i); [apply sim_ret; reflexivity|apply sim_throw].
Qed.

Lemma sim_get_child_count i : sim eq (get_child_count i) (get_child_count i).
Proof.
  unfold get_child_count. eapply (sim_bind eq); [apply sim_gets; reflexivity|].
  intros m m' <-. destruct (m !! i); apply sim_ret; reflexivity.
Qed.

Lemma sim_set_morph (f : Morphology -> Morphology) : sim eq (set_morph f) (set_morph f).
Proof. apply sim_modify. reflexivity. Qed.

Lemma sim_append_section section_id parent_id ty properties is_root :
  sim eq (append_section section_id parent_id ty properties is_root)
         (append_section section_id parent_id ty properties is_root).
Proof.
  unfold append_section.
  eapply (sim_bind eq); [|intros h h' <-; apply sim_modify; reflexivity].
  destruct is_root.
  - eapply (sim_bind eq); [apply sim_gets; reflexivity|]. intros m m' <-.
    destruct (appendRootSection properties ty m) as [h m1].
    eapply (sim_bind eq); [apply sim_set_morph|]. intros _ _ _. apply sim_ret. reflexivity.
  - eapply (sim_bind eq); [apply sim_gets; reflexivity|]. intros d d' <-.
    destruct (d !! parent_id) as [parent|]; [|apply sim_throw].
    eapply (sim_bind eq); [apply sim_gets; reflexivity|]. intros m m' <-.
    destruct (appendSection parent properties ty m) as [h m1].
    eapply (sim_bind eq); [apply sim_set_morph|]. intros _ _ _. apply sim_ret. reflexivity.
Qed.

Lemma sim_collapse steps : forall i properties children_count,
  sim eq (collapse steps i properties children_count)
         (collapse steps i properties children_count).
Proof.
  induction steps as [|steps IH]; intros i properties children_count; cbn [collapse].
  - apply sim_out_of_fuel.
  - destruct (children_count =? 1); [|apply sim_ret; reflexivity].
    eapply sim_bind; [apply sim_samples_at|]. intros sample sample' ->.
    eapply (sim_bind eq); [apply sim_children_at|]. intros ids ids' <-.
    eapply (sim_bind eq); [apply sim_front|]. intros first first' <-.
    eapply sim_bind; [apply sim_samples_at|]. intros next next' ->.
    cbn [content type].
    destruct (negb (type sample =? type next)); [apply sim_ret; reflexivity|].
    eapply (sim_bind eq); [apply sim_get_child_count|]. intros n n' <-.
    apply IH.
Qed.

Lemma sim_assembleSections steps fuel : forall i parent_id start_point start_diameter is_root,
  sim eq (assembleSections steps fuel i parent_id start_point start_diameter is_root)
         (assembleSections steps fuel i parent_id start_point start_diameter is_root).
Proof.
  induction fuel as [|fuel IH];
    intros i parent_id start_point start_diameter is_root; cbn [assembleSections].
  - apply sim_out_of_fuel.
  - eapply sim_bind; [apply sim_samples_at|]. intros sample sample' ->.
    cbn [content point].
    eapply (sim_bind eq); [apply sim_get_child_count|]. intros n n' <-.
    eapply (sim_bind eq); [apply sim_collapse|].
    intros [[i' properties'] children_count] ? <-.
    eapply sim_bind; [apply sim_samples_at|]. intros last_sample ? ->.
    change (push_back properties' (content last_sample))
      with (push_back properties' last_sample).
    cbn [content type].
    eapply (sim_bind eq); [apply sim_append_section|]. intros _ _ _.
    destruct (children_count =? 0); [apply sim_ret; reflexivity|].
    eapply (sim_bind eq); [apply sim_back|]. intros p ? <-.
    eapply (sim_bind eq); [apply sim_back|]. intros d ? <-.
    eapply (sim_bind eq); [apply sim_children_at|]. intros ids ? <-.
    destruct (children_count =? 1).
    + eapply (sim_bind eq); [apply sim_front|]. intros first ? <-. apply IH.
    + apply (sim_for_each _ _ ids ids eq); [reflexivity|].
      intros x ? <-. apply IH.
Qed.

Lemma Forall2_content (l : list Sample) :
  Forall2 (fun s s' => s' = content s) l (map content l).
Proof. induction l; constructor; [reflexivity|assumption]. Qed.

Lemma sim_assemble_from steps fuel root_sample :
  sim eq (assemble_from steps fuel root_sample)
         (assemble_from steps fuel (content root_sample)).
Proof.
  unfold assemble_from. cbn [content id type].
  eapply (sim_bind eq); [apply sim_gets; reflexivity|]. intros c ? <-.
  destruct (c !! id root_sample) as [ids|]; [|apply sim_ret; reflexivity].
  eapply (sim_bind eq); [apply sim_gets; reflexivity|]. intros m ? <-.
  eapply (sim_bind eq).
  { destruct (_ && _); [apply sim_printError|apply sim_ret; reflexivity]. }
  intros _ _ _. induction ids as [|child_id ids IH]; cbn [assemble_root].
  - apply sim_ret. reflexivity.
  - eapply sim_bind; [apply sim_samples_at|]. intros child ? ->.
    cbn [content id type point diameter].
    destruct (type child =? SECTION_SOMA); [exact IH|].
    destruct (type root_sample =? SECTION_SOMA).
    + eapply (sim_bind eq); [apply sim_gets; reflexivity|]. intros m' ? <-.
      eapply (sim_bind eq); [apply sim_front|]. intros p ? <-.
      eapply (sim_bind eq); [apply sim_front|]. intros d ? <-.
      eapply (sim_bind eq); [apply sim_assembleSections|]. intros _ _ _. exact IH.
    + apply sim_assembleSections.
Qed.

Lemma sim_check_parent s : sim eq (check_parent s) (check_parent (content s)).
Proof.
  unfold check_parent. cbn [content parentId].
  eapply (sim_bind (fun m m' => m' = content <$> m)); [apply sim_gets; reflexivity|].
  intros m ? ->.
  replace (bool_decide (is_Some ((content <$> m) !! parentId s)))
    with (bool_decide (is_Some (m !! parentId s)))
    by (apply bool_decide_ext; rewrite lookup_fmap, fmap_is_Some; reflexivity).
  destruct (_ && _); [apply sim_throw|apply sim_ret; reflexivity].
Qed.

Lemma soma_children_content (m : gmap Z Sample) ids :
  soma_children (content <$> m) ids = map content (soma_children m ids).
Proof.
  unfold soma_children. induction ids as [|i ids IH]; [reflexivity|].
  cbn [omap list_omap]. rewrite lookup_fmap, IH.
  destruct (m !! i) as [c|]; cbn; [|reflexivity].
  destruct (type c =? SECTION_SOMA); reflexivity.
Qed.

Lemma sim_cylinder_loop l : forall parent_count,
  sim eq (cylinder_loop l parent_count) (cylinder_loop (map content l) parent_count).
Proof.
  induction l as [|s l IH]; intros parent_count; cbn [map cylinder_loop].
  - apply sim_ret. reflexivity.
  - eapply (sim_bind eq); [|intros n ? <-; apply IH].
    unfold cylinder_step. cbn [content id parentId point diameter].
    eapply (sim_bind (fun m m' => m' = content <$> m)); [apply sim_gets; reflexivity|].
    intros m ? ->.
    eapply (sim_bind eq); [apply sim_gets; reflexivity|]. intros c ? <-.
    eapply (sim_bind eq).
    { destruct (parentId s =? SWC_ROOT); [apply sim_ret; reflexivity|].
      rewrite lookup_fmap. destruct (m !! parentId s) as [p|]; cbn; [|apply sim_throw].
      destruct (negb (type p =? SECTION_SOMA)); [apply sim_throw|apply sim_ret; reflexivity]. }
    intros n ? <-.
    eapply (sim_bind eq).
    { destruct (c !! id s) as [ids|]; [|apply sim_ret; reflexivity].
      destruct (1 <? Z.of_nat (length ids)); [|apply sim_ret; reflexivity].
      rewrite soma_children_content, length_map.
      destruct (1 <? _); [apply sim_throw|apply sim_ret; reflexivity]. }
    intros _ _ _.
    eapply (sim_bind eq); [apply sim_set_morph|]. intros _ _ _.
    apply sim_ret. reflexivity.
Qed.

Lemma sim_build_soma soma_samples :
  sim eq (build_soma soma_samples) (build_soma (map content soma_samples)).
Proof.
  assert (Hcyl : forall l, sim eq (build_soma_cylinders l)
                                  (build_soma_cylinders (map content l))).
  { intros l. unfold build_soma_cylinders.
    eapply (sim_bind eq); [apply sim_set_morph|]. intros _ _ _.
    eapply (sim_bind eq); [apply sim_cylinder_loop|]. intros n ? <-.
    destruct (1 <? n); [apply sim_throw|apply sim_ret; reflexivity]. }
  destruct soma_samples as [|s1 [|s2 [|s3 [|s4 l]]]];
    [| | apply (Hcyl [s1; s2]) | | apply (Hcyl (s1 :: s2 :: s3 :: s4 :: l))].
  - apply sim_set_morph.
  - cbn [map build_soma content parentId point diameter].
    eapply (sim_bind eq).
    { destruct (negb (parentId s1 =? SWC_ROOT)); [|apply sim_ret; reflexivity].
      eapply sim_bind; [apply sim_samples_at|]. intros p ? ->.
      apply sim_ret. reflexivity. }
    intros [] ? <-; [apply sim_throw|apply sim_set_morph].
  - cbn [map build_soma]. cbn [content id parentId point diameter].
    destruct (_ && _); [|apply (Hcyl [s1; s2; s3])].
    eapply (sim_bind eq); [apply sim_set_morph|]. intros _ _ _.
    intros b. rewrite !three_point_check. split; reflexivity.
Qed.

Lemma sim_index_samples samples samples' l : forall sa ra,
  sim (fun acc acc' => acc' = (map content (fst acc), map content (snd acc)))
    (index_samples samples l (sa, ra))
    (index_samples samples' (map content l) (map content sa, map content ra)).
Proof.
  induction l as [|s l IH]; intros sa ra; cbn [map index_samples].
  - apply sim_ret. reflexivity.
  - eapply (sim_bind (fun acc acc' => acc' = (map content (fst acc), map content (snd acc))));
      [|intros [sa1 ra1] ? ->; apply IH].
    unfold index_sample. cbn [content id type parentId diameter lineNumber].
    eapply (sim_bind eq).
    { destruct (flt _ _); [apply sim_printError|apply sim_ret; reflexivity]. }
    intros _ _ _. destruct (_ =? _); [apply sim_throw|].
    destruct (_ || _); [apply sim_throw|].
    eapply (sim_bind eq).
    { destruct (_ && _); [apply sim_printError|apply sim_ret; reflexivity]. }
    intros _ _ _.
    eapply (sim_bind eq).
    { unfold insert_sample. cbn [content id].
      eapply (sim_bind (fun m m' => m' = content <$> m)); [apply sim_gets; reflexivity|].
      intros m ? ->. rewrite lookup_fmap.
      destruct (m !! id s); cbn; [apply sim_ret; reflexivity|].
      eapply (sim_bind eq); [|intros _ _ _; apply sim_ret; reflexivity].
      apply sim_modify. intros b. unfold without_lines. cbn. rewrite fmap_insert. reflexivity. }
    intros inserted ? <-. destruct (negb inserted); [apply sim_throw|].
    eapply (sim_bind eq); [apply sim_modify; reflexivity|]. intros _ _ _.
    apply sim_ret. cbn [fst snd].
    destruct (type s =? SECTION_SOMA), (_ || _); rewrite ?map_app; reflexivity.
Qed.

Lemma sim_buildSWC steps fuel l :
  sim eq (buildSWC_fuel steps fuel l) (buildSWC_fuel steps fuel (map content l)).
Proof.
  unfold buildSWC_fuel.
  eapply sim_bind; [apply (sim_index_samples l (map content l) l [] [])|].
  intros [sa ra] ? ->. cbn [fst snd].
  eapply (sim_bind eq).
  { apply (sim_for_each _ _ _ _ _ (Forall2_content l)). intros s ? ->. apply sim_check_parent. }
  intros _ _ _.
  eapply (sim_bind eq); [apply sim_build_soma|]. intros _ _ _.
  apply (sim_for_each _ _ _ _ _ (Forall2_content ra)). intros s ? ->. apply sim_assemble_from.
Qed.

(** [buildSWC] on records and on the same records without their line
    numbers: the same soma and sections, and the same kind of end. *)
Lemma buildSWC_without_lines steps fuel l :
  morph_ (final (buildSWC_fuel steps fuel (records l) new_builder)) =
  morph_ (final (buildSWC_fuel steps fuel l new_builder)) /\
  (result (buildSWC_fuel steps fuel l new_builder) = Ok tt <->
   result (buildSWC_fuel steps fuel (records l) new_builder) = Ok tt).
Proof.
  destruct (sim_buildSWC steps fuel l new_builder) as [Hfin Hres].
  assert (E : without_lines new_builder = new_builder)
    by (unfold without_lines, new_builder; cbn; rewrite fmap_empty; reflexivity).
  rewrite E in Hfin, Hres. unfold records. rewrite Hfin. split; [reflexivity|].
  destruct (result (buildSWC_fuel steps fuel l new_builder)) as [[]| |],
    (result (buildSWC_fuel steps fuel (map content l) new_builder)) as [[]| |];
    cbn in Hres; try contradiction; split; intros; (reflexivity || discriminate).
Qed.

End LineNumbers.

(** C4, amended: when the records of a file are reordered, so that for
    instance a child that came before its parent comes after it, [buildSWC]
    returns on one order if it returns on the other, with the same soma and
    the same sections, provided the reordering keeps the relative order of the
    soma records, of the root records and of the children of each parent.
    Records are compared without their line numbers. *)
Theorem reordered_file_same_output `{Float : FloatOps} `{Enum : SectionTypes}
    (l l' : list Sample) :
  records l ≡ₚ records l' ->
  List.filter is_soma (records l) = List.filter is_soma (records l') ->
  List.filter is_root (records l) = List.filter is_root (records l') ->
  (forall p, siblings p (records l) = siblings p (records l')) ->
  result (buildSWC l' new_builder) = Ok tt ->
  result (buildSWC l new_builder) = Ok tt /\
  morph_ (final (buildSWC l new_builder)) = morph_ (final (buildSWC l' new_builder)).
Proof.
  intros Hperm Hsoma Hroot Hsib Hres.
  assert (Hlen : forall k : list Sample, length (records k) = length k)
    by (intros k; apply length_map).
  assert (Hrec : forall k, buildSWC (records k) new_builder =
                           buildSWC_fuel (S (length k)) (S (length k)) (records k) new_builder)
    by (intros k; unfold buildSWC; rewrite Hlen; reflexivity).
  destruct (buildSWC_without_lines (S (length l)) (S (length l)) l) as [Hm Hr].
  destruct (buildSWC_without_lines (S (length l')) (S (length l')) l') as [Hm' Hr'].
  rewrite <- !Hrec in *. fold (buildSWC l new_builder) in *.
  fold (buildSWC l' new_builder) in *.
  destruct (reordered_records_same_output (records l) (records l')
              Hperm Hsoma Hroot Hsib (proj1 Hr' Hres)) as (Hok & Hfin & _).
  split; [apply Hr, Hok|]. rewrite <- Hm, <- Hm', Hfin. reflexivity.
Qed.

Section RecordOrderWitness.
Import Rational Scenario.

(** The amended C4 on a file of two lines, an axon sample and its parent, the
    soma sample: with the child first the output is that of the file with the
    parent first. *)
Lemma reordered_file_same_output_witness :
  (records child_line_first ≡ₚ records parent_line_first /\
   result (buildSWC parent_line_first new_builder) = Ok tt) /\
  result (buildSWC child_line_first new_builder) = Ok tt /\
  morph_ (final (buildSWC child_line_first new_builder)) =
  morph_ (final (buildSWC parent_line_first new_builder)).
Proof.
  assert (Hperm : records child_line_first ≡ₚ records parent_line_first)
    by apply perm_swap.
  assert (Hres : result (buildSWC parent_line_first new_builder) = Ok tt)
    by (vm_compute; reflexivity).
  assert (Hsib : forall p, siblings p (records child_line_first) =
                           siblings p (records parent_line_first)).
  { intros p.
    unfold siblings, records, child_line_first, parent_line_first, axon_sample, soma_sample.
    cbn [map List.filter content parentId].
    destruct (Z.eqb_spec 1 p) as [E1|E1], (Z.eqb_spec SWC_ROOT p) as [E2|E2];
      try reflexivity.
    exfalso. rewrite <- E1 in E2. discriminate E2. }
  split; [split; assumption|].
  exact (reordered_file_same_output child_line_first parent_line_first
           Hperm eq_refl eq_refl Hsib Hres).
Defined.

End RecordOrderWitness.

(** * Further properties of the reader *)

(** ** The tokenizer: where the cursor stops *)

Section TokenizerStops.
Context `{Num : StringToNumber}.

(** [skip_to] changes the cursor only. *)
Lemma skip_to_line contents value t :
  skip_to contents value t = mkTok (pos_ (skip_to contents value t)) (line_ t).
Proof. unfold skip_to. destruct (_ =? npos); reflexivity. Qed.

(** [skip_to] in front of bytes that are not [value], followed by
    [value]. *)
Lemma skip_to_first pre skipped value rest t :
  Forall (fun c => c <> value) skipped ->
  pos_ t = Z.of_nat (length pre) ->
  skip_to (pre ++ skipped ++ value :: rest) value t =
    mkTok (Z.of_nat (length (pre ++ skipped))) (line_ t).
Proof.
  intros Hskipped Hpos.
  rewrite skip_to_line, (skip_to_found pre skipped value rest t), length_app;
    [f_equal; lia| |exact Hpos].
  eapply Forall_impl; [exact Hskipped|]. intros c Hc. cbv beta.
  apply Ascii.eqb_neq. congruence.
Qed.

(** X1: with the cursor in front of a run of bytes that are not [value],
    followed by [value], [skip_to] puts the cursor on that first occurrence
    and leaves the line counter as it is. *)
Theorem skip_to_stops_at_first_occurrence contents pre skipped value rest t :
  contents = pre ++ skipped ++ value :: rest ->
  Forall (fun c => c <> value) skipped ->
  pos_ t = Z.of_nat (length pre) ->
  skip_to contents value t = mkTok (Z.of_nat (length (pre ++ skipped))) (line_ t) /\
  contents !! length (pre ++ skipped) = Some value.
Proof.
  intros -> Hskipped Hpos. split.
  - apply skip_to_first; assumption.
  - rewrite app_assoc. apply list_lookup_middle. reflexivity.
Qed.

Section Stops.
Variable contents : list ascii.
Hypothesis Hsize : size contents < 2 ^ 64.

Lemma find_if_found p (l : list ascii) : forall i,
  find_if p l i = npos \/
  exists c, l !! Z.to_nat (find_if p l i - i) = Some c /\ p c = true.
Proof.
  induction l as [|a l IH]; intros i; cbn [find_if]; [left; reflexivity|].
  destruct (p a) eqn:Hp.
  - right. exists a. rewrite Z.sub_diag. auto.
  - destruct (IH (i + 1)) as [E|(c & Hc & Hpc)]; [left; exact E|].
    destruct (find_if_range p l (i + 1)) as [E|E]; [left; exact E|].
    right. exists c. split; [|exact Hpc].
    replace (Z.to_nat (find_if p l (i + 1) - i))
      with (S (Z.to_nat (find_if p l (i + 1) - (i + 1)))) by lia.
    exact Hc.
Qed.

(** [advance_to_non_whitespace] leaves the cursor past the end or on a byte
    that is not a blank. *)
Lemma advance_stops t :
  0 <= pos_ t ->
  done contents (advance_to_non_whitespace contents t) = true \/
  exists c, at_ contents (pos_ (advance_to_non_whitespace contents t)) = Some c /\
            is_blank c = false.
Proof.
  intros Hpos. unfold advance_to_non_whitespace, find_first_not_of_blank.
  destruct (done contents t) eqn:Hdone; [left; exact Hdone|].
  unfold done in Hdone. rewrite Hdone. apply Z.leb_gt in Hdone.
  pose proof (find_if_range (fun c => negb (is_blank c))
                (drop (Z.to_nat (pos_ t)) contents) (pos_ t)) as Hrange.
  pose proof (find_if_found (fun c => negb (is_blank c))
                (drop (Z.to_nat (pos_ t)) contents) (pos_ t)) as Hfound.
  set (r := find_if _ _ _) in *.
  destruct (Z.eqb_spec r npos) as [E|E].
  - left. unfold done. cbn [set_pos pos_]. apply Z.leb_refl.
  - right. destruct Hrange as [?|Hrange]; [contradiction|].
    destruct Hfound as [?|(c & Hc & Hpc)]; [contradiction|].
    rewrite length_drop_pos in Hrange by lia.
    exists c. split; [|apply negb_true_iff, Hpc].
    cbn [set_pos pos_]. unfold at_.
    replace (0 <=? r) with true by (symmetry; apply Z.leb_le; lia).
    replace (r <? size contents) with true by (symmetry; apply Z.ltb_lt; lia).
    cbn [andb]. rewrite lookup_drop in Hc.
    replace (Z.to_nat r) with (Z.to_nat (pos_ t) + Z.to_nat (r - pos_ t))%nat by lia.
    exact Hc.
Qed.

(** When the loop of [consume_line_and_trailing_comments] returns, the cursor
    is past the end or on the first byte of a token. *)
Lemma consume_loop_stops fuel : forall found t found' t',
  0 <= pos_ t ->
  (done contents t = true \/
   exists c, at_ contents (pos_ t) = Some c /\ is_blank c = false) ->
  consume_loop contents fuel found t = Ok (found', t') ->
  at_token contents t'.
Proof.
  induction fuel as [|fuel IH]; intros found t found' t' Hpos Hstop; cbn [consume_loop];
    [discriminate|].
  destruct (done contents t) eqn:Hdone; cbn [negb andb].
  { intros [= _ <-]. left. exact Hdone. }
  destruct Hstop as [?|(c & Hat & Hblank)]; [discriminate|].
  unfold is_at. rewrite Hat.
  destruct (Ascii.eqb c "#") eqn:Hhash; cbn [orb].
  - apply Ascii.eqb_eq in Hhash. subst c.
    destruct (skip_progress contents Hsize t "#" Hat eq_refl) as [Hp1 _].
    destruct (advance_progress contents Hsize _ Hp1) as [Hp2 _].
    apply IH; [exact Hp2|apply advance_stops, Hp1].
  - destruct (Ascii.eqb c newline) eqn:Hnl.
    + assert (Hp1 : 0 <= size_t_wrap (pos_ t + 1))
        by (unfold size_t_wrap; apply Z.mod_pos_bound; lia).
      destruct (advance_progress contents Hsize
                  {| pos_ := size_t_wrap (pos_ t + 1); line_ := size_t_wrap (line_ t + 1) |}
                  Hp1) as [Hp2 _].
      apply IH; [exact Hp2|apply advance_stops, Hp1].
    + intros [= _ <-]. right. exists c. split; [exact Hat|].
      split; [exact Hblank|]. split; apply Ascii.eqb_neq; assumption.
Qed.

(** When [consume_line_and_trailing_comments] returns, the cursor is past
    the end or on the first byte of a token. *)
Lemma consume_line_stops t again t' :
  0 <= pos_ t ->
  consume_line_and_trailing_comments contents t = Ok (again, t') ->
  at_token contents t'.
Proof.
  intros Hpos E. unfold consume_line_and_trailing_comments in E.
  destruct (consume_loop contents (fuel_ contents) false
              (advance_to_non_whitespace contents t)) as [[found t1]| |] eqn:Eloop;
    cbn [mbind outcome_mbind outcome_bind] in E; try discriminate.
  injection E as _ <-.
  destruct (advance_progress contents Hsize t Hpos) as [Hp1 _].
  exact (consume_loop_stops _ _ _ _ _ Hp1 (advance_stops t Hpos) Eloop).
Qed.

(** X2: from any cursor inside or past the text,
    [consume_line_and_trailing_comments] returns, and it returns with the
    cursor past the end of the text or on the first byte of a token: a byte
    that is not a blank, a newline or the start of a comment.  The number
    of bytes left after the cursor never grows. *)
Theorem consume_line_stops_at_token t :
  0 <= pos_ t ->
  exists again t',
    consume_line_and_trailing_comments contents t = Ok (again, t') /\
    at_token contents t' /\
    bytes_left contents t' <= bytes_left contents t.
Proof.
  intros Hpos.
  destruct (consume_line_total contents Hsize t Hpos) as (again & t' & E & _ & Hleft & _).
  exists again, t'. split; [exact E|]. split; [|exact Hleft].
  exact (consume_line_stops t again t' Hpos E).
Qed.

(** X3: from any cursor inside or past the text, [advance_to_number] ends in
    one of three ways: it returns with the cursor on a digit, a sign or a
    dot; it throws [EARLY_END_OF_FILE]; or it throws
    [ERROR_LINE_NON_PARSABLE].  Its loop does not need more turns than the
    text has bytes, and [at()] is never called outside the text. *)
Theorem advance_to_number_outcomes t :
  0 <= pos_ t ->
  match advance_to_number contents t with
  | Ok t' => exists c, at_ contents (pos_ t') = Some c /\ number_start c = true
  | Throw (RawDataError (EARLY_END_OF_FILE _)) => True
  | Throw (RawDataError (ERROR_LINE_NON_PARSABLE _)) => True
  | _ => False
  end.
Proof.
  intros Hpos.
  destruct (advance_to_number_total contents Hsize t Hpos)
    as [(t' & c & -> & Hc)|[(line & ->)|(line & ->)]]; eauto.
Qed.

End Stops.

Section Comments.
Variable contents : list ascii.
Hypothesis Hsize : size contents < 2 ^ 64.

(** X4: with the cursor on the [#] of a comment that a newline ends,
    [consume_line_and_trailing_comments] skips the comment whatever it holds,
    its newline and the blanks and newlines that follow, stops on the next
    token, counts the lines it crossed and reports an end of line. *)
Theorem comment_is_skipped pre body gap x rest t :
  contents = pre ++ "#"%char :: body ++ newline :: gap ++ x :: rest ->
  Forall (fun c => c <> newline) body ->
  Forall (fun c => gap_char c = true) gap ->
  token_start x ->
  pos_ t = Z.of_nat (length pre) ->
  0 <= line_ t -> line_ t + 1 + Z.of_nat (length gap) < 2 ^ 64 ->
  consume_line_and_trailing_comments contents t =
    Ok (true, mkTok (Z.of_nat (length (pre ++ "#"%char :: body ++ newline :: gap)))
                    (line_ t + 1 + count_newlines gap)).
Proof.
  intros Hc Hbody Hgap Hx Hpos Hline Hbound.
  unfold consume_line_and_trailing_comments.
  rewrite (advance_over_blanks contents Hsize pre [] "#"
             (body ++ newline :: gap ++ x :: rest) t Hc (Forall_nil_2 _) eq_refl Hpos).
  unfold fuel_.
  rewrite (consume_loop_at contents Hsize pre "#" (body ++ newline :: gap ++ x :: rest)
             _ (length contents) false Hc) by (cbn; lia).
  cbn [Ascii.eqb Bool.eqb].
  set (t1 := {| pos_ := _; line_ := line_ t |}).
  assert (Hskip : skip_to contents newline t1 =
                  mkTok (Z.of_nat (length (pre ++ "#"%char :: body))) (line_ t1)).
  { rewrite Hc at 1.
    apply (skip_to_first pre ("#"%char :: body) newline (gap ++ x :: rest) t1).
    - constructor; [discriminate|exact Hbody].
    - unfold t1. cbn. lia. }
  rewrite Hskip.
  assert (Hc' : contents = (pre ++ "#"%char :: body) ++ (newline :: gap) ++ x :: rest)
    by (rewrite Hc, <- app_assoc; reflexivity).
  rewrite (consume_gap contents Hsize x rest Hx (newline :: gap) (pre ++ "#"%char :: body)
             (mkTok _ (line_ t1)) false (length contents) Hc');
    [|constructor; [reflexivity|exact Hgap]|reflexivity|unfold t1; cbn; lia
     |unfold t1; cbn [line_ length]; lia
     |rewrite Hc; repeat (rewrite length_app; cbn [length]); lia].
  cbn [mbind outcome_mbind outcome_bind has_newline existsb orb].
  rewrite Ascii.eqb_refl. cbn [orb].
  unfold count_newlines, t1. cbn [List.filter line_]. rewrite Ascii.eqb_refl.
  cbn [length]. rewrite <- app_assoc. cbn [app]. do 2 f_equal. f_equal. lia.
Qed.

(** X5: with the cursor on the [#] of a comment that runs to the end of the
    text without a newline, [consume_line_and_trailing_comments] ends the
    reading: it reports an end of line and leaves the tokenizer done, with
    the cursor at [npos] and not at the size of the text. *)
Theorem unterminated_comment_ends_text pre body t :
  contents = pre ++ "#"%char :: body ->
  Forall (fun c => c <> newline) body ->
  pos_ t = Z.of_nat (length pre) ->
  consume_line_and_trailing_comments contents t = Ok (true, mkTok npos (line_ t)) /\
  done contents (mkTok npos (line_ t)) = true.
Proof.
  intros Hc Hbody Hpos.
  assert (Hdone : done contents (mkTok npos (line_ t)) = true)
    by (unfold done; cbn [pos_]; apply Z.leb_le; unfold npos; lia).
  split; [|exact Hdone].
  unfold consume_line_and_trailing_comments.
  rewrite (advance_over_blanks contents Hsize pre [] "#" body t Hc (Forall_nil_2 _)
             eq_refl Hpos).
  unfold fuel_.
  rewrite (consume_loop_at contents Hsize pre "#" body _ (length contents) false Hc)
    by (cbn; lia).
  cbn [Ascii.eqb Bool.eqb].
  set (t1 := {| pos_ := _; line_ := line_ t |}).
  assert (Hskip : skip_to contents newline t1 = mkTok npos (line_ t)).
  { rewrite skip_to_line. f_equal. rewrite Hc.
    apply (skip_to_absent pre ("#"%char :: body) newline t1).
    - constructor; [reflexivity|].
      eapply Forall_impl; [exact Hbody|]. intros c Hne. cbv beta.
      apply Ascii.eqb_neq. congruence.
    - unfold t1. cbn. lia. }
  rewrite Hskip. unfold advance_to_non_whitespace. rewrite Hdone.
  destruct (length contents) as [|n] eqn:Hn;
    [rewrite Hc, length_app in Hn; cbn [length] in Hn; lia|].
  cbn [consume_loop]. rewrite Hdone. cbn [negb andb mbind outcome_mbind outcome_bind orb].
  rewrite Hdone. reflexivity.
Qed.

End Comments.

End TokenizerStops.

(** ** [readSamples] *)

Section Reading.
Context `{Num : StringToNumber} `{Enum : SectionTypes}.

(** X6: a text of blanks and newlines only, the empty text included, holds
    no sample: [readSamples] returns the empty vector and [load] returns the
    empty morphology, with a soma of type [SOMA_UNDEFINED], no section and no
    warning. *)
Theorem blank_text_has_no_sample (contents : list ascii) :
  size contents < 2 ^ 64 ->
  Forall (fun c => gap_char c = true) contents ->
  readSamples contents = Ok [] /\
  load contents = mkRun new_builder [] (Ok tt).
Proof.
  intros Hsize Hall.
  assert (Hread : readSamples contents = Ok []).
  { unfold readSamples.
    destruct (consume_line_total contents Hsize (mkTok 0 1) (Z.le_refl 0))
      as (again & t' & E & _).
    pose proof (consume_line_stops contents Hsize (mkTok 0 1) _ _ (Z.le_refl 0) E) as Hstop.
    rewrite E. cbn [mbind outcome_mbind outcome_bind].
    assert (Hdone : done contents t' = true).
    { destruct Hstop as [Hd|(c & Hat & Hblank & Hnl & _)]; [exact Hd|exfalso].
      destruct (drop_at _ _ _ Hat) as [_ Hdrop].
      assert (Hin : c ∈ contents).
      { rewrite <- (take_drop (Z.to_nat (pos_ t')) contents), Hdrop.
        apply elem_of_app. right. left. }
      rewrite Forall_forall in Hall. specialize (Hall c Hin).
      unfold gap_char in Hall. rewrite Hblank in Hall. cbn [orb] in Hall.
      apply Ascii.eqb_eq in Hall. contradiction. }
    unfold fuel_. cbn [readSamples_loop]. rewrite Hdone. reflexivity. }
  split; [exact Hread|]. unfold load. rewrite Hread. reflexivity.
Qed.

(** X7: the conversions of [readSample].  When the seven fields of a record
    are read, with an id [i] that is not negative and a parent [parent] that
    is not below [-1], and the record ends its line, [readSample] returns a
    sample whose id is [i] modulo 2^32 (so [i] itself when it fits an
    [unsigned int]), whose parent is [SWC_ROOT] when [parent] is [-1] and
    [parent] modulo 2^32 otherwise (so, besides [-1], every [parent] that is
    [SWC_ROOT] modulo 2^32 is stored as [SWC_ROOT]), whose line number is the
    line of the tokenizer before the record, modulo 2^32, whose point is
    made of the three coordinates read and whose diameter is twice the
    radius read. *)
Theorem readSample_converts_fields (contents : list ascii)
    (t0 t1 t2 t3 t4 t5 t6 t7 t' : SWCTokenizer)
    (i ty parent : Z) (x y z radius : floatType) :
  read_int contents t0 = Ok (i, t1) -> 0 <= i ->
  read_int contents t1 = Ok (ty, t2) ->
  read_float contents t2 = Ok (x, t3) ->
  read_float contents t3 = Ok (y, t4) ->
  read_float contents t4 = Ok (z, t5) ->
  read_float contents t5 = Ok (radius, t6) ->
  read_int contents t6 = Ok (parent, t7) -> -1 <= parent ->
  consume_line_and_trailing_comments contents t7 = Ok (true, t') ->
  exists s, readSample contents t0 = Ok (s, t') /\
    id s = i mod 2 ^ 32 /\
    (i < 2 ^ 32 -> id s = i) /\
    parentId s = (if parent =? -1 then SWC_ROOT else parent mod 2 ^ 32) /\
    (parentId s = SWC_ROOT <-> parent = -1 \/ parent mod 2 ^ 32 = SWC_ROOT) /\
    (0 <= parent < 2 ^ 32 -> parentId s = parent) /\
    lineNumber s = line_ t0 mod 2 ^ 32 /\
    point s = (x, y, z) /\
    diameter s = fmul (float_of_int 2) radius.
Proof.
  intros H1 Hi H2 H3 H4 H5 H6 H7 Hparent Hend.
  eexists. split.
  - unfold readSample.
    rewrite H1. cbn [mbind outcome_mbind outcome_bind].
    replace (i <? 0) with false by (symmetry; apply Z.ltb_ge; lia).
    rewrite H2. cbn [mbind outcome_mbind outcome_bind].
    rewrite H3. cbn [mbind outcome_mbind outcome_bind].
    rewrite H4. cbn [mbind outcome_mbind outcome_bind].
    rewrite H5. cbn [mbind outcome_mbind outcome_bind].
    rewrite H6. cbn [mbind outcome_mbind outcome_bind].
    rewrite H7. cbn [mbind outcome_mbind outcome_bind].
    replace (parent <? -1) with false by (symmetry; apply Z.ltb_ge; lia).
    rewrite Hend. cbn [mbind outcome_mbind outcome_bind negb]. reflexivity.
  - cbn [id parentId lineNumber point diameter].
    unfold uint32_wrap, lineNumber_, SWC_UNDEFINED_PARENT, SWC_ROOT.
    repeat split; try reflexivity.
    + intros Hfit. apply Z.mod_small. lia.
    + destruct (parent =? -1) eqn:E; [left; apply Z.eqb_eq; exact E|right; assumption].
    + intros [->|Hwrap]; [reflexivity|]. destruct (parent =? -1); [reflexivity|exact Hwrap].
    + intros Hfit. destruct (parent =? -1) eqn:E; [apply Z.eqb_eq in E; lia|].
      apply Z.mod_small. lia.
Qed.

End Reading.

(** ** The two validation loops of [buildSWC] *)

Section Validation.
Context `{Float : FloatOps} `{Enum : SectionTypes}.

(** A sample that the first loop refuses: the exception is decided by the
    order of the tests, and the builder is left as it was. *)
Lemma index_sample_refused samples s acc b :
  ~ (well_formed s /\ samples_ b !! id s = None) ->
  result (index_sample samples s acc b) = Throw (RawDataError (refusal samples s)) /\
  final (index_sample samples s acc b) = b.
Proof.
  intros Hbad. destruct acc as [sa ra].
  unfold index_sample, refusal, insert_sample, push_child.
  destruct (flt (diameter s) epsilon);
  (destruct (Z.eqb_spec (parentId s) (id s)); [repeat mstep; split; reflexivity|]);
  (destruct (Z.leb_spec SECTION_OUT_OF_RANGE_START (type s));
     [repeat mstep; split; reflexivity|]);
  (destruct (Z.leb_spec (type s) 0); [repeat mstep; split; reflexivity|]);
  cbn [orb];
  (destruct (samples_ b !! id s) eqn:E;
     [|exfalso; apply Hbad; unfold well_formed; repeat split; (assumption || lia)]);
  destruct ((parentId s =? SWC_ROOT) && negb (type s =? SECTION_SOMA));
  repeat mstep; rewrite ?E; repeat mstep; cbn [negb]; repeat mstep; split; reflexivity.
Qed.

(** The ids in the sample index are those of the samples. *)
Lemma indexed_ids l i :
  NoDup (map id l) ->
  is_Some (samples_ (foldl indexed new_builder l) !! i) <-> i ∈ map id l.
Proof.
  intros Hnd. split.
  - intros [s Hs]. apply (indexed_samples l new_builder i s Hnd) in Hs as [[Hin <-]|[Hs _]].
    + apply list_elem_of_fmap. eauto.
    + cbn in Hs. rewrite lookup_empty in Hs. discriminate.
  - intros Hin. apply list_elem_of_fmap in Hin as (s & -> & Hin).
    exists s. apply (indexed_samples l new_builder (id s) s Hnd). left. auto.
Qed.

Lemma resolves_iff l s :
  NoDup (map id l) ->
  parent_resolves (samples_ (foldl indexed new_builder l)) s <-> has_parent_in l s.
Proof.
  intros Hnd. unfold parent_resolves, has_parent_in. rewrite (indexed_ids l _ Hnd). tauto.
Qed.

Lemma resolve_all_iff l l' :
  NoDup (map id l) ->
  Forall (parent_resolves (samples_ (foldl indexed new_builder l))) l' <->
  Forall (has_parent_in l) l'.
Proof.
  intros Hnd. rewrite !Forall_forall. split; intros Hall s Hin;
    apply (resolves_iff l s Hnd), Hall, Hin.
Qed.

(** [check_parent] never changes the builder. *)
Lemma check_parents_final l b : final (for_each check_parent l b) = b.
Proof.
  induction l as [|s l IH]; [reflexivity|]. cbn [for_each].
  destruct (check_parent_cases s b) as [[_ E]|[_ E]].
  - rewrite (bind_ok _ _ _ _ _ _ E). cbn [final]. exact IH.
  - unfold mbind, M_mbind, bind. rewrite E. reflexivity.
Qed.

(** X8: the first sample that the first loop of [buildSWC] refuses decides
    the error.  After samples that are well formed and have distinct ids, a
    sample that is its own parent, has an unsupported type or repeats an
    earlier id ends [buildSWC] with a [RawDataError]: [ERROR_SELF_PARENT]
    before [ERROR_UNSUPPORTED_SECTION_TYPE] before [ERROR_REPEATED_ID].  The
    builder is left with the index of the samples accepted so far, and no
    soma or section is built. *)
Theorem first_refused_sample_decides_error steps fuel l1 s l2 :
  Forall well_formed l1 -> NoDup (map id l1) ->
  ~ (well_formed s /\ id s ∉ map id l1) ->
  result (buildSWC_fuel steps fuel (l1 ++ s :: l2) new_builder) =
    Throw (RawDataError (refusal (l1 ++ s :: l2) s)) /\
  final (buildSWC_fuel steps fuel (l1 ++ s :: l2) new_builder) =
    foldl indexed new_builder l1.
Proof.
  intros Hwf Hnd Hbad. unfold buildSWC_fuel.
  set (l := l1 ++ s :: l2).
  assert (Hs : ~ (well_formed s /\ samples_ (foldl indexed new_builder l1) !! id s = None)).
  { intros [Hw Hnone]. apply Hbad. split; [exact Hw|].
    intros Hin. apply (indexed_ids l1 _ Hnd) in Hin as [x Hx]. congruence. }
  assert (Hidx : result (index_samples l l ([], []) new_builder) =
                   Throw (RawDataError (refusal l s)) /\
                 final (index_samples l l ([], []) new_builder) =
                   foldl indexed new_builder l1).
  { unfold l at 2 5. rewrite index_samples_app.
    rewrite (bind_ok _ _ _ _ _ _
               (index_samples_ok l l1 [] [] new_builder Hwf Hnd
                  (fun s _ => lookup_empty (id s)))).
    cbn [result final index_samples].
    destruct (index_sample_refused l s ([] ++ List.filter is_soma l1,
                                        [] ++ List.filter is_root l1)
                (foldl indexed new_builder l1) Hs) as [Hres Hfin].
    split; [apply bind_throws, Hres|].
    etransitivity; [apply bind_stop; rewrite Hres; discriminate|exact Hfin]. }
  destruct Hidx as [Hres Hfin].
  split; [apply bind_throws, Hres|].
  etransitivity; [apply bind_stop; rewrite Hres; discriminate|exact Hfin].
Qed.

(** X9: in a vector of well-formed samples with distinct ids, the first
    sample whose parent field is neither [-1] nor the id of a sample of the
    vector, wherever that sample stands, ends [buildSWC] with
    [MissingParentError]; the builder holds the index of all the samples and
    no soma or section is built. *)
Theorem first_missing_parent_decides_error steps fuel l1 s l2 :
  Forall well_formed (l1 ++ s :: l2) -> NoDup (map id (l1 ++ s :: l2)) ->
  Forall (has_parent_in (l1 ++ s :: l2)) l1 -> ~ has_parent_in (l1 ++ s :: l2) s ->
  result (buildSWC_fuel steps fuel (l1 ++ s :: l2) new_builder) =
    Throw (MissingParentError (ERROR_MISSING_PARENT s)) /\
  final (buildSWC_fuel steps fuel (l1 ++ s :: l2) new_builder) =
    foldl indexed new_builder (l1 ++ s :: l2).
Proof.
  intros Hwf Hnd Hl1 Hs.
  assert (Hres : result (buildSWC_fuel steps fuel (l1 ++ s :: l2) new_builder) =
                 Throw (MissingParentError (ERROR_MISSING_PARENT s))).
  { apply first_missing_parent_is_fatal; try assumption.
    - apply resolve_all_iff; assumption.
    - intros Hr. apply Hs, (resolves_iff _ _ Hnd), Hr. }
  split; [exact Hres|]. unfold buildSWC_fuel in *.
  rewrite (bind_ok _ _ _ _ _ _
             (index_samples_ok _ _ [] [] new_builder Hwf Hnd
                (fun s _ => lookup_empty (id s)))) in Hres |- *.
  cbn [final result app] in Hres |- *.
  set (b1 := foldl indexed new_builder (l1 ++ s :: l2)) in *.
  etransitivity; [|exact (check_parents_final (l1 ++ s :: l2) b1)].
  apply bind_stop. intros a Ha.
  destruct (result (for_each check_parent (l1 ++ s :: l2) b1)) as [[]| |] eqn:E;
    try discriminate.
  apply check_parents_inv in E. rewrite Forall_app, Forall_cons in E.
  destruct E as (_ & Hbad & _). apply Hs, (resolves_iff _ _ Hnd), Hbad.
Qed.

(** X10: [buildSWC] returns only on valid samples: each is well formed (it
    is not its own parent and its type is a section type), the ids are
    pairwise distinct, and every parent field is [-1] or the id of a sample
    of the vector, before or after it. *)
Theorem buildSWC_returns_on_valid_samples_only steps fuel (l : list Sample) x :
  result (buildSWC_fuel steps fuel l new_builder) = Ok x -> valid_samples l.
Proof.
  intros Hres. apply buildSWC_ok_inv in Hres as (Hwf & Hnd & Hpar).
  repeat split; try assumption. apply (resolve_all_iff l l Hnd), Hpar.
Qed.

End Validation.

(** ** After validation: the indices, the warnings, the line numbers *)

Section AfterValidation.
Context `{Float : FloatOps} `{Enum : SectionTypes}.

(** Whatever happens after the first loop, the two indices are left as the
    loop built them. *)
Lemma buildSWC_keeps_index steps fuel l :
  Forall well_formed l -> NoDup (map id l) ->
  samples_ (final (buildSWC_fuel steps fuel l new_builder)) =
    samples_ (foldl indexed new_builder l) /\
  children_ (final (buildSWC_fuel steps fuel l new_builder)) =
    children_ (foldl indexed new_builder l).
Proof.
  intros Hwf Hnd. unfold buildSWC_fuel.
  rewrite (bind_ok _ _ _ _ _ _
             (index_samples_ok l l [] [] new_builder Hwf Hnd
                (fun s _ => lookup_empty (id s)))).
  cbn [final app].
  set (b1 := foldl indexed new_builder l).
  destruct (indexed_morph l new_builder) as [Hmorph Hdecl]. fold b1 in Hmorph, Hdecl.
  assert (Hinv : assembly_invariant (samples_ b1) (children_ b1) b1).
  { repeat split.
    - intros d h Hd. rewrite Hdecl in Hd. discriminate.
    - rewrite Hmorph. intros k sec h Hk. discriminate. }
  assert (Hrest : hoare (assembly_invariant (samples_ b1) (children_ b1))
                    (for_each check_parent l ≫= fun _ =>
                       build_soma (List.filter is_soma l) ≫= fun _ =>
                         for_each (assemble_from steps fuel) (List.filter is_root l))
                    (fun _ => True)).
  { eapply (hoare_bind _ _ _ (fun _ => True) (fun _ => True)).
    - apply hoare_for_each. intros s _. apply hoare_check_parent.
    - intros _ _. eapply hoare_bind; [apply hoare_build_soma|].
      intros _ _. apply hoare_for_each. intros s _. apply hoare_assemble_from. }
  destruct (Hrest b1 Hinv) as [(Hs & Hc & _) _]. split; assumption.
Qed.

(** X11: once the first loop of [buildSWC] has accepted the samples (they
    are well formed and their ids are distinct), and whatever happens
    afterwards, the builder's sample index maps an id to the sample that has
    it and to nothing else, and the children index maps a parent id to the
    ids of the samples that name it as parent, in the order of the vector,
    and has no entry for an id that no sample names as parent. *)
Theorem index_holds_the_samples steps fuel l :
  Forall well_formed l -> NoDup (map id l) ->
  (forall i s,
     samples_ (final (buildSWC_fuel steps fuel l new_builder)) !! i = Some s <->
     s ∈ l /\ id s = i) /\
  (forall p,
     children_ (final (buildSWC_fuel steps fuel l new_builder)) !! p =
     match siblings p l with [] => None | c => Some (map id c) end).
Proof.
  intros Hwf Hnd. destruct (buildSWC_keeps_index steps fuel l Hwf Hnd) as [-> ->].
  split.
  - intros i s. rewrite (indexed_samples l new_builder i s Hnd). cbn [new_builder samples_].
    rewrite lookup_empty. split; [intros [?|[? _]]; [assumption|discriminate]|tauto].
  - intros p. rewrite indexed_children. cbn [new_builder children_].
    rewrite lookup_empty. destruct (siblings p l); reflexivity.
Qed.

(** *** Which warnings a call can raise *)

Section Warns.
Variable P : Warning -> Prop.

Lemma warns_ret {A} (a : A) : warns_only P (ret a).
Proof. intros b. constructor. Qed.

Lemma warns_throw {A} e : warns_only P (@throw _ A e).
Proof. intros b. constructor. Qed.

Lemma warns_out_of_fuel {A} : warns_only P (@out_of_fuel _ A).
Proof. intros b. constructor. Qed.

Lemma warns_gets {A} (g : SWCBuilder -> A) : warns_only P (gets g).
Proof. intros b. constructor. Qed.

Lemma warns_modify g : warns_only P (modify g).
Proof. intros b. constructor. Qed.

Lemma warns_printError w : P w -> warns_only P (printError w).
Proof. intros Hw b. constructor; [exact Hw|constructor]. Qed.

Lemma warns_bind {A B} (m : M A) (f : A -> M B) :
  warns_only P m -> (forall a, warns_only P (f a)) -> warns_only P (m ≫= f).
Proof.
  intros Hm Hf b. specialize (Hm b). unfold mbind, M_mbind, bind.
  destruct (m b) as [b1 w1 [a| |]]; cbn in *; try exact Hm.
  apply Forall_app. split; [exact Hm|apply Hf].
Qed.

Lemma warns_for_each {A} (body : A -> M unit) (l : list A) :
  (forall x, warns_only P (body x)) -> warns_only P (for_each body l).
Proof.
  intros Hbody. induction l as [|x l IH]; cbn [for_each].
  - apply warns_ret.
  - apply warns_bind; [apply Hbody|intros _; exact IH].
Qed.

End Warns.

Ltac warns :=
  repeat first
    [ assumption
    | apply warns_ret | apply warns_throw | apply warns_out_of_fuel
    | apply warns_gets | apply warns_modify
    | apply warns_printError; exact Logic.I
    | apply warns_for_each; intros ?
    | apply warns_bind; [|intros ?; cbv beta]
    | match goal with
      | |- warns_only _ (match ?x with _ => _ end) => destruct x
      end
    | progress cbv beta zeta ].

Lemma warns_assembleSections P steps fuel :
  forall i parent_id start_point start_diameter is_root,
  warns_only P (assembleSections steps fuel i parent_id start_point start_diameter is_root).
Proof.
  assert (Hcollapse : forall i properties children_count,
            warns_only P (collapse steps i properties children_count)).
  { induction steps as [|n IH]; intros i properties children_count; cbn [collapse].
    - apply warns_out_of_fuel.
    - unfold samples_at, children_at, front, get_child_count. warns; apply IH. }
  induction fuel as [|fuel IH];
    intros i parent_id start_point start_diameter is_root; cbn [assembleSections].
  - apply warns_out_of_fuel.
  - unfold samples_at, children_at, front, back, get_child_count, append_section, set_morph.
    warns; first [apply Hcollapse | apply IH].
Qed.

Lemma warns_build_soma soma_samples : warns_only late_warning (build_soma soma_samples).
Proof.
  assert (Hloop : forall l n, warns_only late_warning (cylinder_loop l n)).
  { induction l as [|s l IH]; intros n; cbn [cylinder_loop]; [apply warns_ret|].
    unfold cylinder_step, push_soma_point, set_morph. warns; apply IH. }
  unfold build_soma, build_soma_cylinders, _checkNeuromorph3PointSoma, samples_at,
    set_soma, set_soma_type, set_morph.
  warns; apply Hloop.
Qed.

Lemma warns_assemble_from steps fuel root_sample :
  warns_only late_warning (assemble_from steps fuel root_sample).
Proof.
  assert (Hroot : forall ids, warns_only late_warning (assemble_root steps fuel root_sample ids)).
  { induction ids as [|child_id ids IH]; cbn [assemble_root]; [apply warns_ret|].
    unfold samples_at, front. warns; apply warns_assembleSections. }
  unfold assemble_from. warns; apply Hroot.
Qed.

(** X12: on valid samples, the warnings of [buildSWC] are, first and in the
    order of the vector, those of the first loop: [ZERO_DIAMETER] for each
    sample whose diameter is below [epsilon], then [DISCONNECTED_NEURITE] for
    that sample when it has no parent and is not a soma sample; after them
    come only [SOMA_NON_CONFORM] and [WRONG_ROOT_POINT] warnings.  This holds
    whether the call then returns or not. *)
Theorem warnings_of_valid_samples steps fuel l :
  valid_samples l ->
  exists late,
    warned (buildSWC_fuel steps fuel l new_builder) = flat_map index_warnings l ++ late /\
    Forall late_warning late.
Proof.
  intros (Hwf & Hnd & Hpar).
  apply (resolve_all_iff l l Hnd) in Hpar.
  rewrite (buildSWC_indexed steps fuel l Hwf Hnd Hpar). cbn [warned].
  eexists. split; [reflexivity|].
  apply warns_bind; [apply warns_build_soma|].
  intros _. apply warns_for_each. intros s. apply warns_assemble_from.
Qed.

(** X13: the line number of a sample is used in messages only.  Two sample
    vectors that differ in line numbers alone give the same soma and the same
    sections, and [buildSWC] returns on one exactly when it returns on the
    other. *)
Theorem line_numbers_do_not_reach_output (l l' : list Sample) :
  records l = records l' ->
  morph_ (final (buildSWC l new_builder)) = morph_ (final (buildSWC l' new_builder)) /\
  (result (buildSWC l new_builder) = Ok tt <-> result (buildSWC l' new_builder) = Ok tt).
Proof.
  intros Hrec.
  assert (Hlen : length l = length l').
  { apply (f_equal length) in Hrec. unfold records in Hrec.
    rewrite !length_map in Hrec. exact Hrec. }
  unfold buildSWC. rewrite Hlen.
  destruct (buildSWC_without_lines (S (length l')) (S (length l')) l) as [Hm Hr].
  destruct (buildSWC_without_lines (S (length l')) (S (length l')) l') as [Hm' Hr'].
  rewrite Hrec in Hm, Hr. split; [congruence|]. rewrite Hr, Hr'. reflexivity.
Qed.

End AfterValidation.

(** ** The shape of the output *)

(** *** Calls that change the soma only *)

Section Frame.
Context `{Float : FloatOps} `{Enum : SectionTypes}.
Variable I : SWCBuilder -> Prop.
Hypothesis I_set_morph : forall (f : Morphology -> Morphology) b,
  (forall m, sections (f m) = sections m) -> I b ->
  I {| children_ := children_ b; samples_ := samples_ b; morph_ := f (morph_ b);
       declared_to_swc := declared_to_swc b |}.

Lemma frame_set_morph f :
  (forall m, sections (f m) = sections m) -> hoare I (set_morph f) (fun _ => True).
Proof. intros Hf. apply hoare_modify. intros b Hb. apply I_set_morph; assumption. Qed.

Ltac frames :=
  repeat first
    [ assumption
    | apply hoare_ret; exact Logic.I
    | apply hoare_throw | apply hoare_out_of_fuel | apply hoare_printError
    | apply (hoare_gets _ _ (fun _ => True)); intros; exact Logic.I
    | apply frame_set_morph; intros; reflexivity
    | eapply (hoare_bind _ _ _ (fun _ => True)); [|intros ? _; cbv beta]
    | match goal with
      | |- hoare _ (match ?x with _ => _ end) _ => destruct x
      end
    | progress cbv beta zeta ].

Lemma frame_check_parents l : hoare I (for_each check_parent l) (fun _ => True).
Proof. apply hoare_for_each. intros s _. unfold check_parent. frames. Qed.

Lemma frame_build_soma soma_samples : hoare I (build_soma soma_samples) (fun _ => True).
Proof.
  assert (Hloop : forall l n, hoare I (cylinder_loop l n) (fun _ => True)).
  { induction l as [|s l IH]; intros n; cbn [cylinder_loop]; [frames|].
    unfold cylinder_step, push_soma_point. frames; apply IH. }
  unfold build_soma, build_soma_cylinders, _checkNeuromorph3PointSoma, samples_at,
    set_soma, set_soma_type.
  frames; apply Hloop.
Qed.

End Frame.

Section Shape.
Context `{Float : FloatOps} `{Enum : SectionTypes}.

Lemma gathered_push_back known properties s :
  gathered_from known properties -> known s ->
  gathered_from known (push_back properties s).
Proof.
  intros (ss & Hall & Hp & Hd) Hs. exists (ss ++ [s]). unfold push_back. cbn.
  rewrite Hp, Hd, !map_app. repeat split; try reflexivity.
  apply Forall_app. split; [exact Hall|]. constructor; [exact Hs|constructor].
Qed.

Lemma built_push_back known properties s :
  gathered_from known properties -> known s ->
  built_from known (type s) (push_back properties s).
Proof.
  intros (ss & Hall & Hp & Hd) Hs. exists ss, s. unfold push_back. cbn.
  rewrite Hp, Hd, !map_app. repeat split; try reflexivity.
  apply Forall_app. split; [exact Hall|]. constructor; [exact Hs|constructor].
Qed.

Lemma built_from_weaken (known known' : Sample -> Prop) ty properties :
  (forall s, known s -> known' s) ->
  built_from known ty properties -> built_from known' ty properties.
Proof.
  intros Hk (ss & s & Hall & Hp & Hd & Hty). exists ss, s. repeat split; try assumption.
  eapply Forall_impl; [exact Hall|exact Hk].
Qed.

Lemma parents_first_snoc secs sec :
  parents_first secs ->
  (forall h, section_parent sec = Some h -> (h < length secs)%nat) ->
  parents_first (secs ++ [sec]).
Proof.
  intros Hold Hnew k sec' h Hk Hparent.
  destruct (decide (k < length secs)%nat) as [Hlt|Hge].
  - rewrite lookup_app_l in Hk by exact Hlt. exact (Hold k sec' h Hk Hparent).
  - apply lookup_lt_Some in Hk as Hlen. rewrite length_app in Hlen. cbn in Hlen.
    assert (k = length secs) as -> by lia.
    rewrite lookup_app_r, Nat.sub_diag in Hk by lia. injection Hk as <-.
    apply Hnew, Hparent.
Qed.

Lemma last_push_back_diameter properties sample :
  last (_diameters (push_back properties sample)) = Some (diameter sample).
Proof. unfold push_back. cbn. apply last_snoc. Qed.

Section Assembly.
Variable samples : gmap Z Sample.
Variable children : gmap Z (list Z).
Variable soma0 : Soma.

Local Abbreviation J := (shape_invariant samples children soma0).
Local Abbreviation known := (held_in samples).

Ltac reads :=
  repeat first
    [ apply hoare_ret; exact Logic.I
    | apply hoare_throw
    | apply (hoare_gets _ _ (fun _ => True)); intros; exact Logic.I
    | eapply (hoare_bind _ _ _ (fun _ => True)); [|intros ? _; cbv beta]
    | match goal with
      | |- hoare _ (match ?x with _ => _ end) _ => destruct x
      end ].

Lemma shape_samples_at i : hoare J (samples_at i) known.
Proof.
  unfold samples_at.
  eapply hoare_bind; [apply (hoare_gets _ samples_ (fun m => m = samples))|].
  - intros b [E _]. exact E.
  - intros m ->. destruct (samples !! i) as [s|] eqn:E;
      [apply hoare_ret; exists i; exact E|apply hoare_throw].
Qed.

Lemma shape_children_at i : hoare J (children_at i) (fun _ => True).
Proof. unfold children_at. reads. Qed.

Lemma shape_get_child_count i : hoare J (get_child_count i) (fun _ => True).
Proof. unfold get_child_count. reads. Qed.

Lemma shape_front {A} (l : list A) : hoare J (front l) (fun _ => True).
Proof. unfold front. reads. Qed.

(** The loop gathers points of samples of the index only. *)
Lemma shape_collapse steps : forall i properties children_count,
  gathered_from known properties ->
  hoare J (collapse steps i properties children_count)
    (fun '(_, properties', _) => gathered_from known properties').
Proof.
  induction steps as [|steps IH]; intros i properties children_count Hgathered;
    cbn [collapse].
  - apply hoare_out_of_fuel.
  - destruct (children_count =? 1); [|apply hoare_ret; exact Hgathered].
    eapply hoare_bind; [apply shape_samples_at|]. intros sample Hsample.
    eapply hoare_bind; [apply shape_children_at|]. intros ids _.
    eapply hoare_bind; [apply shape_front|]. intros first _.
    eapply hoare_bind; [apply shape_samples_at|]. intros next _.
    destruct (negb _); [apply hoare_ret; exact Hgathered|].
    eapply hoare_bind; [apply shape_get_child_count|]. intros count _.
    apply IH. apply gathered_push_back; assumption.
Qed.

Lemma shape_append_section section_id parent_id ty properties is_root :
  built_from known ty properties ->
  hoare J (append_section section_id parent_id ty properties is_root) (fun _ => True).
Proof.
  intros Hbuilt b (Hsam & Hch & Hsoma & Hdecl & Hpar & Hall).
  split; [|trivial].
  assert (Hdecl' : forall sec' d h,
            <[section_id := length (sections (morph_ b))]> (declared_to_swc b) !! d = Some h ->
            (h < length (sections (morph_ b) ++ [sec']))%nat).
  { intros sec' d h Hlook. rewrite length_app. cbn [length].
    destruct (decide (section_id = d)) as [<-|Hne].
    - rewrite lookup_insert_eq in Hlook. injection Hlook as <-. lia.
    - rewrite lookup_insert_ne in Hlook by exact Hne. specialize (Hdecl d h Hlook). lia. }
  assert (Hall' : forall sec', section_type sec' = ty -> section_properties sec' = properties ->
            Forall (fun sec => built_from known (section_type sec) (section_properties sec))
              (sections (morph_ b) ++ [sec'])).
  { intros sec' Hty Hprop. apply Forall_app. split; [exact Hall|].
    constructor; [|constructor]. rewrite Hty, Hprop. exact Hbuilt. }
  unfold append_section, appendRootSection, appendSection, set_morph.
  destruct is_root.
  - repeat mstep. cbn [modify final].
    repeat split; cbn [samples_ children_ morph_ declared_to_swc sections soma];
      try assumption.
    + intros d h. apply Hdecl'.
    + apply parents_first_snoc; [exact Hpar|]. cbn. discriminate.
    + apply Hall'; reflexivity.
  - repeat mstep. destruct (declared_to_swc b !! parent_id) as [parent|] eqn:Hp.
    + repeat mstep. cbn [modify final].
      repeat split; cbn [samples_ children_ morph_ declared_to_swc sections soma];
        try assumption.
      * intros d h. apply Hdecl'.
      * apply parents_first_snoc; [exact Hpar|]. cbn. intros h [= <-].
        exact (Hdecl parent_id parent Hp).
      * apply Hall'; reflexivity.
    + repeat mstep. cbn [final]. repeat split; assumption.
Qed.

Lemma shape_assembleSections steps fuel :
  forall i parent_id start_point start_diameter is_root,
  (is_root = false ->
   exists s, known s /\ point s = start_point /\ diameter s = start_diameter) ->
  hoare J (assembleSections steps fuel i parent_id start_point start_diameter is_root)
    (fun _ => True).
Proof.
  induction fuel as [|fuel IH];
    intros i parent_id start_point start_diameter is_root Hstart; cbn [assembleSections].
  - apply hoare_out_of_fuel.
  - eapply hoare_bind; [apply shape_samples_at|]. intros sample Hsample.
    eapply hoare_bind; [apply shape_get_child_count|]. intros count0 _.
    eapply hoare_bind.
    { apply shape_collapse. destruct is_root; cbn [negb andb].
      - exists []. repeat split. constructor.
      - destruct (point_ne (point sample) start_point).
        + destruct (Hstart eq_refl) as (s & Hs & <- & <-).
          exists [s]. repeat split. constructor; [exact Hs|constructor].
        + exists []. repeat split. constructor. }
    intros [[i' properties'] children_count] Hgathered.
    eapply hoare_bind; [apply shape_samples_at|]. intros sample' Hsample'.
    eapply hoare_bind;
      [apply shape_append_section, built_push_back; assumption|].
    intros _ _. destruct (children_count =? 0); [apply hoare_ret; exact Logic.I|].
    eapply hoare_bind; [apply hoare_back|]. intros new_start_point Hpoint.
    rewrite last_push_back in Hpoint. injection Hpoint as <-.
    eapply hoare_bind; [apply hoare_back|]. intros new_start_diameter Hdiameter.
    rewrite last_push_back_diameter in Hdiameter. injection Hdiameter as <-.
    eapply hoare_bind; [apply shape_children_at|]. intros ids _.
    assert (Hnext : false = false ->
                    exists s, known s /\ point s = point sample' /\
                              diameter s = diameter sample')
      by (intros _; exists sample'; auto).
    destruct (children_count =? 1).
    + eapply hoare_bind; [apply shape_front|]. intros first _.
      apply IH. exact Hnext.
    + apply hoare_for_each. intros child_id _. apply IH. exact Hnext.
Qed.

Lemma shape_assemble_from steps fuel root_sample :
  hoare J (assemble_from steps fuel root_sample) (fun _ => True).
Proof.
  unfold assemble_from.
  eapply hoare_bind; [apply (hoare_gets _ children_ (fun _ => True)); trivial|].
  intros c _. destruct (c !! id root_sample) as [ids|]; [|apply hoare_ret; exact Logic.I].
  eapply hoare_bind; [apply (hoare_gets _ morph_ (fun _ => True)); trivial|].
  intros m _.
  eapply (hoare_bind _ _ _ (fun _ => True)).
  { destruct (_ && _); [apply hoare_printError|apply hoare_ret; exact Logic.I]. }
  intros _ _. induction ids as [|child_id ids IH]; cbn [assemble_root].
  - apply hoare_ret. exact Logic.I.
  - eapply hoare_bind; [apply shape_samples_at|]. intros child _.
    destruct (type child =? SECTION_SOMA); [exact IH|].
    destruct (type root_sample =? SECTION_SOMA).
    + eapply hoare_bind; [apply (hoare_gets _ morph_ (fun _ => True)); trivial|].
      intros m' _.
      eapply hoare_bind; [apply shape_front|]. intros start_point _.
      eapply hoare_bind; [apply shape_front|]. intros start_diameter _.
      eapply hoare_bind; [apply shape_assembleSections; discriminate|].
      intros _ _. exact IH.
    + apply shape_assembleSections. discriminate.
Qed.

End Assembly.

(** The builder that [buildSWC] reaches has the shape kept by the assembly,
    for the indices left by the first loop and some soma. *)
Lemma buildSWC_shape steps fuel (l : list Sample) :
  Forall well_formed l -> NoDup (map id l) ->
  exists soma0,
    shape_invariant (samples_ (foldl indexed new_builder l))
      (children_ (foldl indexed new_builder l)) soma0
      (final (buildSWC_fuel steps fuel l new_builder)).
Proof.
  intros Hwf Hnd. unfold buildSWC_fuel.
  rewrite (bind_ok _ _ _ _ _ _
             (index_samples_ok l l [] [] new_builder Hwf Hnd
                (fun s _ => lookup_empty (id s)))).
  cbn [final app].
  set (b1 := foldl indexed new_builder l).
  destruct (indexed_morph l new_builder) as [Hmorph Hdecl]. fold b1 in Hmorph, Hdecl.
  set (I := fun b => exists soma0, shape_invariant (samples_ b1) (children_ b1) soma0 b).
  assert (HI : forall (f : Morphology -> Morphology) b,
            (forall m, sections (f m) = sections m) -> I b ->
            I {| children_ := children_ b; samples_ := samples_ b; morph_ := f (morph_ b);
                 declared_to_swc := declared_to_swc b |}).
  { intros f b Hf (soma0 & Hs & Hc & _ & Hd & Hp & Ha). exists (soma (f (morph_ b))).
    unfold shape_invariant. cbn [samples_ children_ morph_ declared_to_swc].
    rewrite Hf. repeat split; assumption. }
  assert (Hinit : I b1).
  { exists (soma (morph_ b1)). repeat split.
    - intros d h Hd. rewrite Hdecl in Hd. discriminate.
    - rewrite Hmorph. intros k sec h Hk. discriminate.
    - rewrite Hmorph. constructor. }
  assert (Hrest : hoare I
                    (for_each check_parent l ≫= fun _ =>
                       build_soma (List.filter is_soma l) ≫= fun _ =>
                         for_each (assemble_from steps fuel) (List.filter is_root l))
                    (fun _ => True)).
  { eapply (hoare_bind _ _ _ (fun _ => True) (fun _ => True)).
    - apply frame_check_parents.
    - intros _ _. eapply hoare_bind; [apply (frame_build_soma I HI)|].
      intros _ _. apply hoare_for_each. intros s _ b (soma0 & Hb).
      destruct (shape_assemble_from (samples_ b1) (children_ b1) soma0 steps fuel s b Hb)
        as [Hfin _].
      split; [exists soma0; exact Hfin|trivial]. }
  exact (proj1 (Hrest b1 Hinit)).
Qed.

(** The sections of the builder that [buildSWC] reaches, on any samples. *)
Lemma buildSWC_sections steps fuel (l : list Sample) :
  parents_first (sections (morph_ (final (buildSWC_fuel steps fuel l new_builder)))) /\
  Forall (fun sec => built_from (fun s => s ∈ l) (section_type sec) (section_properties sec))
    (sections (morph_ (final (buildSWC_fuel steps fuel l new_builder)))).
Proof.
  destruct (result (index_samples l l ([], []) new_builder)) as [acc| |] eqn:Hidx.
  - apply index_samples_inv in Hidx as (Hwf & Hnd & _).
    destruct (buildSWC_shape steps fuel l Hwf Hnd) as (soma0 & _ & _ & _ & _ & Hpar & Hall).
    split; [exact Hpar|].
    eapply Forall_impl; [exact Hall|]. intros sec. cbv beta.
    apply built_from_weaken. intros s [i Hs].
    apply (indexed_samples l new_builder i s Hnd) in Hs as [[Hin _]|[Hs _]]; [exact Hin|].
    cbn in Hs. rewrite lookup_empty in Hs. discriminate.
  - assert (Hsec : sections (morph_ (final (buildSWC_fuel steps fuel l new_builder))) = []).
    { unfold buildSWC_fuel.
      pose proof (hoare_index_samples l l ([], []) new_builder (conj eq_refl eq_refl))
        as [[Hsec _] _].
      destruct (bind_stop (index_samples l l ([], []))
                  (fun '(soma_samples, root_samples) =>
                     for_each check_parent l ≫= fun _ =>
                       build_soma soma_samples ≫= fun _ =>
                         for_each (assemble_from steps fuel) root_samples)
                  new_builder) as [-> _]; [rewrite Hidx; discriminate|exact Hsec]. }
    rewrite Hsec. split; [intros k sec h Hk; discriminate|constructor].
  - assert (Hsec : sections (morph_ (final (buildSWC_fuel steps fuel l new_builder))) = []).
    { unfold buildSWC_fuel.
      pose proof (hoare_index_samples l l ([], []) new_builder (conj eq_refl eq_refl))
        as [[Hsec _] _].
      destruct (bind_stop (index_samples l l ([], []))
                  (fun '(soma_samples, root_samples) =>
                     for_each check_parent l ≫= fun _ =>
                       build_soma soma_samples ≫= fun _ =>
                         for_each (assemble_from steps fuel) root_samples)
                  new_builder) as [-> _]; [rewrite Hidx; discriminate|exact Hsec]. }
    rewrite Hsec. split; [intros k sec h Hk; discriminate|constructor].
Qed.

(** X14: whatever the samples and however [buildSWC] ends, every section of
    the builder is made of samples of the vector: its points and its
    diameters are, pairwise and in order, the points and the diameters of a
    run of samples that is not empty, and its type is the type of the last
    sample of the run.  So the two arrays of a section have the same length,
    no section is empty and no point or diameter is made up. *)
Theorem sections_are_made_of_samples steps fuel (l : list Sample) k sec :
  sections (morph_ (final (buildSWC_fuel steps fuel l new_builder))) !! k = Some sec ->
  built_from (fun s => s ∈ l) (section_type sec) (section_properties sec) /\
  length (_points (section_properties sec)) = length (_diameters (section_properties sec)) /\
  _points (section_properties sec) <> [].
Proof.
  intros Hk. destruct (buildSWC_sections steps fuel l) as [_ Hall].
  rewrite Forall_lookup in Hall. specialize (Hall k sec Hk).
  split; [exact Hall|]. destruct Hall as (ss & s & _ & -> & -> & _).
  rewrite !length_map. split; [reflexivity|].
  rewrite map_app. cbn. intros E. apply app_eq_nil in E as [_ E]. discriminate.
Qed.

(** X15: whatever the samples and however [buildSWC] ends, the parent of a
    section is a section that was appended before it: the sections are a
    forest listed parents first, so no section is its own ancestor. *)
Theorem sections_are_appended_parents_first steps fuel (l : list Sample) k sec h :
  sections (morph_ (final (buildSWC_fuel steps fuel l new_builder))) !! k = Some sec ->
  section_parent sec = Some h ->
  (h < k)%nat /\
  is_Some (sections (morph_ (final (buildSWC_fuel steps fuel l new_builder))) !! h).
Proof.
  intros Hk Hparent. destruct (buildSWC_sections steps fuel l) as [Hpar _].
  pose proof (Hpar k sec h Hk Hparent) as Hlt. split; [exact Hlt|].
  apply lookup_lt_is_Some. apply lookup_lt_Some in Hk. lia.
Qed.

End Shape.

(** ** The soma of the output *)

Section OutputSoma.
Context `{Float : FloatOps} `{Enum : SectionTypes}.

(** The soma that [build_soma] leaves when it returns. *)
Lemma build_soma_ok soma_samples b :
  soma_is_new b ->
  result (build_soma soma_samples b) = Ok tt ->
  soma (morph_ (final (build_soma soma_samples b))) =
    mkSoma (soma_variant soma_samples) (map point soma_samples) (map diameter soma_samples).
Proof.
  intros Hnew.
  destruct soma_samples as [|s1 [|s2 [|s3 [|s4 l]]]]; intros Hres.
  - unfold build_soma, set_soma_type, set_morph, modify. cbn.
    unfold soma_is_new in Hnew. rewrite Hnew. reflexivity.
  - revert Hres. unfold build_soma, samples_at, set_soma, set_morph.
    destruct (parentId s1 =? SWC_ROOT); cbn [negb].
    + repeat mstep. reflexivity.
    + repeat mstep. destruct (samples_ b !! parentId s1) as [p|]; repeat mstep.
      * destruct (type p =? SECTION_SOMA); cbn [negb]; repeat mstep;
          [reflexivity|discriminate].
      * discriminate.
  - apply (build_soma_cylinders_ok [s1; s2] b Hnew Hres).
  - revert Hres. unfold build_soma, soma_variant.
    rewrite (Z.eqb_sym (id s1)), (Z.eqb_sym (id s1) (parentId s3)).
    destruct ((parentId s2 =? id s1) && (parentId s3 =? id s1)).
    + unfold set_soma, set_morph. mstep. rewrite three_point_check. reflexivity.
    + apply (build_soma_cylinders_ok [s1; s2; s3] b Hnew).
  - apply (build_soma_cylinders_ok (s1 :: s2 :: s3 :: s4 :: l) b Hnew Hres).
Qed.

(** X16: when [buildSWC] returns, the soma of the output is made of the
    samples of type 1, in the order of the vector: its points and diameters
    are theirs, and its type is [SOMA_UNDEFINED] for none,
    [SOMA_SINGLE_POINT] for one, [SOMA_NEUROMORPHO_THREE_POINT_CYLINDERS] for
    three of which the second and the third have the first as parent, and
    [SOMA_CYLINDERS] otherwise.  The assembly of the sections does not touch
    the soma. *)
Theorem soma_of_the_output steps fuel (l : list Sample) x :
  result (buildSWC_fuel steps fuel l new_builder) = Ok x ->
  soma (morph_ (final (buildSWC_fuel steps fuel l new_builder))) =
    mkSoma (soma_variant (List.filter is_soma l))
           (map point (List.filter is_soma l)) (map diameter (List.filter is_soma l)).
Proof.
  intros Hres.
  pose proof (buildSWC_ok_inv steps fuel l x Hres) as (Hwf & Hnd & Hpar).
  rewrite (buildSWC_indexed steps fuel l Hwf Hnd Hpar) in Hres |- *.
  cbn [final result] in Hres |- *.
  set (b1 := foldl indexed new_builder l) in *.
  destruct (indexed_morph l new_builder) as [Hmorph Hdecl]. fold b1 in Hmorph, Hdecl.
  apply bind_final_ok in Hres as ([] & Hsoma & -> & _).
  set (b2 := final (build_soma (List.filter is_soma l) b1)) in *.
  assert (Hnew : soma_is_new b1) by (unfold soma_is_new; rewrite Hmorph; reflexivity).
  pose proof (build_soma_ok _ _ Hnew Hsoma) as Hb2. fold b2 in Hb2.
  set (I := fun b => samples_ b = samples_ b1 /\ children_ b = children_ b1 /\
                     sections (morph_ b) = [] /\ declared_to_swc b = ∅).
  assert (HI : forall (f : Morphology -> Morphology) b,
            (forall m, sections (f m) = sections m) -> I b ->
            I {| children_ := children_ b; samples_ := samples_ b; morph_ := f (morph_ b);
                 declared_to_swc := declared_to_swc b |}).
  { intros f b Hf (Hs & Hc & Hsec & Hd). unfold I.
    cbn [samples_ children_ morph_ declared_to_swc]. rewrite Hf. auto. }
  assert (Hinit : I b1) by (unfold I; rewrite Hmorph, Hdecl; auto).
  destruct (frame_build_soma I HI (List.filter is_soma l) b1 Hinit)
    as [(Hs & Hc & Hsec & Hd) _]. fold b2 in Hs, Hc, Hsec, Hd.
  assert (Hshape : shape_invariant (samples_ b1) (children_ b1) (soma (morph_ b2)) b2).
  { repeat split; try assumption.
    - intros d h Hl. rewrite Hd in Hl. discriminate.
    - rewrite Hsec. intros k sec h Hk. discriminate.
    - rewrite Hsec. constructor. }
  assert (Hloop : hoare (shape_invariant (samples_ b1) (children_ b1) (soma (morph_ b2)))
                    (for_each (assemble_from steps fuel) (List.filter is_root l))
                    (fun _ => True)).
  { apply hoare_for_each. intros s _. apply shape_assemble_from. }
  destruct (Hloop b2 Hshape) as [(_ & _ & -> & _) _]. exact Hb2.
Qed.

End OutputSoma.

(** ** Chains of samples *)

Section Chains.
Context `{Float : FloatOps} `{Enum : SectionTypes}.

Lemma samples_at_run i s b : samples_ b !! i = Some s -> samples_at i b = mkRun b [] (Ok s).
Proof. intros E. unfold samples_at. mstep. rewrite E. reflexivity. Qed.

Lemma children_at_run i ids b :
  children_ b !! i = Some ids -> children_at i b = mkRun b [] (Ok ids).
Proof. intros E. unfold children_at. mstep. rewrite E. reflexivity. Qed.

Lemma get_child_count_run i b : get_child_count i b = mkRun b [] (Ok (child_count b i)).
Proof.
  unfold get_child_count, child_count. mstep. destruct (children_ b !! i); reflexivity.
Qed.

Lemma foldl_push_back ss : forall properties,
  foldl push_back properties ss =
    mkPointLevel (_points properties ++ map point ss)
                 (_diameters properties ++ map diameter ss).
Proof.
  induction ss as [|s ss IH]; intros properties; cbn [foldl map].
  - rewrite !app_nil_r. destruct properties; reflexivity.
  - rewrite IH. unfold push_back. cbn [_points _diameters].
    rewrite <- !app_assoc. reflexivity.
Qed.

(** The loop of [assembleSections] runs down a chain to its last sample and
    gathers the points of the samples before it. *)
Lemma collapse_chain b last_sample ss : forall steps properties,
  chain_of b ss last_sample -> chain_stops b last_sample ->
  (length ss < steps)%nat ->
  collapse steps (id (hd last_sample ss)) properties
    (child_count b (id (hd last_sample ss))) b =
    mkRun b [] (Ok (id last_sample, foldl push_back properties ss,
                    child_count b (id last_sample))).
Proof.
  induction ss as [|s ss IH]; intros steps properties Hchain [Hlast Hstop] Hsteps;
    (destruct steps as [|steps]; [cbn in Hsteps; lia|]); cbn [collapse hd foldl].
  - destruct (Z.eqb_spec (child_count b (id last_sample)) 1) as [E|E]; [|reflexivity].
    unfold child_count in E |- *.
    destruct (children_ b !! id last_sample) as [[|c [|c' ids]]|] eqn:Hc;
      cbn [length] in E; try lia.
    destruct (Hstop c eq_refl) as (next & Hnext & Hty).
    rewrite (bind_ok _ _ _ _ _ _ (samples_at_run _ _ _ Hlast)).
    rewrite (bind_ok _ _ _ _ _ _ (children_at_run _ _ _ Hc)).
    cbn [front]. rewrite bind_ret.
    rewrite (bind_ok _ _ _ _ _ _ (samples_at_run _ _ _ Hnext)).
    replace (type last_sample =? type next) with false
      by (symmetry; apply Z.eqb_neq; exact Hty).
    reflexivity.
  - cbn [chain_of] in Hchain. destruct Hchain as (Hs & Hc & Hnext & Hty & Hchain).
    replace (child_count b (id s)) with 1 by (unfold child_count; rewrite Hc; reflexivity).
    cbn [Z.eqb Pos.eqb].
    rewrite (bind_ok _ _ _ _ _ _ (samples_at_run _ _ _ Hs)).
    rewrite (bind_ok _ _ _ _ _ _ (children_at_run _ _ _ Hc)).
    cbn [front]. rewrite bind_ret.
    rewrite (bind_ok _ _ _ _ _ _ (samples_at_run _ _ _ Hnext)).
    rewrite Hty, Z.eqb_refl. cbn [negb].
    rewrite (bind_ok _ _ _ _ _ _ (get_child_count_run _ _)).
    rewrite (IH steps (push_back properties s) Hchain (conj Hlast Hstop))
      by (cbn in Hsteps; lia).
    reflexivity.
Qed.

(** X17: chain collapse.  Called as a root on the first sample of a chain
    (samples that have exactly one child each, of their own type) that ends
    in a sample without children, [assembleSections] appends exactly one
    root section: its points and diameters are those of the samples of the
    chain, in order, and its type is theirs; the section is recorded under
    the id of the last sample, nothing is warned and the call returns. *)
Theorem chain_becomes_one_section steps fuel b ss last_sample parent_id
    start_point start_diameter :
  chain_of b ss last_sample -> chain_stops b last_sample ->
  child_count b (id last_sample) = 0 ->
  (length ss < steps)%nat ->
  assembleSections steps (S fuel) (id (hd last_sample ss)) parent_id
    start_point start_diameter true b =
    mkRun {| children_ := children_ b; samples_ := samples_ b;
             morph_ := {| soma := soma (morph_ b);
                          sections := sections (morph_ b) ++
                            [mkSection None (type last_sample)
                               (mkPointLevel (map point (ss ++ [last_sample]))
                                             (map diameter (ss ++ [last_sample])))] |};
             declared_to_swc :=
               <[id last_sample := length (sections (morph_ b))]> (declared_to_swc b) |}
          [] (Ok tt).
Proof.
  intros Hchain Hstop Hleaf Hsteps.
  assert (Hfirst : samples_ b !! id (hd last_sample ss) = Some (hd last_sample ss)).
  { destruct ss as [|s ss]; [exact (proj1 Hstop)|exact (proj1 Hchain)]. }
  cbn [assembleSections negb andb].
  rewrite (bind_ok _ _ _ _ _ _ (samples_at_run _ _ _ Hfirst)).
  rewrite (bind_ok _ _ _ _ _ _ (get_child_count_run _ _)).
  rewrite (bind_ok _ _ _ _ _ _
             (collapse_chain b last_sample ss steps _ Hchain Hstop Hsteps)).
  rewrite (bind_ok _ _ _ _ _ _ (samples_at_run _ _ _ (proj1 Hstop))).
  rewrite Hleaf. cbn [Z.eqb].
  unfold append_section, appendRootSection, set_morph.
  repeat mstep. cbn [modify final warned result app ret].
  rewrite foldl_push_back. unfold push_back. cbn [_points _diameters app].
  rewrite !map_app. reflexivity.
Qed.

End Chains.

(** ** Samples without links *)

Section NoLinks.
Context `{Float : FloatOps} `{Enum : SectionTypes}.

(** When the first loop of [buildSWC] does not return, no section is
    appended. *)
Lemma refused_samples_no_section steps fuel (l : list Sample) :
  (forall acc, result (index_samples l l ([], []) new_builder) <> Ok acc) ->
  sections (morph_ (final (buildSWC_fuel steps fuel l new_builder))) = [].
Proof.
  intros Hidx. unfold buildSWC_fuel.
  pose proof (hoare_index_samples l l ([], []) new_builder (conj eq_refl eq_refl))
    as [[Hsec _] _].
  destruct (bind_stop (index_samples l l ([], []))
              (fun '(soma_samples, root_samples) =>
                 for_each check_parent l ≫= fun _ =>
                   build_soma soma_samples ≫= fun _ =>
                     for_each (assemble_from steps fuel) root_samples)
              new_builder Hidx) as [-> _].
  exact Hsec.
Qed.

Lemma siblings_none p (l : list Sample) :
  Forall (fun x => parentId x <> p) l -> siblings p l = [].
Proof.
  induction 1 as [|x l Hx Hl IH]; [reflexivity|]. unfold siblings in *.
  cbn [List.filter]. destruct (Z.eqb_spec (parentId x) p); [contradiction|exact IH].
Qed.

(** X18: samples that are all without parent (every parent field is [-1])
    give no section, however many they are and whatever their types: a root
    sample without children is skipped by the loop over the root samples.
    The builder keeps no section whether [buildSWC] returns or throws. *)
Theorem samples_without_links_give_no_section steps fuel (l : list Sample) :
  Forall (fun s => parentId s = SWC_ROOT) l ->
  sections (morph_ (final (buildSWC_fuel steps fuel l new_builder))) = [].
Proof.
  intros Hroots.
  destruct (result (index_samples l l ([], []) new_builder)) as [acc| |] eqn:Hidx;
    [|apply refused_samples_no_section; intros acc; rewrite Hidx; discriminate..].
  apply index_samples_inv in Hidx as (Hwf & Hnd & _).
  unfold buildSWC_fuel.
  rewrite (bind_ok _ _ _ _ _ _
             (index_samples_ok l l [] [] new_builder Hwf Hnd
                (fun s _ => lookup_empty (id s)))).
  cbn [final app].
  set (b1 := foldl indexed new_builder l).
  destruct (indexed_morph l new_builder) as [Hmorph _]. fold b1 in Hmorph.
  assert (Hchildless : forall s, s ∈ l -> children_ b1 !! id s = None).
  { intros s Hs. unfold b1. rewrite indexed_children.
    rewrite siblings_none; [reflexivity|].
    rewrite Forall_forall in Hroots, Hwf |- *. intros x Hx.
    rewrite (Hroots x Hx), <- (Hroots s Hs). exact (proj1 (Hwf s Hs)). }
  set (I := fun b => children_ b = children_ b1 /\ sections (morph_ b) = []).
  assert (HI : forall (f : Morphology -> Morphology) b,
            (forall m, sections (f m) = sections m) -> I b ->
            I {| children_ := children_ b; samples_ := samples_ b; morph_ := f (morph_ b);
                 declared_to_swc := declared_to_swc b |}).
  { intros f b Hf [Hc Hsec]. unfold I. cbn [children_ morph_]. rewrite Hf. auto. }
  assert (Hinit : I b1) by (unfold I; rewrite Hmorph; auto).
  assert (Hrest : hoare I
                    (for_each check_parent l ≫= fun _ =>
                       build_soma (List.filter is_soma l) ≫= fun _ =>
                         for_each (assemble_from steps fuel) (List.filter is_root l))
                    (fun _ => True)).
  { eapply (hoare_bind _ _ _ (fun _ => True) (fun _ => True)).
    - apply frame_check_parents.
    - intros _ _. eapply hoare_bind; [apply (frame_build_soma I HI)|].
      intros _ _. apply hoare_for_each. intros s Hs b [Hc Hsec].
      apply list_elem_of_In, List.filter_In in Hs as [Hs _].
      apply list_elem_of_In in Hs.
      unfold assemble_from. rewrite bind_gets, Hc, (Hchildless s Hs).
      split; [split; assumption|trivial]. }
  exact (proj2 (proj1 (Hrest b1 Hinit))).
Qed.

End NoLinks.

(** ** The loop over the samples of a [SOMA_CYLINDERS] soma *)

Section Cylinders.
Context `{Float : FloatOps} `{Enum : SectionTypes}.

Lemma soma_children_length samples ids :
  (length (soma_children samples ids) <= length ids)%nat.
Proof.
  unfold soma_children. induction ids as [|i ids IH]; cbn [omap list_omap length]; [lia|].
  destruct (match samples !! i with Some c => _ | None => None end); cbn [length]; lia.
Qed.

(** One turn of the loop: it pushes the sample when the two tests pass, and
    throws otherwise. *)
Lemma cylinder_step_spec s n b :
  (cylinder_ok (samples_ b) (children_ b) s /\
   cylinder_step s n b =
     mkRun {| children_ := children_ b; samples_ := samples_ b;
              morph_ := {| soma := mkSoma (soma_type (soma (morph_ b)))
                                     (soma_points (soma (morph_ b)) ++ [point s])
                                     (soma_diameters (soma (morph_ b)) ++ [diameter s]);
                           sections := sections (morph_ b) |};
              declared_to_swc := declared_to_swc b |} []
           (Ok (n + if parentId s =? SWC_ROOT then 1 else 0))) \/
  (~ cylinder_ok (samples_ b) (children_ b) s /\
   exists e, result (cylinder_step s n b) = Throw e).
Proof.
  assert (Hbif : (forall ids, children_ b !! id s = Some ids ->
                    (length (soma_children (samples_ b) ids) <= 1)%nat) \/
                 exists ids, children_ b !! id s = Some ids /\
                   (1 < length ids)%nat /\
                   (1 < length (soma_children (samples_ b) ids))%nat).
  { destruct (children_ b !! id s) as [ids|]; [|left; discriminate].
    destruct (decide (length (soma_children (samples_ b) ids) <= 1)%nat) as [Hle|Hgt].
    - left. intros ? [= <-]. exact Hle.
    - right. exists ids. pose proof (soma_children_length (samples_ b) ids).
      repeat split; lia. }
  unfold cylinder_step, cylinder_ok, push_soma_point, set_morph.
  rewrite !bind_gets.
  destruct (Z.eqb_spec (parentId s) SWC_ROOT) as [Hroot|Hroot].
  - rewrite bind_ret. destruct Hbif as [Hok|(ids & Hids & Hlen & Hsoma)].
    + left. split; [split; [left; exact Hroot|exact Hok]|].
      destruct (children_ b !! id s) as [ids|] eqn:Hids.
      * specialize (Hok ids eq_refl).
        destruct (1 <? Z.of_nat (length ids)).
        -- cbv zeta. replace (1 <? Z.of_nat (length (soma_children (samples_ b) ids)))
             with false by (symmetry; apply Z.ltb_ge; lia).
           repeat mstep. reflexivity.
        -- repeat mstep. reflexivity.
      * repeat mstep. reflexivity.
    + right. split; [intros [_ Hok]; specialize (Hok ids Hids); lia|].
      rewrite Hids.
      replace (1 <? Z.of_nat (length ids)) with true by (symmetry; apply Z.ltb_lt; lia).
      cbv zeta. replace (1 <? Z.of_nat (length (soma_children (samples_ b) ids)))
        with true by (symmetry; apply Z.ltb_lt; lia).
      rewrite bind_throw. eexists. reflexivity.
  - destruct (samples_ b !! parentId s) as [p|] eqn:Hp.
    + destruct (Z.eqb_spec (type p) SECTION_SOMA) as [Hty|Hty]; cbn [negb].
      * rewrite bind_ret. destruct Hbif as [Hok|(ids & Hids & Hlen & Hsoma)].
        -- left. split; [split; [right; eauto|exact Hok]|].
           destruct (children_ b !! id s) as [ids|] eqn:Hids.
           ++ specialize (Hok ids eq_refl).
              destruct (1 <? Z.of_nat (length ids)).
              ** cbv zeta.
                 replace (1 <? Z.of_nat (length (soma_children (samples_ b) ids)))
                   with false by (symmetry; apply Z.ltb_ge; lia).
                 repeat mstep. rewrite Z.add_0_r. reflexivity.
              ** repeat mstep. rewrite Z.add_0_r. reflexivity.
           ++ repeat mstep. rewrite Z.add_0_r. reflexivity.
        -- right. split; [intros [_ Hok]; specialize (Hok ids Hids); lia|].
           rewrite Hids.
           replace (1 <? Z.of_nat (length ids)) with true
             by (symmetry; apply Z.ltb_lt; lia).
           cbv zeta. replace (1 <? Z.of_nat (length (soma_children (samples_ b) ids)))
             with true by (symmetry; apply Z.ltb_lt; lia).
           rewrite bind_throw. eexists. reflexivity.
      * right. split; [intros [[?|(p' & Hp' & Hty')] _]; congruence|].
        rewrite bind_throw. eexists. reflexivity.
    + right. split; [intros [[?|(p' & Hp' & _)] _]; congruence|].
      rewrite bind_throw. eexists. reflexivity.
Qed.

(** The whole loop: it returns exactly when every sample passes the tests,
    with the number of samples without parent added to the count. *)
Lemma cylinder_loop_spec l : forall n b,
  (Forall (cylinder_ok (samples_ b) (children_ b)) l /\
   result (cylinder_loop l n b) = Ok (n + Z.of_nat (length (siblings SWC_ROOT l)))) \/
  (~ Forall (cylinder_ok (samples_ b) (children_ b)) l /\
   exists e, result (cylinder_loop l n b) = Throw e).
Proof.
  induction l as [|s l IH]; intros n b; cbn [cylinder_loop].
  - left. split; [constructor|]. cbn. rewrite Z.add_0_r. reflexivity.
  - destruct (cylinder_step_spec s n b) as [[Hs E]|[Hs [e E]]].
    + rewrite (bind_ok _ _ _ _ _ _ E). cbn [result].
      match goal with |- context [cylinder_loop l ?n' ?b'] =>
        destruct (IH n' b') as [[Hl El]|[Hl [e El]]] end;
        cbn [samples_ children_] in Hl.
      * left. split; [constructor; assumption|]. rewrite El.
        unfold siblings. cbn [List.filter].
        destruct (parentId s =? SWC_ROOT); cbn [length]; f_equal; lia.
      * right. split; [rewrite Forall_cons; tauto|eauto].
    + right. split; [rewrite Forall_cons; tauto|].
      exists e. apply bind_throws, E.
Qed.

(** X19: the loop of [build_soma] over the samples of a [SOMA_CYLINDERS]
    soma returns exactly when every soma sample has no parent or a soma
    sample as parent, none has two soma samples among its children, and at
    most one has no parent.  When only the last condition fails, the error
    is [ERROR_MULTIPLE_SOMATA]. *)
Theorem cylinders_soma_accepted_exactly l b :
  (result (build_soma_cylinders l b) = Ok tt <->
   Forall (cylinder_ok (samples_ b) (children_ b)) l /\
   (length (siblings SWC_ROOT l) <= 1)%nat) /\
  (Forall (cylinder_ok (samples_ b) (children_ b)) l ->
   (1 < length (siblings SWC_ROOT l))%nat ->
   result (build_soma_cylinders l b) = Throw (SomaError (ERROR_MULTIPLE_SOMATA l))).
Proof.
  unfold build_soma_cylinders, set_soma_type, set_morph. rewrite bind_modify.
  match goal with |- context [(cylinder_loop l 0 ≫= _) ?b'] => set (b0 := b') end.
  assert (Hloop := cylinder_loop_spec l 0 b0). cbn [b0 samples_ children_] in Hloop.
  rewrite Z.add_0_l in Hloop.
  unfold mbind, M_mbind, bind.
  destruct Hloop as [[Hall E]|[Hall [e E]]]; rewrite E.
  - cbv zeta. cbn [result].
    destruct (Z.ltb_spec 1 (Z.of_nat (length (siblings SWC_ROOT l)))) as [Hlt|Hge];
      cbn [throw ret result].
    + split; [split; [discriminate|intros [_ ?]; lia]|reflexivity].
    + split; [split; [intros _; split; [exact Hall|lia]|reflexivity]|intros _ ?; lia].
  - cbn [result]. split; [split; [discriminate|intros [? _]; contradiction]|].
    intros ? _. contradiction.
Qed.

End Cylinders.

(** ** The names of the HDF5 layout *)

(** X20: the thirteen names that the accessors of [H5Constants.cpp] return
    are pairwise distinct, so no two datasets, groups or attributes of the
    layout collide; and the three columns of the structure dataset are the
    three distinct indices below 3. *)
Theorem h5_names_are_distinct :
  NoDup (H5.datasets ++ H5.groups ++ H5.attributes) /\
  length (H5.datasets ++ H5.groups ++ H5.attributes) = 13%nat /\
  NoDup [H5.SECTION_START_OFFSET; H5.SECTION_TYPE; H5.SECTION_PARENT_OFFSET] /\
  Forall (fun c => 0 <= c < 3)
    [H5.SECTION_START_OFFSET; H5.SECTION_TYPE; H5.SECTION_PARENT_OFFSET].
Proof.
  split; [|split; [reflexivity|split]].
  - cbv [H5.datasets H5.groups H5.attributes app
         H5.d_structure H5.d_points H5.a_version H5.g_metadata H5.a_family
         H5.d_perimeters H5.g_mitochondria H5.g_endoplasmic_reticulum
         H5.d_section_index H5.d_volume H5.d_surface_area H5.d_filament_count
         H5.g_v2root].
    repeat (apply NoDup_cons; split;
            [rewrite ?elem_of_cons, elem_of_nil; intuition discriminate|]).
    apply NoDup_nil_2.
  - cbv [H5.SECTION_START_OFFSET H5.SECTION_TYPE H5.SECTION_PARENT_OFFSET].
    repeat (apply NoDup_cons; split;
            [rewrite ?elem_of_cons, elem_of_nil; intuition discriminate|]).
    apply NoDup_nil_2.
  - cbv [H5.SECTION_START_OFFSET H5.SECTION_TYPE H5.SECTION_PARENT_OFFSET].
    repeat constructor; lia.
Qed.

(** ** [readSamples] ends *)

Section ReadingEnds.
Context `{Num : StringToNumber}.
Variable contents : list ascii.
Hypothesis Hsize : size contents < 2 ^ 64.
Hypothesis Hadvance : parsers_advance.

(** The loop of [advance_to_number] returns and does not go backwards. *)
Lemma advance_loop_forward fuel : forall t,
  0 <= pos_ t -> bytes_left contents t < Z.of_nat fuel ->
  exists t', advance_loop contents fuel t = Ok t' /\ 0 <= pos_ t' /\
             bytes_left contents t' <= bytes_left contents t.
Proof.
  induction fuel as [|fuel IH]; intros t Hpos Hfuel.
  - pose proof (bytes_left_range contents t Hpos). lia.
  - cbn [advance_loop]. destruct (done contents t) eqn:Hdone;
      [exists t; repeat split; (reflexivity || lia)|].
    destruct (consume_line_total contents Hsize t Hpos) as (again & t' & E & Hp & Hl & Hagain).
    rewrite E. cbn [mbind outcome_mbind outcome_bind].
    destruct again; [|exists t'; auto].
    assert (Hpositive : 0 < bytes_left contents t).
    { unfold bytes_left. rewrite Hdone. unfold done in Hdone. apply Z.leb_gt in Hdone. lia. }
    destruct (IH t' Hp) as (t'' & E' & Hp' & Hl').
    { destruct (Hagain eq_refl) as [Hd|Hlt]; [|lia].
      unfold bytes_left. rewrite Hd. lia. }
    exists t''. repeat split; try assumption. lia.
Qed.

Lemma advance_to_number_forward t :
  0 <= pos_ t ->
  match advance_to_number contents t with
  | Ok t' => 0 <= pos_ t' /\ bytes_left contents t' <= bytes_left contents t /\
             done contents t' = false
  | Throw e => reading_error e
  | OutOfFuel => False
  end.
Proof.
  intros Hpos. unfold advance_to_number.
  destruct (advance_loop_forward (fuel_ contents) t Hpos) as (t' & E & Hp & Hl).
  { pose proof (bytes_left_range contents t Hpos). unfold fuel_, size in *. lia. }
  rewrite E. cbn [mbind outcome_mbind outcome_bind].
  destruct (done contents t') eqn:Hdone; [exact I|].
  unfold done in Hdone. apply Z.leb_gt in Hdone.
  unfold at_. replace (0 <=? pos_ t') with true by (symmetry; apply Z.leb_le; lia).
  replace (pos_ t' <? size contents) with true by (symmetry; apply Z.ltb_lt; lia).
  cbn [andb].
  destruct (contents !! Z.to_nat (pos_ t')) as [c|] eqn:Hlook.
  - destruct (number_start c); [|exact I].
    repeat split; try assumption. unfold done. apply Z.leb_gt. lia.
  - apply lookup_ge_None in Hlook. unfold size in Hdone. lia.
Qed.

(** The cursor after a number that was parsed. *)
Lemma set_pos_forward t p :
  0 <= pos_ t -> done contents t = false -> pos_ t < p ->
  0 <= pos_ (set_pos t p) /\
  bytes_left contents (set_pos t p) < bytes_left contents t.
Proof.
  intros Hpos Hdone Hp. unfold bytes_left. rewrite Hdone.
  unfold done in *. cbn [set_pos pos_]. apply Z.leb_gt in Hdone.
  destruct (Z.leb_spec (size contents) p); lia.
Qed.

Lemma read_int_forward t :
  0 <= pos_ t ->
  match read_int contents t with
  | Ok (_, t') => 0 <= pos_ t' /\ bytes_left contents t' < bytes_left contents t
  | Throw e => reading_error e
  | OutOfFuel => False
  end.
Proof.
  intros Hpos. unfold read_int.
  pose proof (advance_to_number_forward t Hpos) as Hnum.
  destruct (advance_to_number contents t) as [t1| |];
    cbn [mbind outcome_mbind outcome_bind]; try exact Hnum.
  destruct Hnum as (Hp1 & Hl1 & Hdone).
  destruct (toInt contents (pos_ t1)) as [[v p]|] eqn:E; [|exact I].
  destruct (set_pos_forward t1 p Hp1 Hdone (proj1 Hadvance _ _ _ _ E)). split; lia.
Qed.

Lemma read_float_forward t :
  0 <= pos_ t ->
  match read_float contents t with
  | Ok (_, t') => 0 <= pos_ t' /\ bytes_left contents t' < bytes_left contents t
  | Throw e => reading_error e
  | OutOfFuel => False
  end.
Proof.
  intros Hpos. unfold read_float.
  pose proof (advance_to_number_forward t Hpos) as Hnum.
  destruct (advance_to_number contents t) as [t1| |];
    cbn [mbind outcome_mbind outcome_bind]; try exact Hnum.
  destruct Hnum as (Hp1 & Hl1 & Hdone).
  destruct (toFloat contents (pos_ t1)) as [[v p]|] eqn:E; [|exact I].
  destruct (set_pos_forward t1 p Hp1 Hdone (proj2 Hadvance _ _ _ _ E)). split; lia.
Qed.

(** One record: the cursor moves forward when a sample is returned. *)
Lemma readSample_forward t :
  0 <= pos_ t ->
  match readSample contents t with
  | Ok (_, t') => 0 <= pos_ t' /\ bytes_left contents t' < bytes_left contents t
  | Throw e => reading_error e
  | OutOfFuel => False
  end.
Proof.
  intros Hpos. unfold readSample.
  pose proof (read_int_forward t Hpos) as H1.
  destruct (read_int contents t) as [[i t1]| |];
    cbn [mbind outcome_mbind outcome_bind]; try exact H1.
  destruct H1 as [Hp1 Hl1]. destruct (i <? 0); [exact I|].
  pose proof (read_int_forward t1 Hp1) as H2.
  destruct (read_int contents t1) as [[ty t2]| |];
    cbn [mbind outcome_mbind outcome_bind]; try exact H2.
  destruct H2 as [Hp2 Hl2].
  pose proof (read_float_forward t2 Hp2) as H3.
  destruct (read_float contents t2) as [[x t3]| |];
    cbn [mbind outcome_mbind outcome_bind]; try exact H3.
  destruct H3 as [Hp3 Hl3].
  pose proof (read_float_forward t3 Hp3) as H4.
  destruct (read_float contents t3) as [[y t4]| |];
    cbn [mbind outcome_mbind outcome_bind]; try exact H4.
  destruct H4 as [Hp4 Hl4].
  pose proof (read_float_forward t4 Hp4) as H5.
  destruct (read_float contents t4) as [[z t5]| |];
    cbn [mbind outcome_mbind outcome_bind]; try exact H5.
  destruct H5 as [Hp5 Hl5].
  pose proof (read_float_forward t5 Hp5) as H6.
  destruct (read_float contents t5) as [[radius t6]| |];
    cbn [mbind outcome_mbind outcome_bind]; try exact H6.
  destruct H6 as [Hp6 Hl6].
  pose proof (read_int_forward t6 Hp6) as H7.
  destruct (read_int contents t6) as [[parent t7]| |];
    cbn [mbind outcome_mbind outcome_bind]; try exact H7.
  destruct H7 as [Hp7 Hl7]. destruct (parent <? -1); [exact I|].
  destruct (consume_line_total contents Hsize t7 Hp7) as (ended & t8 & E & Hp8 & Hl8 & _).
  rewrite E. cbn [mbind outcome_mbind outcome_bind].
  destruct (negb ended); [exact I|]. split; lia.
Qed.

Lemma readSamples_loop_ends fuel : forall acc t,
  0 <= pos_ t -> bytes_left contents t < Z.of_nat fuel ->
  ends_reading (readSamples_loop contents fuel acc t).
Proof.
  induction fuel as [|fuel IH]; intros acc t Hpos Hfuel.
  - pose proof (bytes_left_range contents t Hpos). lia.
  - cbn [readSamples_loop]. destruct (done contents t); [exact I|].
    pose proof (readSample_forward t Hpos) as Hs.
    destruct (readSample contents t) as [[s t1]| |];
      cbn [mbind outcome_mbind outcome_bind]; try exact Hs.
    apply IH; lia.
Qed.

(** X21: for a parser that takes at least one byte for every number it
    parses, [readSamples] ends on every text: it returns the samples, or
    throws a [RawDataError] that is one of [EARLY_END_OF_FILE],
    [ERROR_LINE_NON_PARSABLE] and [ERROR_NEGATIVE_ID].  Its loops need no more
    turns than the text has bytes, and the text is never read outside its
    bounds. *)
Theorem readSamples_ends : ends_reading (readSamples contents).
Proof.
  unfold readSamples.
  destruct (consume_line_total contents Hsize (mkTok 0 1) (Z.le_refl 0))
    as (again & t & E & Hp & Hl & _).
  rewrite E. cbn [mbind outcome_mbind outcome_bind].
  apply readSamples_loop_ends; [exact Hp|].
  pose proof (bytes_left_range contents (mkTok 0 1) (Z.le_refl 0)).
  unfold fuel_, size in *. lia.
Qed.

End ReadingEnds.

(** The parsers of the rational instance take at least one byte. *)
Section RationalParsers.
Import Rational.

Lemma digits_count l : forall acc n, n <= (digits l acc n).1.2.
Proof.
  induction l as [|c l IH]; intros acc n; cbn [digits]; [cbn; lia|].
  destruct (digit_value c) as [d|]; [|cbn; lia].
  specialize (IH (10 * acc + d) (n + 1)). lia.
Qed.

Lemma sign_count l : 0 <= (sign l).1.2.
Proof.
  unfold sign. destruct l as [|c l]; [cbn; lia|].
  destruct (Ascii.eqb c "-"); [cbn; lia|]. destruct (Ascii.eqb c "+"); cbn; lia.
Qed.

Lemma rational_parsers_advance : parsers_advance.
Proof.
  split; intros contents pos v p; cbn [toInt toFloat string_to_number].
  - unfold parse_int.
    pose proof (sign_count (drop (Z.to_nat pos) contents)) as Hs.
    destruct (sign (drop (Z.to_nat pos) contents)) as [[sg n0] l].
    pose proof (digits_count l 0 0) as Hd.
    destruct (digits l 0 0) as [[v' n] r]. cbn in Hs, Hd.
    destruct (Z.eqb_spec n 0); [discriminate|]. intros [= _ <-]. lia.
  - unfold parse_float.
    pose proof (sign_count (drop (Z.to_nat pos) contents)) as Hs.
    destruct (sign (drop (Z.to_nat pos) contents)) as [[sg n0] l].
    pose proof (digits_count l 0 0) as Hd.
    destruct (digits l 0 0) as [[ip n1] l1]. cbn in Hs, Hd.
    assert (Hexp : forall l2 : list ascii,
              0 <= (match l2 with
                    | c :: l' =>
                      if Ascii.eqb c "e" || Ascii.eqb c "E" then
                        let '(esg, en0, l'') := sign l' in
                        let '(ev, en, _) := digits l'' 0 0 in
                        if (en =? 0)%Z then (0, 0)%Z else ((esg * ev)%Z, (1 + en0 + en)%Z)
                      else (0, 0)%Z
                    | [] => (0, 0)%Z
                    end).2).
    { intros [|c l']; [cbn; lia|]. destruct (_ || _); [|cbn; lia].
      pose proof (sign_count l') as Hs'. destruct (sign l') as [[esg en0] l''].
      pose proof (digits_count l'' 0 0) as Hd'. destruct (digits l'' 0 0) as [[ev en] r].
      cbn in Hs', Hd'. destruct (en =? 0); cbn; lia. }
    destruct l1 as [|c l1'].
    + destruct (Z.eqb_spec (n1 + 0) 0); [discriminate|].
      specialize (Hexp []). cbn in Hexp |- *. intros [= _ <-]. lia.
    + destruct (Ascii.eqb c ".").
      * pose proof (digits_count l1' ip 0) as Hk.
        destruct (digits l1' ip 0) as [[m k] l2]. cbn in Hk.
        destruct (Z.eqb_spec (n1 + k) 0); [discriminate|].
        specialize (Hexp l2).
        destruct (match l2 with [] => _ | _ => _ end) as [ex ne]. cbn in Hexp.
        intros [= _ <-]. lia.
      * destruct (Z.eqb_spec (n1 + 0) 0); [discriminate|].
        specialize (Hexp (c :: l1')). cbv beta iota in Hexp.
        match goal with
        | |- context [if ?c then ?a else ?b] => destruct (if c then a else b) as [ex ne]
        end.
        cbn in Hexp.
        intros [= _ <-]. lia.
Qed.

End RationalParsers.

(** ** The further properties on concrete inputs *)

Section FurtherWitnesses.
Import Rational Scenario.

Lemma commented_file_size : size commented_file < 2 ^ 64.
Proof. vm_compute. reflexivity. Qed.

Lemma single_point_size : size single_point < 2 ^ 64.
Proof. vm_compute. reflexivity. Qed.

Lemma parent_line_first_well_formed : Forall well_formed parent_line_first.
Proof. repeat constructor; cbn; unfold SWC_ROOT; lia. Qed.

Lemma parent_line_first_ids : NoDup (map id parent_line_first).
Proof.
  cbn. repeat (apply NoDup_cons; split; [rewrite ?elem_of_cons, elem_of_nil; lia|]).
  apply NoDup_nil_2.
Qed.

Lemma parent_line_first_valid : valid_samples parent_line_first.
Proof.
  split; [exact parent_line_first_well_formed|]. split; [exact parent_line_first_ids|].
  apply Forall_cons. split; [left; reflexivity|].
  apply Forall_cons. split; [right; cbn; left|]. apply Forall_nil_2.
Qed.

(** X1 on the file of a comment line and a record: from the start, the
    first newline is the byte 6. *)
Lemma skip_to_stops_at_first_occurrence_witness :
  skip_to commented_file newline (mkTok 0 1) = mkTok 6 1 /\
  commented_file !! 6%nat = Some newline.
Proof.
  exact (skip_to_stops_at_first_occurrence commented_file []
           (list_ascii_of_string "# soma") newline
           (list_ascii_of_string "1 1 0 0 0 1 -1" ++ [newline]) (mkTok 0 1) eq_refl
           ltac:(repeat constructor; discriminate) eq_refl).
Defined.

(** X2 on the same file, from its start. *)
Lemma consume_line_stops_at_token_witness :
  size commented_file < 2 ^ 64 /\
  exists again t',
    consume_line_and_trailing_comments commented_file (mkTok 0 1) = Ok (again, t') /\
    at_token commented_file t' /\
    bytes_left commented_file t' <= bytes_left commented_file (mkTok 0 1).
Proof.
  split; [exact commented_file_size|].
  exact (consume_line_stops_at_token commented_file commented_file_size (mkTok 0 1)
           (Z.le_refl 0)).
Defined.

(** X3 on the file of one record, from its start. *)
Lemma advance_to_number_outcomes_witness :
  size single_point < 2 ^ 64 /\
  match advance_to_number single_point (mkTok 0 1) with
  | Ok t' => exists c, at_ single_point (pos_ t') = Some c /\ number_start c = true
  | Throw (RawDataError (EARLY_END_OF_FILE _)) => True
  | Throw (RawDataError (ERROR_LINE_NON_PARSABLE _)) => True
  | _ => False
  end.
Proof.
  split; [exact single_point_size|].
  exact (advance_to_number_outcomes single_point single_point_size (mkTok 0 1)
           (Z.le_refl 0)).
Defined.

(** X4 on the file of a comment line and a record: the comment line is
    skipped and the cursor is left on the record, on line 2. *)
Lemma comment_is_skipped_witness :
  consume_line_and_trailing_comments commented_file (mkTok 0 1) = Ok (true, mkTok 7 2).
Proof.
  exact (comment_is_skipped commented_file commented_file_size []
           (list_ascii_of_string " soma") [] "1"%char
           (list_ascii_of_string " 1 0 0 0 1 -1" ++ [newline]) (mkTok 0 1) eq_refl
           ltac:(repeat constructor; discriminate) (Forall_nil_2 _)
           ltac:(repeat split; (reflexivity || discriminate)) eq_refl
           ltac:(cbn; lia) ltac:(cbn; lia)).
Defined.

(** X5 on the text [#abc]. *)
Lemma unterminated_comment_ends_text_witness :
  consume_line_and_trailing_comments unterminated_comment (mkTok 0 1) =
    Ok (true, mkTok npos 1) /\
  done unterminated_comment (mkTok npos 1) = true.
Proof.
  exact (unterminated_comment_ends_text unterminated_comment
           ltac:(vm_compute; reflexivity) [] (list_ascii_of_string "abc") (mkTok 0 1)
           eq_refl ltac:(repeat constructor; discriminate) eq_refl).
Defined.

(** X6 on a file of two blank lines. *)
Lemma blank_text_has_no_sample_witness :
  readSamples blank_file = Ok [] /\ load blank_file = mkRun new_builder [] (Ok tt).
Proof.
  exact (blank_text_has_no_sample blank_file ltac:(vm_compute; reflexivity)
           ltac:(repeat constructor)).
Defined.

(** X7 on a record whose id, 2^32 + 1, is stored as 1, and whose parent,
    2^32 - 3, is stored as [SWC_ROOT]; and on the record of one point, whose
    parent [-1] is stored as [SWC_ROOT]. *)
Lemma readSample_converts_fields_witness :
  (read_int wrapped_record (mkTok 0 1) = Ok (4294967297, mkTok 10 1) /\
   read_int wrapped_record (mkTok 20 1) = Ok (4294967293, mkTok 31 1) /\
   exists s,
     readSample wrapped_record (mkTok 0 1) = Ok (s, mkTok 32 2) /\
     id s = 1 /\ parentId s = SWC_ROOT /\ lineNumber s = 1) /\
  (read_int single_point (mkTok 11 1) = Ok (-1, mkTok 14 1) /\
   exists s,
     readSample single_point (mkTok 0 1) = Ok (s, mkTok 15 2) /\
     id s = 1 /\ parentId s = SWC_ROOT /\ lineNumber s = 1).
Proof.
  assert (H1 : read_int wrapped_record (mkTok 0 1) = Ok (4294967297, mkTok 10 1))
    by (vm_compute; reflexivity).
  assert (H2 : read_int wrapped_record (mkTok 10 1) = Ok (1, mkTok 12 1))
    by (vm_compute; reflexivity).
  assert (H3 : read_float wrapped_record (mkTok 12 1) = Ok (float_of_int 0, mkTok 14 1))
    by (vm_compute; reflexivity).
  assert (H4 : read_float wrapped_record (mkTok 14 1) = Ok (float_of_int 0, mkTok 16 1))
    by (vm_compute; reflexivity).
  assert (H5 : read_float wrapped_record (mkTok 16 1) = Ok (float_of_int 0, mkTok 18 1))
    by (vm_compute; reflexivity).
  assert (H6 : read_float wrapped_record (mkTok 18 1) = Ok (float_of_int 1, mkTok 20 1))
    by (vm_compute; reflexivity).
  assert (H7 : read_int wrapped_record (mkTok 20 1) = Ok (4294967293, mkTok 31 1))
    by (vm_compute; reflexivity).
  assert (H8 : consume_line_and_trailing_comments wrapped_record (mkTok 31 1) =
               Ok (true, mkTok 32 2))
    by (vm_compute; reflexivity).
  assert (G1 : read_int single_point (mkTok 0 1) = Ok (1, mkTok 1 1))
    by (vm_compute; reflexivity).
  assert (G2 : read_int single_point (mkTok 1 1) = Ok (1, mkTok 3 1))
    by (vm_compute; reflexivity).
  assert (G3 : read_float single_point (mkTok 3 1) = Ok (float_of_int 0, mkTok 5 1))
    by (vm_compute; reflexivity).
  assert (G4 : read_float single_point (mkTok 5 1) = Ok (float_of_int 0, mkTok 7 1))
    by (vm_compute; reflexivity).
  assert (G5 : read_float single_point (mkTok 7 1) = Ok (float_of_int 0, mkTok 9 1))
    by (vm_compute; reflexivity).
  assert (G6 : read_float single_point (mkTok 9 1) = Ok (float_of_int 1, mkTok 11 1))
    by (vm_compute; reflexivity).
  assert (G7 : read_int single_point (mkTok 11 1) = Ok (-1, mkTok 14 1))
    by (vm_compute; reflexivity).
  assert (G8 : consume_line_and_trailing_comments single_point (mkTok 14 1) =
               Ok (true, mkTok 15 2))
    by (vm_compute; reflexivity).
  split.
  - split; [exact H1|]. split; [exact H7|].
    destruct (readSample_converts_fields _ _ _ _ _ _ _ _ _ _ _ _ _ _ _ _ _
                H1 ltac:(lia) H2 H3 H4 H5 H6 H7 ltac:(lia) H8)
      as (s & Hs & Hid & _ & Hparent & _ & _ & Hline & _).
    exists s. split; [exact Hs|]. split; [exact Hid|]. split; [exact Hparent|exact Hline].
  - split; [exact G7|].
    destruct (readSample_converts_fields _ _ _ _ _ _ _ _ _ _ _ _ _ _ _ _ _
                G1 ltac:(lia) G2 G3 G4 G5 G6 G7 ltac:(lia) G8)
      as (s & Hs & Hid & _ & Hparent & _ & _ & Hline & _).
    exists s. split; [exact Hs|]. split; [exact Hid|]. split; [exact Hparent|exact Hline].
Defined.

(** X8 on two records with the id 1: the second is refused. *)
Lemma first_refused_sample_decides_error_witness :
  result (buildSWC_fuel 3 3
            ([soma_sample 1 (pt 0 0 0) SWC_ROOT 1] ++
             soma_sample 1 (pt 0 0 1) SWC_ROOT 2 :: []) new_builder) =
    Throw (RawDataError
             (refusal ([soma_sample 1 (pt 0 0 0) SWC_ROOT 1] ++
                       soma_sample 1 (pt 0 0 1) SWC_ROOT 2 :: [])
                (soma_sample 1 (pt 0 0 1) SWC_ROOT 2))) /\
  final (buildSWC_fuel 3 3
           ([soma_sample 1 (pt 0 0 0) SWC_ROOT 1] ++
            soma_sample 1 (pt 0 0 1) SWC_ROOT 2 :: []) new_builder) =
    foldl indexed new_builder [soma_sample 1 (pt 0 0 0) SWC_ROOT 1].
Proof.
  apply (first_refused_sample_decides_error 3 3 [soma_sample 1 (pt 0 0 0) SWC_ROOT 1]
           (soma_sample 1 (pt 0 0 1) SWC_ROOT 2) []).
  - repeat constructor; cbn; unfold SWC_ROOT; lia.
  - cbn. apply NoDup_cons. split; [apply not_elem_of_nil|apply NoDup_nil_2].
  - intros [_ Hfresh]. apply Hfresh. cbn. left.
Defined.

(** X9 on a soma sample and an axon sample whose parent 99 is no id. *)
Lemma first_missing_parent_decides_error_witness :
  result (buildSWC_fuel 3 3
            ([soma_sample 1 (pt 0 0 0) SWC_ROOT 1] ++
             axon_sample 2 (pt 0 0 1) 99 2 :: []) new_builder) =
    Throw (MissingParentError (ERROR_MISSING_PARENT (axon_sample 2 (pt 0 0 1) 99 2))) /\
  final (buildSWC_fuel 3 3
           ([soma_sample 1 (pt 0 0 0) SWC_ROOT 1] ++
            axon_sample 2 (pt 0 0 1) 99 2 :: []) new_builder) =
    foldl indexed new_builder
      ([soma_sample 1 (pt 0 0 0) SWC_ROOT 1] ++ axon_sample 2 (pt 0 0 1) 99 2 :: []).
Proof.
  apply (first_missing_parent_decides_error 3 3 [soma_sample 1 (pt 0 0 0) SWC_ROOT 1]
           (axon_sample 2 (pt 0 0 1) 99 2) []).
  - repeat constructor; cbn; unfold SWC_ROOT; lia.
  - cbn. repeat (apply NoDup_cons; split; [rewrite ?elem_of_cons, elem_of_nil; lia|]).
    apply NoDup_nil_2.
  - repeat constructor.
  - intros [Hroot|Hin]; [discriminate Hroot|].
    cbn in Hin. rewrite !elem_of_cons, elem_of_nil in Hin. lia.
Defined.

(** X10 on a soma sample and an axon sample, its child. *)
Lemma buildSWC_returns_on_valid_samples_only_witness :
  result (buildSWC_fuel 3 3 parent_line_first new_builder) = Ok tt /\
  valid_samples parent_line_first.
Proof.
  assert (Hres : result (buildSWC_fuel 3 3 parent_line_first new_builder) = Ok tt)
    by (vm_compute; reflexivity).
  split; [exact Hres|].
  exact (buildSWC_returns_on_valid_samples_only 3 3 parent_line_first tt Hres).
Defined.

(** X11 on the same samples. *)
Lemma index_holds_the_samples_witness :
  (forall i s,
     samples_ (final (buildSWC_fuel 3 3 parent_line_first new_builder)) !! i = Some s <->
     s ∈ parent_line_first /\ id s = i) /\
  (forall p,
     children_ (final (buildSWC_fuel 3 3 parent_line_first new_builder)) !! p =
     match siblings p parent_line_first with [] => None | c => Some (map id c) end).
Proof.
  exact (index_holds_the_samples 3 3 parent_line_first
           parent_line_first_well_formed parent_line_first_ids).
Defined.

(** X12 on the same samples, which give no warning, and on a soma sample
    with an axon sample without parent, warned of as a disconnected
    neurite. *)
Lemma warnings_of_valid_samples_witness :
  (exists late,
     warned (buildSWC_fuel 3 3 parent_line_first new_builder) =
       flat_map index_warnings parent_line_first ++ late /\
     Forall late_warning late) /\
  valid_samples unlinked_samples /\
  flat_map index_warnings unlinked_samples =
    [DISCONNECTED_NEURITE (axon_sample 2 (pt 0 0 1) SWC_ROOT 2)] /\
  (exists late,
     warned (buildSWC_fuel 3 3 unlinked_samples new_builder) =
       flat_map index_warnings unlinked_samples ++ late /\
     Forall late_warning late).
Proof.
  assert (Hvalid : valid_samples unlinked_samples).
  { split; [repeat constructor; cbn; unfold SWC_ROOT; lia|]. split.
    - cbn. repeat (apply NoDup_cons; split; [rewrite ?elem_of_cons, elem_of_nil; lia|]).
      apply NoDup_nil_2.
    - apply Forall_cons. split; [left; reflexivity|].
      apply Forall_cons. split; [left; reflexivity|]. apply Forall_nil_2. }
  split; [exact (warnings_of_valid_samples 3 3 parent_line_first parent_line_first_valid)|].
  split; [exact Hvalid|]. split; [vm_compute; reflexivity|].
  exact (warnings_of_valid_samples 3 3 unlinked_samples Hvalid).
Defined.

(** X13 on the same samples, read from the lines 1 and 2 and from the lines
    10 and 20. *)
Lemma line_numbers_do_not_reach_output_witness :
  morph_ (final (buildSWC parent_line_first new_builder)) =
  morph_ (final (buildSWC [soma_sample 1 (pt 0 0 0) SWC_ROOT 10;
                           axon_sample 2 (pt 0 0 1) 1 20] new_builder)) /\
  (result (buildSWC parent_line_first new_builder) = Ok tt <->
   result (buildSWC [soma_sample 1 (pt 0 0 0) SWC_ROOT 10;
                     axon_sample 2 (pt 0 0 1) 1 20] new_builder) = Ok tt).
Proof.
  exact (line_numbers_do_not_reach_output parent_line_first
           [soma_sample 1 (pt 0 0 0) SWC_ROOT 10; axon_sample 2 (pt 0 0 1) 1 20] eq_refl).
Defined.

(** X14 on the samples of S5: the second section. *)
Lemma sections_are_made_of_samples_witness :
  sections (morph_ (final (buildSWC_fuel 6 6 fork_samples new_builder))) !! 1%nat =
    Some (axon_section (Some 0%nat) [pt 0 0 2; pt 0 1 3]) /\
  built_from (fun s => s ∈ fork_samples) 2
    (mkPointLevel [pt 0 0 2; pt 0 1 3] [float_of_int 2; float_of_int 2]).
Proof.
  assert (Hk : sections (morph_ (final (buildSWC_fuel 6 6 fork_samples new_builder)))
                 !! 1%nat = Some (axon_section (Some 0%nat) [pt 0 0 2; pt 0 1 3]))
    by (vm_compute; reflexivity).
  split; [exact Hk|].
  exact (proj1 (sections_are_made_of_samples 6 6 fork_samples 1
                  (axon_section (Some 0%nat) [pt 0 0 2; pt 0 1 3]) Hk)).
Defined.

(** X15 on the samples of S5: the second section and its parent. *)
Lemma sections_are_appended_parents_first_witness :
  (0 < 1)%nat /\
  is_Some (sections (morph_ (final (buildSWC_fuel 6 6 fork_samples new_builder))) !! 0%nat).
Proof.
  apply (sections_are_appended_parents_first 6 6 fork_samples 1
           (axon_section (Some 0%nat) [pt 0 0 2; pt 0 1 3]) 0).
  - vm_compute. reflexivity.
  - reflexivity.
Defined.

(** X16 on a soma sample and an axon sample. *)
Lemma soma_of_the_output_witness :
  soma (morph_ (final (buildSWC_fuel 3 3 parent_line_first new_builder))) =
    mkSoma (soma_variant (List.filter is_soma parent_line_first))
           (map point (List.filter is_soma parent_line_first))
           (map diameter (List.filter is_soma parent_line_first)).
Proof.
  apply (soma_of_the_output 3 3 parent_line_first tt). vm_compute. reflexivity.
Defined.

(** X17 on the chain of S4: the samples 2, 3 and 4 become one section. *)
Lemma chain_becomes_one_section_witness :
  assembleSections 3 1 2 1 (pt 0 0 0) (float_of_int 2) true
    (foldl indexed new_builder chain_samples) =
    mkRun {| children_ := children_ (foldl indexed new_builder chain_samples);
             samples_ := samples_ (foldl indexed new_builder chain_samples);
             morph_ :=
               {| soma := soma (morph_ (foldl indexed new_builder chain_samples));
                  sections :=
                    sections (morph_ (foldl indexed new_builder chain_samples)) ++
                    [mkSection None 2
                       (mkPointLevel [pt 0 0 1; pt 0 0 2; pt 0 0 3]
                          [float_of_int 2; float_of_int 2; float_of_int 2])] |};
             declared_to_swc :=
               <[4 := length (sections (morph_ (foldl indexed new_builder chain_samples)))]>
                 (declared_to_swc (foldl indexed new_builder chain_samples)) |}
          [] (Ok tt).
Proof.
  apply (chain_becomes_one_section 3 0 (foldl indexed new_builder chain_samples)
           [axon_sample 2 (pt 0 0 1) 1 2; axon_sample 3 (pt 0 0 2) 2 3]
           (axon_sample 4 (pt 0 0 3) 3 4) 1 (pt 0 0 0) (float_of_int 2)).
  - cbn [chain_of hd]. repeat (split; [vm_compute; reflexivity|]). exact I.
  - split; [vm_compute; reflexivity|]. intros c Hc. vm_compute in Hc. discriminate Hc.
  - vm_compute. reflexivity.
  - cbn. lia.
Defined.

(** X18 on two samples without parent. *)
Lemma samples_without_links_give_no_section_witness :
  Forall (fun s => parentId s = SWC_ROOT) unlinked_samples /\
  sections (morph_ (final (buildSWC_fuel 3 3 unlinked_samples new_builder))) = [].
Proof.
  assert (Hroots : Forall (fun s => parentId s = SWC_ROOT) unlinked_samples)
    by (repeat constructor).
  split; [exact Hroots|].
  exact (samples_without_links_give_no_section 3 3 unlinked_samples Hroots).
Defined.

(** X21 on the file of one record, with the parsers of the rational
    instance. *)
Lemma readSamples_ends_witness :
  size single_point < 2 ^ 64 /\ parsers_advance /\ ends_reading (readSamples single_point).
Proof.
  split; [exact single_point_size|]. split; [exact rational_parsers_advance|].
  exact (readSamples_ends single_point single_point_size rational_parsers_advance).
Defined.

End FurtherWitnesses.

(** ** A change of type along a chain *)

Section TypeChange.
Context `{Float : FloatOps} `{Enum : SectionTypes}.

Lemma back_run {A} (l : list A) x b : last l = Some x -> back l b = mkRun b [] (Ok x).
Proof. intros E. unfold back. rewrite E. reflexivity. Qed.

(** A sample without children, reached from its parent section: one section
    is appended to the parent's, starting with a copy of the parent's last
    point when the sample is not at that point. *)
Lemma leaf_section steps fuel b child parent_id parent_handle start_point start_diameter :
  samples_ b !! id child = Some child ->
  child_count b (id child) = 0 ->
  declared_to_swc b !! parent_id = Some parent_handle ->
  assembleSections (S steps) (S fuel) (id child) parent_id start_point start_diameter false b =
    mkRun {| children_ := children_ b; samples_ := samples_ b;
             morph_ := {| soma := soma (morph_ b);
                          sections := sections (morph_ b) ++
                            [mkSection (Some parent_handle) (type child)
                               (push_back
                                  (if point_ne (point child) start_point
                                   then mkPointLevel [start_point] [start_diameter]
                                   else mkPointLevel [] [])
                                  child)] |};
             declared_to_swc :=
               <[id child := length (sections (morph_ b))]> (declared_to_swc b) |}
          [] (Ok tt).
Proof.
  intros Hchild Hleaf Hparent. cbn [assembleSections negb andb].
  rewrite (bind_ok _ _ _ _ _ _ (samples_at_run _ _ _ Hchild)).
  rewrite (bind_ok _ _ _ _ _ _ (get_child_count_run _ _)).
  rewrite Hleaf. cbn [collapse Z.eqb]. rewrite bind_ret.
  rewrite (bind_ok _ _ _ _ _ _ (samples_at_run _ _ _ Hchild)).
  unfold append_section, appendSection, set_morph.
  repeat mstep. rewrite Hparent. repeat mstep.
  cbn [modify final warned result app ret]. reflexivity.
Qed.

(** At the end of a chain whose last sample has one child, of another type:
    the section of the chain is appended and the child is assembled from
    the last point of the chain. *)
Lemma chain_then_child steps fuel b ss last_sample child parent_id
    start_point start_diameter :
  chain_of b ss last_sample ->
  samples_ b !! id last_sample = Some last_sample ->
  children_ b !! id last_sample = Some [id child] ->
  samples_ b !! id child = Some child ->
  type last_sample <> type child ->
  (length ss < steps)%nat ->
  assembleSections steps (S fuel) (id (hd last_sample ss)) parent_id
    start_point start_diameter true b =
  assembleSections steps fuel (id child) (id last_sample)
    (point last_sample) (diameter last_sample) false
    {| children_ := children_ b; samples_ := samples_ b;
       morph_ := {| soma := soma (morph_ b);
                    sections := sections (morph_ b) ++
                      [mkSection None (type last_sample)
                         (mkPointLevel (map point (ss ++ [last_sample]))
                                       (map diameter (ss ++ [last_sample])))] |};
       declared_to_swc :=
         <[id last_sample := length (sections (morph_ b))]> (declared_to_swc b) |}.
Proof.
  intros Hchain Hlast Hchildren Hchild Htype Hsteps.
  assert (Hstop : chain_stops b last_sample).
  { split; [exact Hlast|]. intros c Hc. rewrite Hchildren in Hc. injection Hc as <-.
    exists child. auto. }
  assert (Hcount : child_count b (id last_sample) = 1)
    by (unfold child_count; rewrite Hchildren; reflexivity).
  assert (Hfirst : samples_ b !! id (hd last_sample ss) = Some (hd last_sample ss)).
  { destruct ss as [|s ss]; [exact Hlast|exact (proj1 Hchain)]. }
  cbn [assembleSections negb andb].
  rewrite (bind_ok _ _ _ _ _ _ (samples_at_run _ _ _ Hfirst)).
  rewrite (bind_ok _ _ _ _ _ _ (get_child_count_run _ _)).
  rewrite (bind_ok _ _ _ _ _ _
             (collapse_chain b last_sample ss steps _ Hchain Hstop Hsteps)).
  rewrite (bind_ok _ _ _ _ _ _ (samples_at_run _ _ _ Hlast)).
  rewrite Hcount. cbn [Z.eqb Pos.eqb].
  unfold append_section, appendRootSection, set_morph.
  repeat mstep.
  rewrite (bind_ok _ _ _ _ _ _ (back_run _ _ _ (last_push_back _ _))).
  rewrite (bind_ok _ _ _ _ _ _ (back_run _ _ _ (last_push_back_diameter _ _))).
  match goal with |- context [(children_at _ ≫= _) ?b'] =>
    rewrite (bind_ok _ _ _ _ _ _ (children_at_run (id last_sample) [id child] b' Hchildren))
  end.
  cbn [front]. rewrite bind_ret.
  cbn [final warned result app]. rewrite run_eta.
  rewrite foldl_push_back. unfold push_back. cbn [_points _diameters app].
  rewrite !map_app. reflexivity.
Qed.

(** X22: a change of type splits a chain.  Called as a root on the first
    sample of a chain whose last sample has exactly one child, of another
    type and itself without children, [assembleSections] appends two
    sections: the root section of the chain, then a section of the child's
    type whose parent is the first and which holds the child's point, with
    a copy of the chain's last point and diameter in front when the test
    [!=] tells the two points apart. *)
Theorem type_change_splits_the_chain steps fuel b ss last_sample child parent_id
    start_point start_diameter :
  chain_of b ss last_sample ->
  samples_ b !! id last_sample = Some last_sample ->
  children_ b !! id last_sample = Some [id child] ->
  samples_ b !! id child = Some child ->
  type last_sample <> type child ->
  child_count b (id child) = 0 ->
  (length ss < S steps)%nat ->
  assembleSections (S steps) (S (S fuel)) (id (hd last_sample ss)) parent_id
    start_point start_diameter true b =
    mkRun {| children_ := children_ b; samples_ := samples_ b;
             morph_ := {| soma := soma (morph_ b);
                          sections := sections (morph_ b) ++
                            [mkSection None (type last_sample)
                               (mkPointLevel (map point (ss ++ [last_sample]))
                                             (map diameter (ss ++ [last_sample])));
                             mkSection (Some (length (sections (morph_ b)))) (type child)
                               (if point_ne (point child) (point last_sample)
                                then mkPointLevel [point last_sample; point child]
                                                  [diameter last_sample; diameter child]
                                else mkPointLevel [point child] [diameter child])] |};
             declared_to_swc :=
               <[id child := S (length (sections (morph_ b)))]>
                 (<[id last_sample := length (sections (morph_ b))]> (declared_to_swc b)) |}
          [] (Ok tt).
Proof.
  intros Hchain Hlast Hchildren Hchild Htype Hleaf Hsteps.
  rewrite (chain_then_child (S steps) (S fuel) b ss last_sample child)
    by assumption.
  rewrite (leaf_section steps fuel _ child (id last_sample)
             (length (sections (morph_ b)))); cbn [samples_ children_ declared_to_swc];
    [|exact Hchild|exact Hleaf|apply lookup_insert_eq].
  cbn [morph_ sections soma].
  rewrite length_app, <- app_assoc. cbn [app length].
  rewrite Nat.add_1_r. unfold push_back.
  destruct (point_ne (point child) (point last_sample)); reflexivity.
Qed.

End TypeChange.

Section TypeChangeWitness.
Import Rational Scenario.

(** X22 on a chain of two axon samples followed by a sample of type 3. *)
Lemma type_change_splits_the_chain_witness :
  sections (morph_ (final
    (assembleSections 3 2 2 1 (pt 0 0 0) (float_of_int 2) true
       (foldl indexed new_builder typed_chain_samples)))) =
    [mkSection None 2 (mkPointLevel [pt 0 0 1; pt 0 0 2] [float_of_int 2; float_of_int 2]);
     mkSection (Some 0%nat) 3
       (mkPointLevel [pt 0 0 2; pt 0 0 3] [float_of_int 2; float_of_int 2])].
Proof.
  pose proof (type_change_splits_the_chain 2 0 (foldl indexed new_builder typed_chain_samples)
                [axon_sample 2 (pt 0 0 1) 1 2] (axon_sample 3 (pt 0 0 2) 2 3)
                (mkSample 4 3 (pt 0 0 3) (float_of_int 2) 3 4) 1 (pt 0 0 0) (float_of_int 2))
    as Hsplit.
  cbn [hd id axon_sample] in Hsplit. rewrite Hsplit.
  - vm_compute. reflexivity.
  - cbn [chain_of hd]. repeat (split; [vm_compute; reflexivity|]). exact I.
  - vm_compute. reflexivity.
  - vm_compute. reflexivity.
  - vm_compute. reflexivity.
  - cbn. lia.
  - vm_compute. reflexivity.
  - cbn. lia.
Defined.

End TypeChangeWitness.

(** ** Neurites attached to the soma *)

Section Star.
Context `{Float : FloatOps} `{Enum : SectionTypes}.

(** A root call on a sample without children appends the section of that
    sample alone. *)
Lemma root_leaf_run steps fuel b c parent_id start_point start_diameter :
  samples_ b !! id c = Some c -> child_count b (id c) = 0 ->
  assembleSections (S steps) (S fuel) (id c) parent_id start_point start_diameter true b =
    mkRun {| children_ := children_ b; samples_ := samples_ b;
             morph_ := {| soma := soma (morph_ b);
                          sections := sections (morph_ b) ++ [root_leaf c] |};
             declared_to_swc :=
               <[id c := length (sections (morph_ b))]> (declared_to_swc b) |}
          [] (Ok tt).
Proof.
  intros Hc Hleaf. cbn [assembleSections negb andb].
  rewrite (bind_ok _ _ _ _ _ _ (samples_at_run _ _ _ Hc)).
  rewrite (bind_ok _ _ _ _ _ _ (get_child_count_run _ _)).
  rewrite Hleaf. cbn [collapse Z.eqb]. rewrite bind_ret.
  rewrite (bind_ok _ _ _ _ _ _ (samples_at_run _ _ _ Hc)).
  unfold append_section, appendRootSection, set_morph.
  repeat mstep. cbn [modify final warned result app ret]. reflexivity.
Qed.

(** The loop over the children of a soma root sample, when the children are
    neurite samples without children: one root section each, in order. *)
Lemma assemble_root_leaves steps fuel root cs : forall b,
  type root = SECTION_SOMA ->
  Forall (fun c => samples_ b !! id c = Some c /\ type c <> SECTION_SOMA /\
                   child_count b (id c) = 0) cs ->
  soma_points (soma (morph_ b)) <> [] -> soma_diameters (soma (morph_ b)) <> [] ->
  result (assemble_root (S steps) (S fuel) root (map id cs) b) = Ok tt /\
  warned (assemble_root (S steps) (S fuel) root (map id cs) b) = [] /\
  morph_ (final (assemble_root (S steps) (S fuel) root (map id cs) b)) =
    {| soma := soma (morph_ b); sections := sections (morph_ b) ++ map root_leaf cs |}.
Proof.
  induction cs as [|c cs IH]; intros b Hroot Hcs Hpoints Hdiameters.
  - cbn. rewrite app_nil_r. repeat split. destruct (morph_ b); reflexivity.
  - apply Forall_cons in Hcs as [(Hc & Hty & Hleaf) Hcs].
    cbn [map assemble_root].
    rewrite (bind_ok _ _ _ _ _ _ (samples_at_run _ _ _ Hc)).
    replace (type c =? SECTION_SOMA) with false by (symmetry; apply Z.eqb_neq; exact Hty).
    rewrite Hroot, Z.eqb_refl. rewrite bind_gets.
    destruct (soma_points (soma (morph_ b))) as [|p ps] eqn:Ep; [contradiction|].
    destruct (soma_diameters (soma (morph_ b))) as [|d ds] eqn:Ed; [contradiction|].
    cbn [front]. rewrite !bind_ret.
    rewrite (bind_ok _ _ _ _ _ _ (root_leaf_run steps fuel b c _ _ _ Hc Hleaf)).
    cbn [final warned result app].
    match goal with |- context [assemble_root _ _ _ _ ?b'] =>
      destruct (IH b' Hroot) as (Hres & Hwarn & Hmorph)
    end.
    + eapply Forall_impl; [exact Hcs|]. intros c' (Hc' & Hty' & Hleaf'). cbv beta.
      unfold child_count in *. cbn [samples_ children_]. auto.
    + cbn [morph_ soma]. rewrite Ep. discriminate.
    + cbn [morph_ soma]. rewrite Ed. discriminate.
    + rewrite Hres, Hwarn, Hmorph. cbn [morph_ soma sections map].
      rewrite <- app_assoc. repeat split.
Qed.

Lemma filter_none {A} (f : A -> bool) (l : list A) :
  Forall (fun x => f x = false) l -> List.filter f l = [].
Proof.
  induction 1 as [|x l Hx Hl IH]; [reflexivity|]. cbn [List.filter]. rewrite Hx. exact IH.
Qed.

Lemma siblings_all p (l : list Sample) :
  Forall (fun x => parentId x = p) l -> siblings p l = l.
Proof.
  induction 1 as [|x l Hx Hl IH]; [reflexivity|]. unfold siblings in *.
  cbn [List.filter]. rewrite Hx, Z.eqb_refl, IH. reflexivity.
Qed.

(** X23: a soma sample without parent, followed by neurite samples that all
    have it as parent and have no children themselves: [buildSWC] returns, the
    soma is a [SOMA_SINGLE_POINT] soma with the point and the diameter of the
    soma sample, and each neurite sample gives one root section, in the
    order of the vector, holding its own point and diameter only: the soma
    point is not put in front. *)
Theorem neurites_on_the_soma_are_root_sections steps fuel (s : Sample) (cs : list Sample) :
  Forall well_formed (s :: cs) -> NoDup (map id (s :: cs)) ->
  type s = SECTION_SOMA -> parentId s = SWC_ROOT ->
  Forall (fun c => parentId c = id s /\ type c <> SECTION_SOMA /\ id c <> SWC_ROOT) cs ->
  result (buildSWC_fuel (S steps) (S fuel) (s :: cs) new_builder) = Ok tt /\
  morph_ (final (buildSWC_fuel (S steps) (S fuel) (s :: cs) new_builder)) =
    {| soma := mkSoma SOMA_SINGLE_POINT [point s] [diameter s];
       sections := map root_leaf cs |}.
Proof.
  intros Hwf Hnd Hsoma Hroot Hcs.
  set (l := s :: cs) in *.
  assert (Hid : id s <> SWC_ROOT).
  { apply Forall_cons in Hwf as [[Hself _] _]. congruence. }
  assert (Hpar : Forall (parent_resolves (samples_ (foldl indexed new_builder l))) l).
  { apply (resolve_all_iff l l Hnd). apply Forall_cons. split; [left; exact Hroot|].
    eapply Forall_impl; [exact Hcs|]. intros c (Hp & _). cbv beta.
    right. rewrite Hp. cbn. left. }
  rewrite (buildSWC_indexed (S steps) (S fuel) l Hwf Hnd Hpar). cbn [final result].
  assert (Hsomas : List.filter is_soma l = [s]).
  { unfold l. cbn [List.filter]. unfold is_soma at 1. rewrite Hsoma, Z.eqb_refl.
    rewrite filter_none; [reflexivity|].
    eapply Forall_impl; [exact Hcs|]. intros c (_ & Hty & _). cbv beta.
    unfold is_soma. apply Z.eqb_neq. exact Hty. }
  assert (Hroots : List.filter is_root l = [s]).
  { unfold l. cbn [List.filter]. unfold is_root at 1. rewrite Hroot, Z.eqb_refl.
    cbn [orb]. rewrite filter_none; [reflexivity|].
    eapply Forall_impl; [exact Hcs|]. intros c (Hp & Hty & _). cbv beta.
    unfold is_root. apply orb_false_iff. split; apply Z.eqb_neq; congruence. }
  rewrite Hsomas, Hroots.
  set (b1 := foldl indexed new_builder l).
  destruct (indexed_morph l new_builder) as [Hmorph Hdecl]. fold b1 in Hmorph, Hdecl.
  assert (Hsiblings : siblings (id s) l = cs).
  { unfold l, siblings. cbn [List.filter].
    replace (parentId s =? id s) with false
      by (symmetry; apply Z.eqb_neq; congruence).
    apply siblings_all. eapply Forall_impl; [exact Hcs|]. intros c (Hp & _). exact Hp. }
  assert (Hchildren : children_ b1 !! id s =
                      if decide (cs = []) then None else Some (map id cs)).
  { unfold b1. rewrite indexed_children, Hsiblings. cbn [new_builder children_].
    rewrite lookup_empty. destruct cs; reflexivity. }
  assert (Hleaves : Forall (fun c => samples_ b1 !! id c = Some c /\
                                     type c <> SECTION_SOMA /\
                                     children_ b1 !! id c = None) cs).
  { rewrite Forall_forall in Hcs |- *. intros c Hc.
    destruct (Hcs c Hc) as (Hp & Hty & Hnot_root).
    assert (Hin : c ∈ l) by (unfold l; right; exact Hc).
    split; [|split; [exact Hty|]].
    - apply (indexed_samples l new_builder (id c) c Hnd). left. auto.
    - unfold b1. rewrite indexed_children, siblings_none; [reflexivity|].
      unfold l. apply Forall_cons. split; [congruence|].
      rewrite Forall_forall. intros c' Hc'.
      destruct (Hcs c' Hc') as (Hp' & _). rewrite Hp'.
      intros E. unfold l in Hnd. cbn [map] in Hnd. apply NoDup_cons in Hnd as [Hfresh _].
      apply Hfresh. rewrite E. apply list_elem_of_fmap. eauto. }
  unfold build_soma, set_soma, set_morph. rewrite Hroot, Z.eqb_refl. cbn [negb].
  repeat mstep. cbn [for_each]. unfold assemble_from. mstep.
  cbn [children_]. rewrite Hchildren.
  destruct (decide (cs = [])) as [Ecs|Ecs].
  - rewrite Ecs. rewrite bind_ret. cbn [ret result final morph_ map]. rewrite Hmorph.
    split; reflexivity.
  - mstep. cbn [morph_ soma soma_type SomaType_eqb andb].
    mstep.
    match goal with |- context [(assemble_root _ _ _ _ ≫= _) ?b'] =>
      destruct (assemble_root_leaves steps fuel s cs b' Hsoma) as (Hres & Hwarn & Hfin)
    end.
    + eapply Forall_impl; [exact Hleaves|]. intros c0 (H1 & H2 & H3). cbv beta.
      unfold child_count. cbn [samples_ children_]. rewrite H3. auto.
    + cbn. discriminate.
    + cbn. discriminate.
    + unfold mbind, M_mbind, bind. rewrite Hres. cbn [result final ret].
      split; [reflexivity|]. rewrite Hfin. cbn [morph_ soma sections].
      rewrite Hmorph. reflexivity.
Qed.

End Star.

Section StarWitness.
Import Rational Scenario.

(** X23 on a soma sample and two axon samples attached to it. *)
Lemma neurites_on_the_soma_are_root_sections_witness :
  result (buildSWC_fuel 1 1 star_samples new_builder) = Ok tt /\
  morph_ (final (buildSWC_fuel 1 1 star_samples new_builder)) =
    {| soma := mkSoma SOMA_SINGLE_POINT [pt 0 0 0] [float_of_int 2];
       sections := map root_leaf [axon_sample 2 (pt 0 0 1) 1 2; axon_sample 3 (pt 0 1 0) 1 3] |}.
Proof.
  apply (neurites_on_the_soma_are_root_sections 0 0 (soma_sample 1 (pt 0 0 0) SWC_ROOT 1)
           [axon_sample 2 (pt 0 0 1) 1 2; axon_sample 3 (pt 0 1 0) 1 3]).
  - repeat constructor; cbn; unfold SWC_ROOT; lia.
  - cbn. repeat (apply NoDup_cons; split; [rewrite ?elem_of_cons, elem_of_nil; lia|]).
    apply NoDup_nil_2.
  - reflexivity.
  - reflexivity.
  - repeat constructor; cbn; unfold SWC_ROOT, SECTION_SOMA; lia.
Defined.

End StarWitness.
